(** * Datagram-Orchestrator: collaboration flows

    A shallow embedding of [orchestrator/collaboration.py]: the collaborator
    invite flow, the invitation accept flow and the fork create-or-sync
    orchestrator, together with the properties of their remote calls and of
    the three durable checklists.

    Conventions of the embedding.
    - Python [str] is [string]; [str.lower] and [str.strip] act on the ASCII
      range (bytes above 127 are left alone).
    - The remote side is an arbitrary state machine: a type [World] and a
      function [gateway] that answers one [run_gh_api] call, giving the
      Operation Result, the next remote state and the time the call took.
    - [time.time] is a clock counted in whole time units ([N]); [time.sleep]
      and every gateway call advance it.
    - Every effect that leaves the process is appended to a [trace]: gateway
      calls with their results, checklist appends and rewrites, sleeps, the
      diagnostics of [print_error] and [print_warning], and [write_log].
      Progress output ([print], [print_info], [print_success],
      [print_header]) is not modelled.
    - Uncaught Python exceptions end a flow with [Raised]. *)

From Stdlib Require Import String Ascii List NArith ZArith Bool Arith Lia.
Import ListNotations.
Open Scope string_scope.

(** ** Python string operations *)

Module PyStr.

(** [c.lower()] on one ASCII character. *)
Definition lower_ascii (c : ascii) : ascii :=
  let n := nat_of_ascii c in
  if (65 <=? n)%nat && (n <=? 90)%nat then ascii_of_nat (n + 32) else c.

(** [s.lower()] *)
Fixpoint lower (s : string) : string :=
  match s with
  | EmptyString => EmptyString
  | String c s' => String (lower_ascii c) (lower s')
  end.

(** [needle in hay] for strings. *)
Fixpoint contains (needle hay : string) : bool :=
  if prefix needle hay then true
  else match hay with
       | EmptyString => false
       | String _ hay' => contains needle hay'
       end.

(** Characters removed by [s.strip()]: ASCII white space. *)
Definition is_space (c : ascii) : bool :=
  let n := nat_of_ascii c in
  ((9 <=? n)%nat && (n <=? 13)%nat) || ((28 <=? n)%nat && (n <=? 32)%nat).

Fixpoint lstrip_by (p : ascii -> bool) (s : string) : string :=
  match s with
  | EmptyString => EmptyString
  | String c s' => if p c then lstrip_by p s' else s
  end.

Fixpoint rstrip_by (p : ascii -> bool) (s : string) : string :=
  match s with
  | EmptyString => EmptyString
  | String c s' =>
      match rstrip_by p s' with
      | EmptyString => if p c then EmptyString else String c EmptyString
      | r => String c r
      end
  end.

Definition strip_by (p : ascii -> bool) (s : string) : string :=
  rstrip_by p (lstrip_by p s).

(** [s.strip()] *)
Definition strip (s : string) : string := strip_by is_space s.

(** The double quote character. *)
Definition dquote : ascii := "034"%char.

(** [s.strip] called with the double quote as its argument. *)
Definition strip_quotes (s : string) : string := strip_by (Ascii.eqb dquote) s.

(** [s.split('/')] *)
Fixpoint split_slash (s : string) : list string :=
  match s with
  | EmptyString => [EmptyString]
  | String c s' =>
      if Ascii.eqb c "/"%char then EmptyString :: split_slash s'
      else match split_slash s' with
           | [] => [String c EmptyString]
           | h :: t => String c h :: t
           end
  end.

(** [x in xs] for a list of strings. *)
Definition mem (x : string) (xs : list string) : bool :=
  existsb (String.eqb x) xs.

End PyStr.

(** ** Data model *)

(** The Operation Result returned by every gateway call; [error] may be
    absent. *)
Record OperationResult := mkResult {
  success : bool;
  output : string;
  error : option string
}.

(** [result.get('error', '')] *)
Definition get_error (r : OperationResult) : string :=
  match error r with Some e => e | None => "" end.

(** [result.get('error')] formatted inside an f-string. *)
Definition show_error (r : OperationResult) : string :=
  match error r with Some e => e | None => "None" end.

(** A value produced by [json.loads]. Numbers are integers. *)
#[warnings="-register-all"]
Inductive json :=
| JNull
| JBool (b : bool)
| JNum (n : Z)
| JStr (s : string)
| JArr (items : list json)
| JObj (fields : list (string * json)).

(** The three checklist files. *)
Inductive ChecklistFile :=
| INVITED_USERS_FILE
| ACCEPTED_USERS_FILE
| FORKED_REPOS_FILE.

(** The commands handed to [run_gh_api], one constructor per command
    template of the source:
    - [CmdInvite p u]: [api --silent -X PUT repos/{p}/collaborators/{u} -f permission=push]
    - [CmdListInvitations]: [api user/repository_invitations]
    - [CmdAcceptInvitation i]: [api --method PATCH /user/repository_invitations/{i} --silent]
    - [CmdParent p]: [api repos/{p} --jq .parent.full_name]
    - [CmdDefaultBranch p]: [api repos/{p} --jq .default_branch]
    - [CmdDeleteRepo p]: [api -X DELETE repos/{p}]
    - [CmdMergeUpstream f b]: [api -X POST repos/{f}/merge-upstream -f branch={b}]
    - [CmdCreateFork s]: [api -X POST repos/{s}/forks]
    - [CmdRepoExists p]: [api repos/{p}]
    - [CmdDisableWorkflow p w]: the remote call of the helper
      [disable_workflow(p, token, w)]. *)
Inductive GhCommand :=
| CmdInvite (repo_path username : string)
| CmdListInvitations
| CmdAcceptInvitation (inv_id : json)
| CmdParent (repo_path : string)
| CmdDefaultBranch (repo_path : string)
| CmdDeleteRepo (repo_path : string)
| CmdMergeUpstream (fork_repo branch : string)
| CmdCreateFork (source_repo : string)
| CmdRepoExists (repo_path : string)
| CmdDisableWorkflow (repo_path workflow : string).

(** One [run_gh_api(command, token, max_retries=.., timeout=..)] call; an
    absent keyword argument is [None]. *)
Record ApiCall := mkCall {
  call_command : GhCommand;
  call_token : string;
  call_max_retries : option N;
  call_timeout : option N
}.

Inductive PrintLevel := LvlError | LvlWarning.

Inductive Event :=
| EvApi (c : ApiCall) (r : OperationResult)
| EvAppend (f : ChecklistFile) (line : string)
| EvRewrite (f : ChecklistFile) (lines : list string)
| EvSleep (n : N)
| EvPrint (lvl : PrintLevel) (msg : string)
| EvLog (msg : string).

(** The configuration file, once loaded. *)
Record Config := mkConfig {
  main_account_username : string;
  main_repo_name : string;
  main_token : string
}.

(** Python exceptions the flows can meet. *)
Inductive PyExn :=
| KeyError
| AttributeError
| TypeError
| EOFError
| JSONDecodeError
| ValueError
| RecursionError
| IndexError.

(** ** The effect monad *)

Section Effects.

Variable World : Type.

(** What the remote side answers to one call. *)
Record Reply := mkReply {
  reply_result : OperationResult;
  reply_world : World;
  reply_elapsed : N
}.

(** The process state: the remote side, the clock, the local files, the
    operator's pending input lines and the trace of effects so far. *)
Record State := mkState {
  remote : World;
  clock : N;
  config_file : option Config;
  token_cache_file : option (list (string * string));
  invited_file : list string;
  accepted_file : list string;
  forked_file : list string;
  stdin : list string;
  trace : list Event
}.

Inductive Outcome (A : Type) :=
| Normal (a : A) (s : State)
| Raised (e : PyExn) (s : State)
| Diverged.

Definition M (A : Type) : Type := State -> Outcome A.

Definition ret {A} (a : A) : M A := fun st => Normal A a st.

Definition bind {A B} (m : M A) (k : A -> M B) : M B :=
  fun st =>
    match m st with
    | Normal _ a st' => k a st'
    | Raised _ e st' => Raised B e st'
    | Diverged _ => Diverged B
    end.

Definition raise {A} (e : PyExn) : M A := fun st => Raised A e st.

(** [try: body except (JSONDecodeError, KeyError): handler] *)
Definition try_except {A} (body : M A) (caught : PyExn -> bool) (handler : M A) : M A :=
  fun st =>
    match body st with
    | Raised _ e st' => if caught e then handler st' else Raised A e st'
    | o => o
    end.

Definition emit (ev : Event) : M unit :=
  fun st =>
    Normal unit tt
      (mkState (remote st) (clock st) (config_file st) (token_cache_file st)
         (invited_file st) (accepted_file st) (forked_file st) (stdin st)
         (trace st ++ [ev])).

Definition get_file (f : ChecklistFile) (st : State) : list string :=
  match f with
  | INVITED_USERS_FILE => invited_file st
  | ACCEPTED_USERS_FILE => accepted_file st
  | FORKED_REPOS_FILE => forked_file st
  end.

Definition set_file (f : ChecklistFile) (lines : list string) (st : State) : State :=
  match f with
  | INVITED_USERS_FILE =>
      mkState (remote st) (clock st) (config_file st) (token_cache_file st)
        lines (accepted_file st) (forked_file st) (stdin st) (trace st)
  | ACCEPTED_USERS_FILE =>
      mkState (remote st) (clock st) (config_file st) (token_cache_file st)
        (invited_file st) lines (forked_file st) (stdin st) (trace st)
  | FORKED_REPOS_FILE =>
      mkState (remote st) (clock st) (config_file st) (token_cache_file st)
        (invited_file st) (accepted_file st) lines (stdin st) (trace st)
  end.

End Effects.

Arguments Normal {World A} a s.
Arguments Raised {World A} e s.
Arguments Diverged {World A}.
Arguments ret {World A} a _.
Arguments bind {World A B} m k _.
Arguments raise {World A} e _.
Arguments try_except {World A} body caught handler _.
Arguments emit {World} ev _.
Arguments get_file {World} f st.
Arguments set_file {World} f lines st.
Arguments mkState {World}.
Arguments remote {World} s.
Arguments clock {World} s.
Arguments config_file {World} s.
Arguments token_cache_file {World} s.
Arguments invited_file {World} s.
Arguments accepted_file {World} s.
Arguments forked_file {World} s.
Arguments stdin {World} s.
Arguments trace {World} s.
Arguments mkReply {World}.
Arguments reply_result {World} r.
Arguments reply_world {World} r.
Arguments reply_elapsed {World} r.

Declare Scope py_scope.
Delimit Scope py_scope with py.
Notation "x <- c1 ;; c2" := (bind c1 (fun x => c2))
  (at level 61, c1 at next level, right associativity) : py_scope.
Notation "c1 ;; c2" := (bind c1 (fun _ => c2))
  (at level 61, right associativity) : py_scope.
Open Scope py_scope.

(** ** Python values *)

(** [d.get(k)] on a dictionary decoded from JSON. *)
Definition dict_get (k : string) (fields : list (string * json)) : option json :=
  match find (fun kv => String.eqb (fst kv) k) fields with
  | Some kv => Some (snd kv)
  | None => None
  end.

(** Truth value of a decoded JSON value, as [if inv_id:] takes it. *)
Definition truthy (v : json) : bool :=
  match v with
  | JNull => false
  | JBool b => b
  | JNum n => negb (Z.eqb n 0)
  | JStr s => negb (String.eqb s "")
  | JArr items => match items with [] => false | _ => true end
  | JObj fields => match fields with [] => false | _ => true end
  end.

Fixpoint chars (s : string) : list json :=
  match s with
  | EmptyString => []
  | String c s' => JStr (String c EmptyString) :: chars s'
  end.

(** The elements [for inv in invitations] ranges over; [None] when the value
    cannot be iterated (TypeError). *)
Definition py_iter (v : json) : option (list json) :=
  match v with
  | JArr items => Some items
  | JObj fields => Some (map (fun kv => JStr (fst kv)) fields)
  | JStr s => Some (chars s)
  | _ => None
  end.

(** [next((inv['id'] for inv in invitations
           if inv.get('repository', {}).get('full_name', '').lower() == target_repo), None)]:
    the generator stops at the first match; a value without [get] or [lower]
    raises AttributeError, a matching invitation without an id KeyError. *)
Fixpoint find_invitation (target_repo : string) (invitations : list json)
  : PyExn + option json :=
  match invitations with
  | [] => inr None
  | inv :: rest =>
      match inv with
      | JObj fields =>
          match match dict_get "repository" fields with Some r => r | None => JObj [] end with
          | JObj repository =>
              match match dict_get "full_name" repository with Some n => n | None => JStr "" end with
              | JStr full_name =>
                  if String.eqb (PyStr.lower full_name) target_repo then
                    match dict_get "id" fields with
                    | Some inv_id => inr (Some inv_id)
                    | None => inl KeyError
                    end
                  else find_invitation target_repo rest
              | _ => inl AttributeError
              end
          | _ => inl AttributeError
          end
      | _ => inl AttributeError
      end
  end.

(** [{u: t for t, u in token_cache.items() if u != main_username}]: a
    dictionary keeps the position of the first insertion of a key and the
    value of the last. *)
Fixpoint dict_set (k v : string) (d : list (string * string)) : list (string * string) :=
  match d with
  | [] => [(k, v)]
  | (k', v') :: d' =>
      if String.eqb k' k then (k, v) :: d' else (k', v') :: dict_set k v d'
  end.

Definition users_to_process_of (main_username : string) (token_cache : list (string * string))
  : list (string * string) :=
  fold_left
    (fun d tu => if negb (String.eqb (snd tu) main_username) then dict_set (snd tu) (fst tu) d else d)
    token_cache [].

(** [[u for u in token_cache.values() if u not in invited_users and u != main_username]] *)
Definition users_to_invite_of (main_username : string) (invited_users : list string)
  (token_cache : list (string * string)) : list string :=
  filter
    (fun u => negb (PyStr.mem u invited_users) && negb (String.eqb u main_username))
    (map snd token_cache).

(** Counters of the three flows, as printed in their final reports. *)
Record InviteCounts := mkInviteCounts { invite_success : nat; invite_failed : nat }.
Record AcceptCounts := mkAcceptCounts {
  accepted_count : nat; skipped_count : nat; no_invite_count : nat }.
Record ForkCounts := mkForkCounts { success_count : nat; failed_count : nat }.

(** Error-text rules of the three operations, on the lower-cased text. *)
Definition invite_error_converges (error_msg : string) : bool :=
  PyStr.contains "already a collaborator" error_msg.

Definition fork_error_converges (error_msg : string) : bool :=
  PyStr.contains "forks must have unique names" error_msg.

Definition sync_error_converges (error_msg : string) : bool :=
  existsb (fun keyword => PyStr.contains keyword error_msg)
    ["up-to-date"; "up to date"; "already"].

(** [timeout = 120] and the [time.sleep(5)] of the readiness poll. *)
Definition POLL_TIMEOUT : N := 120.
Definition POLL_INTERVAL : N := 5.

(** Every round of the readiness poll sleeps 5 units inside a window of 120:
    24 rounds at most. *)
Definition poll_fuel : nat := 24.

(** ** The program *)

Section Program.

Context {World : Type}.

(** The remote side: remote state, current time, call; see [Reply]. *)
Variable gateway : World -> N -> ApiCall -> Reply World.

(** [json.loads]: the decoded value, or the exception the decoder raises:
    JSONDecodeError on text that is not JSON, and whatever else a decoder
    may raise (ValueError, RecursionError). Decoded objects carry each key
    once, as a Python dictionary does. *)
Variable json_loads : string -> PyExn + json.

Local Abbreviation Prog := (M World).

(** Modelled from the spec: [run_gh_api] lives in the helpers module, which
    is not part of the sources at hand; by the spec (4.1) it executes one
    remote operation with a credential and returns the Operation Result.
    The call and its result are recorded in the trace. *)
Definition run_gh_api (command : GhCommand) (token : string)
  (max_retries timeout : option N) : Prog OperationResult :=
  fun st =>
    let call := mkCall command token max_retries timeout in
    let rep := gateway (remote st) (clock st) call in
    Normal (reply_result rep)
      (mkState (reply_world rep) (clock st + reply_elapsed rep)
         (config_file st) (token_cache_file st)
         (invited_file st) (accepted_file st) (forked_file st) (stdin st)
         (trace st ++ [EvApi call (reply_result rep)])).

(** [time.sleep(n)] *)
Definition sleep (n : N) : Prog unit :=
  fun st =>
    Normal tt
      (mkState (remote st) (clock st + n) (config_file st) (token_cache_file st)
         (invited_file st) (accepted_file st) (forked_file st) (stdin st)
         (trace st ++ [EvSleep n])).

(** [time.time()] *)
Definition time_now : Prog N := fun st => Normal (clock st) st.

(** Modelled from the spec: [read_file_lines] is a helper; a checklist is
    one identifier per line (spec 6). *)
Definition read_file_lines (f : ChecklistFile) : Prog (list string) :=
  fun st => Normal (get_file f st) st.

(** Modelled from the spec: the [add] of the checklist store (spec 4.2):
    append, and adding an identifier that is present is a no-op. *)
Definition add_line (lines : list string) (line : string) : list string :=
  if PyStr.mem line lines then lines else lines ++ [line].

(** Modelled from the spec: [append_to_file] is a helper; see [add_line]. *)
Definition append_to_file (f : ChecklistFile) (line : string) : Prog unit :=
  fun st =>
    emit (EvAppend f line) (set_file f (add_line (get_file f st) line) st).

(** [FILE.write_text('\n'.join(new_lines) + '\n')]: the file now holds
    exactly [new_lines]. *)
Definition write_lines (f : ChecklistFile) (new_lines : list string) : Prog unit :=
  fun st => emit (EvRewrite f new_lines) (set_file f new_lines st).

(** Modelled from the spec: [print_error], [print_warning] and [write_log]
    are helpers; the first two write a diagnostic to the terminal, the last
    appends a line to the failure log (spec 6). All three are recorded in
    the trace. *)
Definition print_error (msg : string) : Prog unit := emit (EvPrint LvlError msg).
Definition print_warning (msg : string) : Prog unit := emit (EvPrint LvlWarning msg).
Definition write_log (msg : string) : Prog unit := emit (EvLog msg).

(** Modelled from the spec: [load_json_file] is a helper;
    [load_json_file(CONFIG_FILE)] gives the configuration, [None] when the
    file is missing or empty (spec 7). *)
Definition load_config : Prog (option Config) := fun st => Normal (config_file st) st.

(** Modelled from the spec: [load_json_file(TOKEN_CACHE_FILE)], the
    credential cache: token to username, in file order. *)
Definition load_token_cache : Prog (option (list (string * string))) :=
  fun st => Normal (token_cache_file st) st.

(** [input(prompt)]: the next line the operator types; EOFError when there
    is none. *)
Definition input : Prog string :=
  fun st =>
    match stdin st with
    | [] => Raised EOFError st
    | line :: rest =>
        Normal line
          (mkState (remote st) (clock st) (config_file st) (token_cache_file st)
             (invited_file st) (accepted_file st) (forked_file st) rest (trace st))
    end.

(** [result['error']] *)
Definition index_error (r : OperationResult) : Prog string :=
  match error r with
  | Some e => ret e
  | None => raise KeyError
  end.

(** Modelled from the spec: [disable_workflow] is a helper; by the spec
    (4.4.5, 6) it is one best-effort gateway operation whose failure is not
    reported to the caller. *)
Definition disable_workflow (repo_path token workflow : string) : Prog unit :=
  _ <- run_gh_api (CmdDisableWorkflow repo_path workflow) token None None ;;
  ret tt.

(** A loop that has used up its fuel. *)
Definition diverge {A : Type} : Prog A := fun _ => Diverged.

(** [for x in xs: state = body(x, state)] *)
Fixpoint for_each {A S : Type} (body : A -> S -> Prog S) (xs : list A) (s : S) : Prog S :=
  match xs with
  | [] => ret s
  | x :: rest => s' <- body x s ;; for_each body rest s'
  end.

(** *** invoke_auto_invite *)

(** The body of the loop of [invoke_auto_invite]. *)
Definition invite_one (config : Config) (repo_path : string)
  (username : string) (c : InviteCounts) : Prog InviteCounts :=
  result <- run_gh_api (CmdInvite repo_path username) (main_token config) None None ;;
  c' <- (if success result then
           append_to_file INVITED_USERS_FILE username ;;
           ret (mkInviteCounts (S (invite_success c)) (invite_failed c))
         else
           let error_msg := PyStr.lower (get_error result) in
           if invite_error_converges error_msg then
             print_warning " ⚠️  Already a collaborator" ;;
             append_to_file INVITED_USERS_FILE username ;;
             ret (mkInviteCounts (S (invite_success c)) (invite_failed c))
           else
             e <- index_error result ;;
             print_error (" ❌ " ++ e) ;;
             ret (mkInviteCounts (invite_success c) (S (invite_failed c)))) ;;
  sleep 1 ;;
  ret c'.

(** [invoke_auto_invite]; the result is the pair of counters of the final
    report, [None] when the flow returns before its loop. *)
Definition invoke_auto_invite : Prog (option InviteCounts) :=
  config <- load_config ;;
  match config with
  | None => print_error "Konfigurasi belum diset." ;; ret None
  | Some config =>
      token_cache <- load_token_cache ;;
      match token_cache with
      | None | Some [] => print_error "Token cache kosong." ;; ret None
      | Some token_cache =>
          invited_users <- read_file_lines INVITED_USERS_FILE ;;
          let main_username := main_account_username config in
          let users_to_invite := users_to_invite_of main_username invited_users token_cache in
          match users_to_invite with
          | [] => ret None
          | _ =>
              let repo_path := main_username ++ "/" ++ main_repo_name config in
              c <- for_each (invite_one config repo_path) users_to_invite
                     (mkInviteCounts 0 0) ;;
              ret (Some c)
          end
      end
  end.

(** *** invoke_auto_accept *)

(** [except (json.JSONDecodeError, KeyError)] *)
Definition parse_failure (e : PyExn) : bool :=
  match e with
  | JSONDecodeError | KeyError => true
  | _ => false
  end.

(** The body of the [try] of [invoke_auto_accept], lines 120 to 136. *)
Definition accept_try (target_repo token username : string)
  (result : OperationResult) (c : AcceptCounts) : Prog AcceptCounts :=
  match json_loads (output result) with
  | inl e => raise e
  | inr invitations =>
      match py_iter invitations with
      | None => raise TypeError
      | Some items =>
          match find_invitation target_repo items with
          | inl e => raise e
          | inr found =>
              match found with
              | Some inv_id =>
                  if truthy inv_id then
                    accept_result <- run_gh_api (CmdAcceptInvitation inv_id) token None None ;;
                    if success accept_result then
                      append_to_file ACCEPTED_USERS_FILE username ;;
                      ret (mkAcceptCounts (S (accepted_count c)) (skipped_count c)
                             (no_invite_count c))
                    else
                      e <- index_error accept_result ;;
                      print_error (" ❌ Gagal accept: " ++ e) ;;
                      ret c
                  else
                    ret (mkAcceptCounts (accepted_count c) (skipped_count c)
                           (S (no_invite_count c)))
              | None =>
                  ret (mkAcceptCounts (accepted_count c) (skipped_count c)
                         (S (no_invite_count c)))
              end
          end
      end
  end.

(** The body of the loop of [invoke_auto_accept]; [continue] leaves the body
    before its [time.sleep(1)]. *)
Definition accept_one (target_repo : string) (accepted_users : list string)
  (item : string * string) (c : AcceptCounts) : Prog AcceptCounts :=
  let token := fst item in
  let username := snd item in
  if PyStr.mem username accepted_users then
    ret (mkAcceptCounts (accepted_count c) (S (skipped_count c)) (no_invite_count c))
  else
    result <- run_gh_api CmdListInvitations token None None ;;
    if negb (success result) then
      print_error " ❌ Gagal fetch invitations" ;;
      ret c
    else
      c' <- try_except (accept_try target_repo token username result c)
              parse_failure
              (print_error " ❌ Gagal parse JSON" ;; ret c) ;;
      sleep 1 ;;
      ret c'.

Definition invoke_auto_accept : Prog (option AcceptCounts) :=
  config <- load_config ;;
  token_cache <- load_token_cache ;;
  match config, token_cache with
  | Some config, Some (item :: items) =>
      let token_cache := item :: items in
      let target_repo :=
        PyStr.lower (main_account_username config ++ "/" ++ main_repo_name config) in
      accepted_users <- read_file_lines ACCEPTED_USERS_FILE ;;
      c <- for_each (accept_one target_repo accepted_users) token_cache
             (mkAcceptCounts 0 0 0) ;;
      ret (Some c)
  | _, _ =>
      print_error "Konfigurasi atau token cache tidak ditemukan." ;;
      ret None
  end.

(** *** Fork state prober and fork operations *)

(** [check_if_correct_fork] on the result of the parentage call. *)
Definition parent_matches (result : OperationResult) (expected_parent : string) : bool :=
  success result &&
  String.eqb (PyStr.lower (PyStr.strip_quotes (PyStr.strip (output result))))
             (PyStr.lower expected_parent).

Definition check_if_correct_fork (repo_path token expected_parent : string) : Prog bool :=
  result <- run_gh_api (CmdParent repo_path) token (Some 2%N) None ;;
  if negb (success result) then ret false
  else
    let parent := PyStr.strip_quotes (PyStr.strip (output result)) in
    ret (String.eqb (PyStr.lower parent) (PyStr.lower expected_parent)).

Definition get_default_branch (repo_path token : string) : Prog string :=
  result <- run_gh_api (CmdDefaultBranch repo_path) token (Some 1%N) None ;;
  if success result && negb (String.eqb (PyStr.strip (output result)) "") then
    ret (PyStr.strip_quotes (PyStr.strip (output result)))
  else ret "main".

Definition delete_repository (repo_path token : string) : Prog bool :=
  print_warning ("    🗑️  Deleting repository: " ++ repo_path) ;;
  result <- run_gh_api (CmdDeleteRepo repo_path) token (Some 2%N) (Some 60%N) ;;
  if success result then
    sleep 5 ;;
    ret true
  else
    write_log ("Failed to delete " ++ repo_path ++ ": " ++ show_error result) ;;
    print_error ("    ❌ Failed to delete " ++ repo_path) ;;
    ret false.

Definition sync_fork_with_upstream (fork_repo token : string) : Prog bool :=
  default_branch <- get_default_branch fork_repo token ;;
  disable_workflow fork_repo token "datagram-runner.yml" ;;
  sync_result <- run_gh_api (CmdMergeUpstream fork_repo default_branch) token (Some 2%N) None ;;
  if success sync_result then ret true
  else
    let error_msg := PyStr.lower (get_error sync_result) in
    if sync_error_converges error_msg then ret true
    else
      print_warning ("    ⚠️  Sync failed: " ++ show_error sync_result) ;;
      ret false.

(** The [while time.time() - start_time < timeout] loop of [create_new_fork];
    the result is [fork_created]. [fuel] bounds the number of rounds. *)
Fixpoint poll_fork (fuel : nat) (fork_repo_path token : string) (start_time : N)
  : Prog bool :=
  now <- time_now ;;
  if (now - start_time <? POLL_TIMEOUT)%N then
    match fuel with
    | O => diverge
    | S fuel' =>
        check_result <- run_gh_api (CmdRepoExists fork_repo_path) token (Some 1%N) None ;;
        if success check_result then ret true
        else
          sleep POLL_INTERVAL ;;
          poll_fork fuel' fork_repo_path token start_time
    end
  else ret false.

(** Lines 229 to 244 of [create_new_fork]: wait until the fork answers. *)
Definition wait_for_fork (fork_repo_path token : string) : Prog bool :=
  start_time <- time_now ;;
  fork_created <- poll_fork poll_fuel fork_repo_path token start_time ;;
  if negb fork_created then
    print_error "    ❌ Timeout: Fork was not ready in time." ;;
    ret false
  else ret true.

Definition create_new_fork (username token source_repo : string) : Prog bool :=
  match nth_error (PyStr.split_slash source_repo) 1 with
  | None => raise IndexError
  | Some name =>
      let fork_repo_path := username ++ "/" ++ name in
      cached <- read_file_lines FORKED_REPOS_FILE ;;
      (if PyStr.mem username cached then
         lines <- read_file_lines FORKED_REPOS_FILE ;;
         let new_lines := filter (fun line => negb (String.eqb line username)) lines in
         write_lines FORKED_REPOS_FILE new_lines
       else ret tt) ;;
      result <- run_gh_api (CmdCreateFork source_repo) token (Some 1%N) None ;;
      proceed <- (if negb (success result) then
                    let error_msg := PyStr.lower (get_error result) in
                    if fork_error_converges error_msg then
                      print_warning "    ⚠️  Fork already exists. Skipping creation." ;;
                      ret true
                    else
                      print_error ("    ❌ Fork creation failed: " ++ show_error result) ;;
                      write_log ("Fork failed for @" ++ username ++ ": " ++ show_error result) ;;
                      ret false
                  else ret true) ;;
      if negb proceed then ret false
      else
        ready <- wait_for_fork fork_repo_path token ;;
        if negb ready then ret false
        else
          disable_workflow fork_repo_path token "datagram-runner.yml" ;;
          append_to_file FORKED_REPOS_FILE username ;;
          ret true
  end.

(** *** invoke_auto_create_or_sync_fork *)

(** The mode prompt, [while True: action = input(..).strip() ..]; [pending]
    is the operator's remaining input, on which the loop recurs. *)
Fixpoint ask_mode (pending : list string) : Prog string :=
  match pending with
  | [] => _ <- input ;; raise EOFError
  | _ :: rest =>
      line <- input ;;
      let action := PyStr.strip line in
      if PyStr.mem action ["1"; "2"] then ret action
      else
        print_warning "Pilihan tidak valid." ;;
        ask_mode rest
  end.

Definition choose_mode : Prog string := fun st => ask_mode (stdin st) st.

(** The body of the loop over [users_to_process]; [continue] after a failed
    deletion leaves the body before its [time.sleep(2)]. *)
Definition process_account (action source_repo repo_name : string)
  (item : string * string) (c : ForkCounts) : Prog ForkCounts :=
  let username := fst item in
  let token := snd item in
  let fork_repo_path := username ++ "/" ++ repo_name in
  let succeeded := mkForkCounts (S (success_count c)) (failed_count c) in
  let failed := mkForkCounts (success_count c) (S (failed_count c)) in
  is_fork_valid <- check_if_correct_fork fork_repo_path token source_repo ;;
  if String.eqb action "2" then
    repo_exists_result <- run_gh_api (CmdRepoExists fork_repo_path) token (Some 1%N) None ;;
    deleted <- (if success repo_exists_result then delete_repository fork_repo_path token
                else ret true) ;;
    if negb deleted then ret failed
    else
      created <- create_new_fork username token source_repo ;;
      sleep 2 ;;
      ret (if created then succeeded else failed)
  else if String.eqb action "1" then
    if is_fork_valid then
      synced <- sync_fork_with_upstream fork_repo_path token ;;
      sleep 2 ;;
      ret (if synced then succeeded else failed)
    else
      print_warning "   ⚠️  Fork tidak valid atau tidak ditemukan." ;;
      created <- create_new_fork username token source_repo ;;
      sleep 2 ;;
      ret (if created then succeeded else failed)
  else
    sleep 2 ;;
    ret c.

Definition invoke_auto_create_or_sync_fork : Prog (option ForkCounts) :=
  config <- load_config ;;
  match config with
  | None => print_error "Konfigurasi belum diset." ;; ret None
  | Some config =>
      token_cache <- load_token_cache ;;
      match token_cache with
      | None | Some [] => print_error "Token cache kosong." ;; ret None
      | Some token_cache =>
          let main_username := main_account_username config in
          let source_repo := main_username ++ "/" ++ main_repo_name config in
          let repo_name := main_repo_name config in
          let users_to_process := users_to_process_of main_username token_cache in
          match users_to_process with
          | [] => ret None
          | _ =>
              print_warning (String "010"%char "Mode Operasi:") ;;
              action <- choose_mode ;;
              proceed <- (if String.eqb action "1" then ret true
                          else
                            print_warning
                              (String "010"%char
                                 "Mode: Force Clean & Create. Ini akan menghapus repo yang ada.") ;;
                            answer <- input ;;
                            if negb (String.eqb (PyStr.lower answer) "y") then
                              print_warning "Operasi dibatalkan." ;;
                              ret false
                            else ret true) ;;
              if negb proceed then ret None
              else
                c <- for_each (process_account action source_repo repo_name)
                       users_to_process (mkForkCounts 0 0) ;;
                ret (Some c)
          end
      end
  end.

End Program.

(** ** Scripted remote sides for concrete runs *)

Module Scenario.

(** A remote side whose state counts the calls answered so far; [rule]
    gives the result of the call and [cost] the time it takes. *)
Definition scripted (rule : nat -> ApiCall -> OperationResult) (cost : N)
  : nat -> N -> ApiCall -> Reply nat :=
  fun served _ call => mkReply (rule served call) (S served) cost.

Definition ok (out : string) : OperationResult := mkResult true out None.
Definition failure (err : string) : OperationResult := mkResult false "" (Some err).

(** [json.loads] on the few payloads used below. *)
Definition loads (s : string) : PyExn + json :=
  if String.eqb s "[]" then inr (JArr [])
  else if String.eqb s "[{..}]" then
    inr (JArr [JObj [("id", JNum 7);
                     ("repository", JObj [("full_name", JStr "Main/Repo")])]])
  else if String.eqb s "{..}" then
    inr (JObj [("message", JStr "Bad credentials")])
  else inl JSONDecodeError.

(** A decoder that raises [e] on every payload. *)
Definition loads_raising (e : PyExn) : string -> PyExn + json := fun _ => inl e.

Definition config : Config := mkConfig "main" "repo" "tok-main".

Definition start (cache : list (string * string))
  (invited accepted forked answers : list string) : State nat :=
  mkState 0%nat 0%N (Some config) (Some cache) invited accepted forked answers [].

Definition cache3 : list (string * string) :=
  [("tok-main", "main"); ("tok-a", "alice"); ("tok-b", "bob")].

(** Every call succeeds at once. *)
Definition always_ok : nat -> N -> ApiCall -> Reply nat :=
  scripted (fun _ _ => ok "main/repo") 0.

(** Every call fails with the given text after [cost] time units. *)
Definition always_failing (err : string) (cost : N) : nat -> N -> ApiCall -> Reply nat :=
  scripted (fun _ _ => failure err) cost.

(** Probes succeed, deletion fails. *)
Definition undeletable : nat -> N -> ApiCall -> Reply nat :=
  scripted (fun _ call =>
              match call_command call with
              | CmdDeleteRepo _ => failure "HTTP 403"
              | _ => ok "main/repo"
              end) 0.

(** The invitation listing succeeds with the given payload. *)
Definition listing (payload : string) : nat -> N -> ApiCall -> Reply nat :=
  scripted (fun _ _ => ok payload) 0.

(** The merge from upstream is refused with the given text; everything
    else succeeds. *)
Definition merge_refused (err : string) : nat -> N -> ApiCall -> Reply nat :=
  scripted (fun _ call =>
              match call_command call with
              | CmdMergeUpstream _ _ => failure err
              | _ => ok "main"
              end) 0.

(** The invitation is refused with the given text. *)
Definition invite_refused (err : string) : nat -> N -> ApiCall -> Reply nat :=
  scripted (fun _ _ => failure err) 0.

(** The first call succeeds; every later one fails without an error text. *)
Definition fails_silently_after_first : nat -> N -> ApiCall -> Reply nat :=
  scripted (fun served _ =>
              match served with
              | O => ok ""
              | _ => mkResult false "" None
              end) 0.

(** A fresh start: nothing invited, accepted or forked, no operator input. *)
Definition fresh : State nat := start cache3 [] [] [] [].

End Scenario.

(** ** Reading traces *)

Open Scope list_scope.

(** Classifiers of trace events. *)
Definition is_api (e : Event) : bool :=
  match e with EvApi _ _ => true | _ => false end.

Definition command_of (e : Event) : option GhCommand :=
  match e with EvApi c _ => Some (call_command c) | _ => None end.

Definition is_create_call (e : Event) : bool :=
  match command_of e with Some (CmdCreateFork _) => true | _ => false end.

Definition is_delete_call (e : Event) : bool :=
  match command_of e with Some (CmdDeleteRepo _) => true | _ => false end.

Definition is_merge_call (e : Event) : bool :=
  match command_of e with Some (CmdMergeUpstream _ _) => true | _ => false end.

Definition is_file_change (e : Event) : bool :=
  match e with EvAppend _ _ | EvRewrite _ _ => true | _ => false end.

Definition file_eqb (f g : ChecklistFile) : bool :=
  match f, g with
  | INVITED_USERS_FILE, INVITED_USERS_FILE
  | ACCEPTED_USERS_FILE, ACCEPTED_USERS_FILE
  | FORKED_REPOS_FILE, FORKED_REPOS_FILE => true
  | _, _ => false
  end.

(** The content of checklist [f] after the file events of [seg]. *)
Fixpoint replay (f : ChecklistFile) (seg : list Event) (lines : list string) : list string :=
  match seg with
  | [] => lines
  | EvAppend g line :: seg' =>
      replay f seg' (if file_eqb f g then add_line lines line else lines)
  | EvRewrite g new_lines :: seg' =>
      replay f seg' (if file_eqb f g then new_lines else lines)
  | _ :: seg' => replay f seg' lines
  end.

(** The state an outcome ends in, if any. *)
Definition final_state {World A} (o : Outcome World A) : option (State World) :=
  match o with
  | Normal _ s | Raised _ s => Some s
  | Diverged => None
  end.

(** Entries of a checklist other than [username], in order. *)
Definition others (username : string) (lines : list string) : list string :=
  filter (fun line => negb (String.eqb line username)) lines.

(** Entries of a checklist outside [usernames], in order. *)
Definition outside (usernames lines : list string) : list string :=
  filter (fun line => negb (PyStr.mem line usernames)) lines.

(** ** The calls of the fork orchestrator, with their keyword arguments *)

(** The parentage probe of [check_if_correct_fork]. *)
Definition parent_call (repo_path token : string) : ApiCall :=
  mkCall (CmdParent repo_path) token (Some 2%N) None.

(** The existence probe of the orchestrator and of the readiness poll. *)
Definition exists_call (repo_path token : string) : ApiCall :=
  mkCall (CmdRepoExists repo_path) token (Some 1%N) None.

(** The deletion of [delete_repository]. *)
Definition delete_call (repo_path token : string) : ApiCall :=
  mkCall (CmdDeleteRepo repo_path) token (Some 2%N) (Some 60%N).

(** The creation request of [create_new_fork]. *)
Definition create_call (source_repo token : string) : ApiCall :=
  mkCall (CmdCreateFork source_repo) token (Some 1%N) None.

(** [repairs_only users source_repo lines seg]: along the stretch of trace
    [seg], started with the forked checklist [lines], every rewrite of a
    checklist is the stale-entry repair of [create_new_fork]: it rewrites
    the forked checklist to its current content without one account of
    [users] that it holds, and the very next event is the creation request
    for [source_repo] with that account's credential. *)
Fixpoint repairs_only (users : list (string * string)) (source_repo : string)
  (lines : list string) (seg : list Event) : Prop :=
  match seg with
  | [] => True
  | e :: rest =>
      match e with
      | EvRewrite f new_lines =>
          f = FORKED_REPOS_FILE /\
          exists username token r rest',
            In (username, token) users /\ In username lines /\
            new_lines = others username lines /\
            rest = EvApi (create_call source_repo token) r :: rest'
      | _ => True
      end /\
      repairs_only users source_repo (replay FORKED_REPOS_FILE [e] lines) rest
  end.

(** The invitation listing of [invoke_auto_accept]. *)
Definition list_call (token : string) : ApiCall :=
  mkCall CmdListInvitations token None None.

(** The merge from upstream of [sync_fork_with_upstream]. *)
Definition merge_call (fork_repo branch token : string) : ApiCall :=
  mkCall (CmdMergeUpstream fork_repo branch) token (Some 2%N) None.

(** The call of [get_default_branch]. *)
Definition branch_call (repo_path token : string) : ApiCall :=
  mkCall (CmdDefaultBranch repo_path) token (Some 1%N) None.

(** The call of [disable_workflow] for the runner workflow. *)
Definition disable_call (repo_path token : string) : ApiCall :=
  mkCall (CmdDisableWorkflow repo_path "datagram-runner.yml") token None None.

(** The invitation of [invoke_auto_invite], made with the main token. *)
Definition invite_call (config : Config) (repo_path username : string) : ApiCall :=
  mkCall (CmdInvite repo_path username) (main_token config) None None.

(** ** What each operation may emit *)

(** Events of [check_if_correct_fork]. *)
Definition check_events (repo_path token : string) (e : Event) : Prop :=
  match e with
  | EvApi c _ => call_token c = token /\ call_command c = CmdParent repo_path
  | EvAppend _ _ | EvRewrite _ _ => False
  | _ => True
  end.

(** Events of [delete_repository]. *)
Definition delete_events (repo_path token : string) (e : Event) : Prop :=
  match e with
  | EvApi c _ => call_token c = token /\ call_command c = CmdDeleteRepo repo_path
  | EvAppend _ _ | EvRewrite _ _ => False
  | _ => True
  end.

(** Events of [sync_fork_with_upstream]. *)
Definition sync_events (fork_repo token : string) (e : Event) : Prop :=
  match e with
  | EvApi c _ =>
      call_token c = token /\
      match call_command c with
      | CmdDefaultBranch p => p = fork_repo
      | CmdDisableWorkflow p _ => p = fork_repo
      | CmdMergeUpstream p _ => p = fork_repo
      | _ => False
      end
  | EvAppend _ _ | EvRewrite _ _ => False
  | _ => True
  end.

(** Events of [wait_for_fork]. *)
Definition poll_events (fork_repo_path token : string) (e : Event) : Prop :=
  match e with
  | EvApi c _ => c = mkCall (CmdRepoExists fork_repo_path) token (Some 1%N) None
  | EvAppend _ _ | EvRewrite _ _ => False
  | _ => True
  end.

(** Events of [create_new_fork]. *)
Definition create_events (username token source_repo : string) (e : Event) : Prop :=
  match e with
  | EvApi c _ =>
      call_token c = token /\
      match call_command c with
      | CmdCreateFork s => s = source_repo
      | CmdRepoExists _ | CmdDisableWorkflow _ _ => True
      | _ => False
      end
  | EvAppend f line => f = FORKED_REPOS_FILE /\ line = username
  | EvRewrite f _ => f = FORKED_REPOS_FILE
  | _ => True
  end.

(** Events of one round of the fork orchestrator, for the account
    [username] with credential [token]. *)
Definition account_events (username token source_repo repo_name : string) (e : Event) : Prop :=
  match e with
  | EvApi c _ =>
      call_token c = token /\
      match call_command c with
      | CmdParent p | CmdDefaultBranch p | CmdDeleteRepo p | CmdMergeUpstream p _ =>
          p = (username ++ "/" ++ repo_name)%string
      | CmdCreateFork s => s = source_repo
      | CmdRepoExists _ | CmdDisableWorkflow _ _ => True
      | _ => False
      end
  | EvAppend f line => f = FORKED_REPOS_FILE /\ line = username
  | EvRewrite f _ => f = FORKED_REPOS_FILE
  | _ => True
  end.

(** Events of one round of the invite flow. *)
Definition invite_events (config : Config) (repo_path username : string) (e : Event) : Prop :=
  match e with
  | EvApi c _ =>
      c = mkCall (CmdInvite repo_path username) (main_token config) None None
  | EvAppend f line => f = INVITED_USERS_FILE /\ line = username
  | EvRewrite _ _ => False
  | _ => True
  end.

(** Events of one round of the accept flow. *)
Definition accept_events (token username : string) (e : Event) : Prop :=
  match e with
  | EvApi c _ =>
      call_token c = token /\
      match call_command c with
      | CmdListInvitations | CmdAcceptInvitation _ => True
      | _ => False
      end
  | EvAppend f line => f = ACCEPTED_USERS_FILE /\ line = username
  | EvRewrite _ _ => False
  | _ => True
  end.

(** Events that touch neither the remote side nor a checklist. *)
Definition quiet (e : Event) : Prop :=
  is_api e = false /\ is_file_change e = false.

(** ** Vocabulary of the proofs *)

(** Terminal diagnostics: the events of [print_error] and [print_warning]. *)
Definition printed (e : Event) : Prop :=
  match e with EvPrint _ _ => True | _ => False end.

(** Events other than a checklist rewrite. *)
Definition not_rewrite (e : Event) : Prop :=
  match e with EvRewrite _ _ => False | _ => True end.

(** Events that change no checklist. *)
Definition keeps_files (e : Event) : Prop := is_file_change e = false.

(** Events that do not change checklist [f]. *)
Definition spares (f : ChecklistFile) (e : Event) : Prop :=
  match e with
  | EvAppend g _ | EvRewrite g _ => file_eqb f g = false
  | _ => True
  end.

(** Events of [fork_follow_up]: no rewrite, and the only append is the one
    of [username] to the forked checklist. *)
Definition follow_up_events (username : string) (e : Event) : Prop :=
  match e with
  | EvAppend f line => f = FORKED_REPOS_FILE /\ line = username
  | EvRewrite _ _ => False
  | _ => True
  end.

(** An answer to the mode prompt that is neither 1 nor 2. *)
Definition invalid_mode (line : string) : Prop :=
  PyStr.mem (PyStr.strip line) ["1"; "2"]%string = false.

(** The branch [get_default_branch] returns for the result [r] of its call. *)
Definition default_branch_of (r : OperationResult) : string :=
  if success r && negb (String.eqb (PyStr.strip (output r)) "")
  then PyStr.strip_quotes (PyStr.strip (output r))
  else "main".

(** One unsuccessful round of the readiness poll. *)
Definition probe_round (fork_repo_path token : string) (r : OperationResult) : list Event :=
  [EvApi (exists_call fork_repo_path token) r; EvSleep POLL_INTERVAL].

(** What it means for a gateway call to be aimed at the main account:
    an invitation of the main account, a deletion or a sync of the main
    account's own repository, or a fork creation made with a credential
    that the token cache lists for the main account. *)
Definition targets_main (config : Config) (cache : list (string * string))
  (call : ApiCall) : Prop :=
  match call_command call with
  | CmdInvite _ username => username = main_account_username config
  | CmdDeleteRepo p | CmdMergeUpstream p _ =>
      p = (main_account_username config ++ "/" ++ main_repo_name config)%string
  | CmdCreateFork _ => In (call_token call, main_account_username config) cache
  | _ => False
  end.

(** The same, with account and repository names compared as the remote
    side and the code's own comparisons of lines 98, 122 and 154 do: without
    regard to case. *)
Definition aims_at_main (config : Config) (cache : list (string * string))
  (call : ApiCall) : Prop :=
  let main_username := main_account_username config in
  match call_command call with
  | CmdInvite _ username => PyStr.lower username = PyStr.lower main_username
  | CmdDeleteRepo p | CmdMergeUpstream p _ =>
      PyStr.lower p = PyStr.lower (main_username ++ "/" ++ main_repo_name config)
  | CmdCreateFork _ =>
      exists username,
        In (call_token call, username) cache /\
        PyStr.lower username = PyStr.lower main_username
  | _ => False
  end.

(** The acceptance of invitation [inv_id] in [invoke_auto_accept]. *)
Definition accept_call (inv_id : json) (token : string) : ApiCall :=
  mkCall (CmdAcceptInvitation inv_id) token None None.

(** A parentage probe, and the events that are none. *)
Definition is_parent_call (c : ApiCall) : bool :=
  match call_command c with CmdParent _ => true | _ => false end.

Definition not_parent (e : Event) : Prop :=
  match e with EvApi c _ => is_parent_call c = false | _ => True end.

(** A request for the invitation listing. *)
Definition is_list_call (c : ApiCall) : bool :=
  match call_command c with CmdListInvitations => true | _ => false end.

(** The cached accounts that the accepted checklist [accepted_users] holds,
    and those it does not hold. *)
Definition already_accepted (accepted_users : list string) (tu : string * string) : bool :=
  PyStr.mem (snd tu) accepted_users.

Definition still_pending (accepted_users : list string) (tu : string * string) : bool :=
  negb (PyStr.mem (snd tu) accepted_users).

(** The gateway calls of a stretch of trace, in the order they were issued. *)
Definition api_calls (seg : list Event) : list ApiCall :=
  flat_map (fun e => match e with EvApi c _ => [c] | _ => [] end) seg.

(** A sleep event. *)
Definition is_sleep (e : Event) : bool :=
  match e with EvSleep _ => true | _ => false end.

(** Whether a string holds the character on which [split('/')] cuts. *)
Fixpoint has_slash (s : string) : bool :=
  match s with
  | EmptyString => false
  | String c s' => Ascii.eqb c "/"%char || has_slash s'
  end.

(** The repository full name that the condition of the invitation generator
    reads from [inv]; [None] where the condition raises AttributeError. *)
Definition full_name_of (inv : json) : option string :=
  match inv with
  | JObj fields =>
      match match dict_get "repository" fields with Some r => r | None => JObj [] end with
      | JObj repository =>
          match match dict_get "full_name" repository with Some n => n | None => JStr "" end with
          | JStr full_name => Some full_name
          | _ => None
          end
      | _ => None
      end
  | _ => None
  end.

(** An invitation the generator steps over: its condition evaluates, to
    False. *)
Definition skipped_by (target_repo : string) (inv : json) : Prop :=
  exists full_name,
    full_name_of inv = Some full_name /\ PyStr.lower full_name <> target_repo.

(** An invitation for [target_repo] that carries the id [inv_id]. *)
Definition offers (target_repo : string) (inv : json) (inv_id : json) : Prop :=
  exists fields full_name,
    inv = JObj fields /\ full_name_of inv = Some full_name /\
    PyStr.lower full_name = target_repo /\ dict_get "id" fields = Some inv_id.

(** The loop of the dictionary comprehension, from any dictionary [d]. *)
Definition collect (main_username : string) (entries d : list (string * string))
  : list (string * string) :=
  fold_left
    (fun d tu => if negb (String.eqb (snd tu) main_username)
                 then dict_set (snd tu) (fst tu) d else d)
    entries d.

(** No exception at all. *)
Definition never (e : PyExn) : Prop := False.

(** The sums that the final reports compare with their totals. *)
Definition invite_total (c : InviteCounts) : nat := invite_success c + invite_failed c.
Definition fork_total (c : ForkCounts) : nat := success_count c + failed_count c.
Definition accept_total (c : AcceptCounts) : nat :=
  accepted_count c + skipped_count c + no_invite_count c.

Section Vocabulary.

Context {World : Type}.

(** The remote side, as in the program. *)
Variable gateway : World -> N -> ApiCall -> Reply World.

(** [follows P st st' seg]: [st'] is reached from [st] by emitting [seg],
    all of whose events satisfy [P]; the checklists changed as the file
    events of [seg] say, and the remote side only through gateway calls. *)
Record follows (P : Event -> Prop) (st st' : State World) (seg : list Event) : Prop :=
  mkFollows {
    fl_trace : trace st' = trace st ++ seg;
    fl_events : Forall P seg;
    fl_files : forall f, get_file f st' = replay f seg (get_file f st);
    fl_remote : forallb (fun e => negb (is_api e)) seg = true ->
                remote st' = remote st;
    fl_config : config_file st' = config_file st;
    fl_cache : token_cache_file st' = token_cache_file st;
    fl_clock : (clock st <= clock st')%N
  }.

(** [ends strict P m]: [m] ends, and what it did satisfies [follows P];
    when [strict] it ends normally, otherwise possibly by an exception. *)
Definition ends {A} (strict : bool) (P : Event -> Prop) (m : M World A) : Prop :=
  forall st,
    match m st with
    | Normal _ st' => exists seg, follows P st st' seg
    | Raised _ st' => strict = false /\ exists seg, follows P st st' seg
    | Diverged => False
    end.

(** [ends] at one starting state, for flows that first read that state. *)
Definition ends_at {A} (strict : bool) (P : Event -> Prop) (m : M World A)
  (st : State World) : Prop :=
  match m st with
  | Normal _ st' => exists seg, follows P st st' seg
  | Raised _ st' => strict = false /\ exists seg, follows P st st' seg
  | Diverged => False
  end.

(** [preserves R m]: whenever [m] ends, the states before and after are
    related by [R]. *)
Definition preserves_at {A} (R : State World -> State World -> Prop) (m : M World A)
  (st : State World) : Prop :=
  match m st with
  | Normal _ st' | Raised _ st' => R st st'
  | Diverged => True
  end.

Definition preserves {A} (R : State World -> State World -> Prop) (m : M World A) : Prop :=
  forall st, preserves_at R m st.

(** [frame usernames st st']: apart from the entries of [usernames] the
    forked checklist is the same in [st'] as in [st], and the two other
    checklists are the same altogether. *)
Definition frame (usernames : list string) (st st' : State World) : Prop :=
  outside usernames (forked_file st') = outside usernames (forked_file st) /\
  invited_file st' = invited_file st /\
  accepted_file st' = accepted_file st.

(** The result of [call] when issued in [st], and the state after it. *)
Definition reply_to (st : State World) (call : ApiCall) : OperationResult :=
  reply_result (gateway (remote st) (clock st) call).

Definition answered (st : State World) (call : ApiCall) : State World :=
  let rep := gateway (remote st) (clock st) call in
  mkState (reply_world rep) (clock st + reply_elapsed rep)
    (config_file st) (token_cache_file st)
    (invited_file st) (accepted_file st) (forked_file st) (stdin st)
    (trace st ++ [EvApi call (reply_result rep)]).

(** The state after an event that changes nothing else, and after a sleep. *)
Definition emitted (st : State World) (ev : Event) : State World :=
  mkState (remote st) (clock st) (config_file st) (token_cache_file st)
    (invited_file st) (accepted_file st) (forked_file st) (stdin st)
    (trace st ++ [ev]).

Definition slept (st : State World) (n : N) : State World :=
  mkState (remote st) (clock st + n) (config_file st) (token_cache_file st)
    (invited_file st) (accepted_file st) (forked_file st) (stdin st)
    (trace st ++ [EvSleep n]).

(** The state after [FORKED_REPOS_FILE.write_text], and the state in which
    [create_new_fork] issues its creation request: the stale entry of
    [username], if any, is gone. *)
Definition rewritten (st : State World) (new_lines : list string) : State World :=
  mkState (remote st) (clock st) (config_file st) (token_cache_file st)
    (invited_file st) (accepted_file st) new_lines (stdin st)
    (trace st ++ [EvRewrite FORKED_REPOS_FILE new_lines]).

Definition repaired (st : State World) (username : string) : State World :=
  if PyStr.mem username (forked_file st)
  then rewritten st (others username (forked_file st))
  else st.

(** The state in which [create_new_fork] goes on once the creation request
    with state [st1] after it and result [r] counts as accepted: a request
    that failed because the fork exists is reported by a warning first. *)
Definition after_creation_request (st1 : State World) (r : OperationResult) : State World :=
  if success r then st1
  else emitted st1 (EvPrint LvlWarning "    ⚠️  Fork already exists. Skipping creation.").

(** The state after [append_to_file]. *)
Definition appended (st : State World) (f : ChecklistFile) (line : string) : State World :=
  emitted (set_file f (add_line (get_file f st) line) st) (EvAppend f line).

(** The state after [input()] took one line. *)
Definition consumed (st : State World) (rest : list string) : State World :=
  mkState (remote st) (clock st) (config_file st) (token_cache_file st)
    (invited_file st) (accepted_file st) (forked_file st) rest (trace st).

(** What [create_new_fork] does once its creation request counts as
    accepted: lines 229 to 252. *)
Definition fork_follow_up (username token fork_repo_path : string) : M World bool :=
  ready <- wait_for_fork gateway fork_repo_path token ;;
  if negb ready then ret false
  else
    disable_workflow gateway fork_repo_path token "datagram-runner.yml" ;;
    append_to_file FORKED_REPOS_FILE username ;;
    ret true.

(** The token cache as [load_json_file] returns it, empty when missing. *)
Definition cache_of (st : State World) : list (string * string) :=
  match token_cache_file st with Some cache => cache | None => [] end.

(** The accounts the fork orchestrator processes in [st]. *)
Definition processed (st : State World) : list string :=
  match config_file st with
  | Some config => map fst (users_to_process_of (main_account_username config) (cache_of st))
  | None => []
  end.

(** Events of a whole run of the invite flow started with the configuration
    [loaded] and the checklist [invited]: diagnostics, or the events of a
    round for an account that is neither in [invited] nor the main account. *)
Definition invite_flow_events (loaded : option Config) (invited : list string)
  (e : Event) : Prop :=
  quiet e \/
  exists config repo_path username,
    loaded = Some config /\
    ~ In username invited /\ username <> main_account_username config /\
    invite_events config repo_path username e.

(** Events of a whole run of the accept flow over the token cache [cache],
    started with the checklist [accepted]. *)
Definition accept_flow_events (cache : list (string * string)) (accepted : list string)
  (e : Event) : Prop :=
  quiet e \/
  exists token username,
    In (token, username) cache /\ ~ In username accepted /\
    accept_events token username e.

(** Events of a whole run of the fork orchestrator with the configuration
    [loaded] and the token cache [cache]: diagnostics, or the events of a
    round for a cached account other than the main account. *)
Definition orchestrator_events (loaded : option Config) (cache : list (string * string))
  (e : Event) : Prop :=
  quiet e \/
  exists config username token,
    loaded = Some config /\
    In (token, username) cache /\ username <> main_account_username config /\
    account_events username token
      (main_account_username config ++ "/" ++ main_repo_name config)%string
      (main_repo_name config) e.

(** [mends users source_repo m]: [m] ends, the forked checklist changed as
    the file events of its trace say, and its rewrites are repairs only. *)
Definition mends_at {A} (users : list (string * string)) (source_repo : string)
  (m : M World A) (st : State World) : Prop :=
  match m st with
  | Normal _ st' | Raised _ st' =>
      exists seg,
        trace st' = trace st ++ seg /\
        forked_file st' = replay FORKED_REPOS_FILE seg (forked_file st) /\
        repairs_only users source_repo (forked_file st) seg
  | Diverged => False
  end.

Definition mends {A} (users : list (string * string)) (source_repo : string)
  (m : M World A) : Prop :=
  forall st, mends_at users source_repo m st.

(** [yields Q X m]: a value [m] returns satisfies [Q], an exception it
    raises satisfies [X]. *)
Definition yields_at {A} (Q : A -> Prop) (X : PyExn -> Prop) (m : M World A)
  (st : State World) : Prop :=
  match m st with
  | Normal a _ => Q a
  | Raised e _ => X e
  | Diverged => True
  end.

Definition yields {A} (Q : A -> Prop) (X : PyExn -> Prop) (m : M World A) : Prop :=
  forall st, yields_at Q X m st.

End Vocabulary.

(** ** Reasoning rules *)

Section Rules.

Context {World : Type}.
Variable gateway : World -> N -> ApiCall -> Reply World.
Variable json_loads : string -> PyExn + json.

Lemma replay_app f seg1 seg2 lines :
  replay f (seg1 ++ seg2) lines = replay f seg2 (replay f seg1 lines).
Proof.
  revert lines; induction seg1 as [|e seg1 IH]; intros lines; simpl; auto.
  destruct e; auto.
Qed.

Lemma follows_refl P (st : State World) : follows P st st [].
Proof.
  constructor; simpl; auto; try lia.
  now rewrite app_nil_r.
Qed.

Lemma follows_trans P (st1 st2 st3 : State World) seg1 seg2 :
  follows P st1 st2 seg1 -> follows P st2 st3 seg2 -> follows P st1 st3 (seg1 ++ seg2).
Proof.
  intros [T1 E1 F1 R1 C1 K1 L1] [T2 E2 F2 R2 C2 K2 L2]; constructor.
  - rewrite T2, T1; symmetry; apply app_assoc.
  - apply Forall_app; auto.
  - intros f; rewrite F2, F1, replay_app; reflexivity.
  - rewrite forallb_app; intros H; apply andb_true_iff in H as [H1 H2].
    rewrite R2, R1; auto.
  - congruence.
  - congruence.
  - lia.
Qed.

Lemma follows_weaken (P Q : Event -> Prop) (st st' : State World) seg :
  (forall e, P e -> Q e) -> follows P st st' seg -> follows Q st st' seg.
Proof.
  intros HPQ [T E F R C K L]; constructor; auto.
  eapply Forall_impl; eauto.
Qed.

Lemma ends_weaken {A} k (P Q : Event -> Prop) (m : M World A) :
  (forall e, P e -> Q e) -> ends k P m -> ends k Q m.
Proof.
  intros HPQ H st; specialize (H st).
  destruct (m st); auto; [|destruct H as [Hk H]; split; auto];
    destruct H as [seg H]; exists seg; eapply follows_weaken; eauto.
Qed.

Lemma ends_relax {A} k P (m : M World A) : ends true P m -> ends k P m.
Proof.
  intros H st; specialize (H st); destruct (m st); auto.
  destruct H; discriminate.
Qed.

Lemma ends_ret {A} k P (a : A) : ends k P (ret (World := World) a).
Proof. intros st; simpl; exists []; apply follows_refl. Qed.

Lemma ends_raise {A} P e : ends false P (raise (World := World) (A := A) e).
Proof. intros st; simpl; split; auto; exists []; apply follows_refl. Qed.

Lemma ends_bind {A B} k P (m : M World A) (f : A -> M World B) :
  ends k P m -> (forall a, ends k P (f a)) -> ends k P (bind m f).
Proof.
  intros Hm Hf st; unfold bind; specialize (Hm st).
  destruct (m st) as [a st1|e st1|]; auto.
  destruct Hm as [seg1 H1]; specialize (Hf a st1).
  destruct (f a st1) as [b st2|e st2|]; auto; [|destruct Hf as [Hk Hf]; split; auto];
    destruct Hf as [seg2 H2]; exists (seg1 ++ seg2); eapply follows_trans; eauto.
Qed.

Lemma ends_try_except {A} P (body handler : M World A) caught :
  ends false P body -> ends false P handler -> ends false P (try_except body caught handler).
Proof.
  intros Hb Hh st; unfold try_except; specialize (Hb st).
  destruct (body st) as [a st1|e st1|]; auto.
  destruct (caught e); auto.
  destruct Hb as [_ [seg1 H1]]; specialize (Hh st1).
  destruct (handler st1) as [b st2|e2 st2|]; auto; [|destruct Hh as [Hk Hh]; split; auto];
    destruct Hh as [seg2 H2]; exists (seg1 ++ seg2); eapply follows_trans; eauto.
Qed.

Lemma ends_for_each {A S} k P (body : A -> S -> M World S) xs :
  (forall x s, In x xs -> ends k P (body x s)) ->
  forall s, ends k P (for_each body xs s).
Proof.
  induction xs as [|x xs IH]; intros Hb s; simpl.
  - apply ends_ret.
  - apply ends_bind; [apply Hb; left; reflexivity|].
    intros s'; apply IH; intros; apply Hb; right; assumption.
Qed.

Lemma ends_emit k P ev :
  P ev -> is_file_change ev = false -> is_api ev = false ->
  ends k P (emit (World := World) ev).
Proof.
  intros HP Hf Ha st; simpl; exists [ev]; constructor; simpl; auto; try lia.
  intros f; destruct ev; simpl in *; try discriminate; destruct f; reflexivity.
Qed.

Lemma ends_print_error k P msg :
  P (EvPrint LvlError msg) -> ends k P (print_error (World := World) msg).
Proof. intros; apply ends_emit; auto. Qed.

Lemma ends_print_warning k P msg :
  P (EvPrint LvlWarning msg) -> ends k P (print_warning (World := World) msg).
Proof. intros; apply ends_emit; auto. Qed.

Lemma ends_write_log k P msg : P (EvLog msg) -> ends k P (write_log (World := World) msg).
Proof. intros; apply ends_emit; auto. Qed.

Lemma ends_sleep k P n : P (EvSleep n) -> ends k P (sleep (World := World) n).
Proof.
  intros HP st; simpl; exists [EvSleep n]; constructor; simpl; auto; lia.
Qed.

Lemma ends_run_gh_api k P command token max_retries timeout :
  (forall r, P (EvApi (mkCall command token max_retries timeout) r)) ->
  ends k P (run_gh_api gateway command token max_retries timeout).
Proof.
  intros HP st; simpl.
  eexists [_]; constructor; simpl; auto; try lia; discriminate.
Qed.

Lemma ends_append_to_file k P f line :
  P (EvAppend f line) -> ends k P (append_to_file (World := World) f line).
Proof.
  intros HP st; exists [EvAppend f line]; constructor;
    try (destruct f; simpl; auto; lia).
  intros g; destruct f, g; reflexivity.
Qed.

Lemma ends_write_lines k P f lines :
  P (EvRewrite f lines) -> ends k P (write_lines (World := World) f lines).
Proof.
  intros HP st; exists [EvRewrite f lines]; constructor;
    try (destruct f; simpl; auto; lia).
  intros g; destruct f, g; reflexivity.
Qed.

Lemma ends_pure {A} k P (f : State World -> A) :
  ends k P (fun st => Normal (f st) st).
Proof. intros st; exists []; apply follows_refl. Qed.

Lemma ends_input P : ends false P (input (World := World)).
Proof.
  intros st; unfold input; destruct (stdin st) as [|line rest] eqn:E.
  - split; auto; exists []; apply follows_refl.
  - exists []; constructor; simpl; auto; try lia.
    now rewrite app_nil_r.
Qed.

Lemma ends_index_error P r : ends false P (index_error (World := World) r).
Proof.
  unfold index_error; destruct (error r); [apply ends_ret | apply ends_raise].
Qed.

End Rules.

Ltac ends_step :=
  match goal with
  | |- ends _ _ (bind _ _) => apply ends_bind; [ | intro ]
  | |- ends _ _ (ret _) => apply ends_ret
  | |- ends _ _ (raise _) => apply ends_raise
  | |- ends _ _ (run_gh_api _ _ _ _ _) => apply ends_run_gh_api; intros
  | |- ends _ _ (sleep _) => apply ends_sleep
  | |- ends _ _ (print_error _) => apply ends_print_error
  | |- ends _ _ (print_warning _) => apply ends_print_warning
  | |- ends _ _ (write_log _) => apply ends_write_log
  | |- ends _ _ (append_to_file _ _) => apply ends_append_to_file
  | |- ends _ _ (write_lines _ _) => apply ends_write_lines
  | |- ends _ _ (read_file_lines _) => apply ends_pure
  | |- ends _ _ time_now => apply ends_pure
  | |- ends _ _ load_config => apply ends_pure
  | |- ends _ _ load_token_cache => apply ends_pure
  | |- ends _ _ input => apply ends_input
  | |- ends _ _ (index_error _) => apply ends_index_error
  | |- ends _ _ (disable_workflow _ _ _ _) => unfold disable_workflow
  | |- ends _ _ (if ?b then _ else _) => destruct b eqn:?
  | |- ends _ _ (match ?x with _ => _ end) => destruct x eqn:?
  end.

Ltac ends_tac := repeat ends_step; simpl; auto.

Section Footprints.

Context {World : Type}.
Variable gateway : World -> N -> ApiCall -> Reply World.
Variable json_loads : string -> PyExn + json.

Lemma ends_check_if_correct_fork k repo_path token expected_parent :
  ends k (check_events repo_path token)
    (check_if_correct_fork gateway repo_path token expected_parent).
Proof. unfold check_if_correct_fork; ends_tac. Qed.

Lemma ends_delete_repository k repo_path token :
  ends k (delete_events repo_path token) (delete_repository gateway repo_path token).
Proof. unfold delete_repository; ends_tac. Qed.

Lemma ends_sync_fork_with_upstream k fork_repo token :
  ends k (sync_events fork_repo token) (sync_fork_with_upstream gateway fork_repo token).
Proof. unfold sync_fork_with_upstream, get_default_branch; ends_tac. Qed.

(** The readiness poll ends once its fuel covers the time that is left. *)
Lemma poll_fork_ends (P : Event -> Prop) fork_repo_path token start_time :
  (forall e, poll_events fork_repo_path token e -> P e) ->
  forall fuel (st : State World),
    (start_time <= clock st)%N ->
    (POLL_TIMEOUT <= (clock st - start_time) + POLL_INTERVAL * N.of_nat fuel)%N ->
    exists b st' seg,
      poll_fork gateway fuel fork_repo_path token start_time st = Normal b st' /\
      follows P st st' seg.
Proof.
  intros HP.
  induction fuel as [|fuel IH]; intros st Hle Hfuel.
  - cbn [poll_fork]; unfold bind, time_now.
    destruct (N.ltb_spec (clock st - start_time) POLL_TIMEOUT);
      [unfold POLL_TIMEOUT, POLL_INTERVAL in *; lia|].
    exists false, st, []; split; auto using follows_refl.
  - cbn [poll_fork]; unfold bind at 1; unfold time_now at 1.
    destruct (N.ltb_spec (clock st - start_time) POLL_TIMEOUT) as [Hlt|Hge];
      [|exists false, st, []; split; auto using follows_refl].
    unfold bind at 1.
    pose proof (ends_run_gh_api gateway true P (CmdRepoExists fork_repo_path) token
                  (Some 1%N) None) as Hcall.
    specialize (Hcall (fun r => HP (EvApi (mkCall (CmdRepoExists fork_repo_path) token
                                             (Some 1%N) None) r) eq_refl) st).
    destruct (run_gh_api gateway (CmdRepoExists fork_repo_path) token (Some 1%N) None st)
      as [r st1|e st1|] eqn:Ecall; try contradiction; [|destruct Hcall; discriminate].
    destruct Hcall as [seg1 H1].
    destruct (success r); [exists true, st1, seg1; split; auto|].
    unfold bind at 1.
    pose proof (ends_sleep true P POLL_INTERVAL (HP (EvSleep POLL_INTERVAL) I) st1) as Hs.
    destruct (sleep POLL_INTERVAL st1) as [[] st2|e st2|] eqn:Esleep;
      try contradiction; [|destruct Hs; discriminate].
    destruct Hs as [seg2 H2].
    assert (Hc2 : clock st2 = (clock st1 + POLL_INTERVAL)%N)
      by (unfold sleep in Esleep; injection Esleep as <-; reflexivity).
    pose proof (fl_clock _ _ _ _ H1) as Hc1.
    destruct (IH st2 ltac:(lia) ltac:(unfold POLL_TIMEOUT, POLL_INTERVAL in *; lia))
      as (b & st3 & seg3 & E3 & H3).
    exists b, st3, (seg1 ++ seg2 ++ seg3); split; auto.
    eapply follows_trans; eauto; eapply follows_trans; eauto.
Qed.

Lemma ends_wait_for_fork k fork_repo_path token :
  ends k (poll_events fork_repo_path token) (wait_for_fork gateway fork_repo_path token).
Proof.
  apply ends_relax.
  unfold wait_for_fork; intros st; unfold bind at 1, time_now at 1.
  destruct (poll_fork_ends (poll_events fork_repo_path token) fork_repo_path token
              (clock st) (fun e H => H) poll_fuel st ltac:(lia)
              ltac:(unfold POLL_TIMEOUT, POLL_INTERVAL, poll_fuel; lia))
    as (b & st1 & seg1 & E1 & H1).
  unfold bind at 1; rewrite E1.
  assert (Hrest : ends true (poll_events fork_repo_path token)
            (if negb b
             then print_error (World := World) "    ❌ Timeout: Fork was not ready in time." ;; ret false
             else ret true)) by ends_tac.
  specialize (Hrest st1).
  match goal with |- match ?o with _ => _ end => destruct o end; try contradiction;
    [|destruct Hrest; discriminate].
  destruct Hrest as [seg2 H2]; exists (seg1 ++ seg2); eapply follows_trans; eauto.
Qed.

Lemma poll_events_create username token source_repo name e :
  poll_events (username ++ "/" ++ name)%string token e ->
  create_events username token source_repo e.
Proof. destruct e; simpl; auto; try contradiction; intros ->; simpl; auto. Qed.

Lemma split_slash_nonempty s : PyStr.split_slash s <> [].
Proof.
  destruct s as [|c s]; simpl; [discriminate|].
  destruct (Ascii.eqb c "/"); [discriminate|].
  destruct (PyStr.split_slash s); discriminate.
Qed.

(** [source_repo.split('/')[1]] exists when the path was built with a slash. *)
Lemma split_slash_second (owner name : string) :
  exists second,
    nth_error (PyStr.split_slash (owner ++ "/" ++ name)%string) 1 = Some second.
Proof.
  change (owner ++ "/" ++ name)%string with (owner ++ String "/" name)%string.
  induction owner as [|c owner IH]; simpl.
  - pose proof (split_slash_nonempty name).
    destruct (PyStr.split_slash name) as [|h t]; [contradiction|]; exists h; reflexivity.
  - pose proof (split_slash_nonempty (owner ++ String "/" name)%string).
    destruct IH as [second IH].
    destruct (PyStr.split_slash (owner ++ String "/" name)%string) as [|h t];
      [contradiction|].
    destruct (Ascii.eqb c "/"); [exists h; reflexivity | exists second; exact IH].
Qed.

Lemma ends_create_new_fork k username token owner name :
  ends k (create_events username token (owner ++ "/" ++ name)%string)
    (create_new_fork gateway username token (owner ++ "/" ++ name)%string).
Proof.
  unfold create_new_fork.
  destruct (split_slash_second owner name) as [second ->].
  repeat (ends_step; simpl; auto).
  eapply ends_weaken; [apply poll_events_create | apply ends_wait_for_fork].
Qed.

End Footprints.

(** ** Properties of the flows *)

Section Claims.

Context {World : Type}.
Variable gateway : World -> N -> ApiCall -> Reply World.
Variable json_loads : string -> PyExn + json.

Lemma run_gh_api_eq command token max_retries timeout (st : State World) :
  run_gh_api gateway command token max_retries timeout st =
  Normal (reply_to gateway st (mkCall command token max_retries timeout))
         (answered gateway st (mkCall command token max_retries timeout)).
Proof. reflexivity. Qed.

Lemma create_events_not_delete u t s e : create_events u t s e -> is_delete_call e = false.
Proof.
  destruct e as [c r| | | | |]; simpl; auto.
  unfold is_delete_call; simpl; destruct (call_command c); auto; intros [_ []].
Qed.

Lemma create_events_not_merge u t s e : create_events u t s e -> is_merge_call e = false.
Proof.
  destruct e as [c r| | | | |]; simpl; auto.
  unfold is_merge_call; simpl; destruct (call_command c); auto; intros [_ []].
Qed.

Lemma sync_events_not_create p t e : sync_events p t e -> is_create_call e = false.
Proof.
  destruct e as [c r| | | | |]; simpl; auto.
  unfold is_create_call; simpl; destruct (call_command c); auto; intros [_ []].
Qed.

Lemma ends_normal {A} P (m : M World A) :
  ends true P m ->
  forall st, exists a st' seg, m st = Normal a st' /\ follows P st st' seg.
Proof.
  intros H st; specialize (H st); destruct (m st) as [a st'|e st'|].
  - destruct H as [seg H]; eauto.
  - destruct H; discriminate.
  - contradiction.
Qed.

Lemma check_if_correct_fork_eq repo_path token expected_parent (st : State World) :
  check_if_correct_fork gateway repo_path token expected_parent st =
  Normal (parent_matches (reply_to gateway st (parent_call repo_path token)) expected_parent)
         (answered gateway st (parent_call repo_path token)).
Proof.
  unfold check_if_correct_fork, bind; rewrite run_gh_api_eq.
  unfold parent_matches, parent_call.
  destruct (success (reply_to gateway st _)); reflexivity.
Qed.

Lemma delete_repository_eq repo_path token (st : State World) :
  let st1 := emitted st (EvPrint LvlWarning ("    🗑️  Deleting repository: " ++ repo_path)) in
  let r := reply_to gateway st1 (delete_call repo_path token) in
  let st2 := answered gateway st1 (delete_call repo_path token) in
  delete_repository gateway repo_path token st =
  Normal (success r)
    (if success r then slept st2 5
     else emitted
            (emitted st2 (EvLog ("Failed to delete " ++ repo_path ++ ": " ++ show_error r)))
            (EvPrint LvlError ("    ❌ Failed to delete " ++ repo_path))).
Proof.
  intros st1 r st2.
  unfold delete_repository, bind, print_warning, emit.
  fold (emitted st (EvPrint LvlWarning ("    🗑️  Deleting repository: " ++ repo_path))).
  fold st1; rewrite run_gh_api_eq; fold (delete_call repo_path token); fold r st2.
  destruct (success r); reflexivity.
Qed.

Lemma create_new_fork_eq username token source_repo name (st : State World) :
  nth_error (PyStr.split_slash source_repo) 1 = Some name ->
  let st0 := repaired st username in
  let r := reply_to gateway st0 (create_call source_repo token) in
  let st1 := answered gateway st0 (create_call source_repo token) in
  create_new_fork gateway username token source_repo st =
  if success r || fork_error_converges (PyStr.lower (get_error r))
  then fork_follow_up gateway username token (username ++ "/" ++ name)%string
         (after_creation_request st1 r)
  else Normal false
         (emitted
            (emitted st1 (EvPrint LvlError ("    ❌ Fork creation failed: " ++ show_error r)))
            (EvLog ("Fork failed for @" ++ username ++ ": " ++ show_error r))).
Proof.
  intros Hname st0 r st1.
  unfold create_new_fork; rewrite Hname.
  unfold bind at 1; unfold read_file_lines at 1; cbn [get_file].
  unfold bind at 1.
  assert (Hrep :
    (if PyStr.mem username (forked_file st)
     then lines <- read_file_lines FORKED_REPOS_FILE ;;
          write_lines FORKED_REPOS_FILE
            (filter (fun line => negb (String.eqb line username)) lines)
     else ret tt) st = Normal tt st0).
  { subst st0; unfold repaired.
    destruct (PyStr.mem username (forked_file st)); reflexivity. }
  rewrite Hrep.
  unfold bind at 1; rewrite run_gh_api_eq; fold (create_call source_repo token); fold r st1.
  unfold bind at 1, after_creation_request.
  destruct (success r); cbn [negb orb].
  - reflexivity.
  - destruct (fork_error_converges (PyStr.lower (get_error r))); reflexivity.
Qed.

Lemma create_events_quiet u t s e : quiet e -> create_events u t s e.
Proof. destruct e; simpl; auto; intros [H1 H2]; discriminate. Qed.

Lemma follows_after_creation_request (P : Event -> Prop) (st1 : State World) r :
  (forall e, quiet e -> P e) ->
  exists seg, follows P st1 (after_creation_request st1 r) seg /\ Forall quiet seg.
Proof.
  intros HP; unfold after_creation_request; destruct (success r).
  - exists []; split; [apply follows_refl | constructor].
  - eexists [_]; split.
    + constructor; simpl; auto; try lia; apply Forall_cons; [|constructor].
      apply HP; split; reflexivity.
    + repeat constructor.
Qed.

Lemma ends_fork_follow_up username token source_repo name :
  ends true (create_events username token source_repo)
    (fork_follow_up gateway username token (username ++ "/" ++ name)%string).
Proof.
  unfold fork_follow_up.
  repeat (ends_step; simpl; auto).
  eapply ends_weaken; [apply poll_events_create | apply ends_wait_for_fork].
Qed.

Lemma trace_repaired (st : State World) username :
  trace (repaired st username) =
  trace st ++ (if PyStr.mem username (forked_file st)
               then [EvRewrite FORKED_REPOS_FILE (others username (forked_file st))]
               else []).
Proof.
  unfold repaired; destruct (PyStr.mem username (forked_file st)); simpl; auto.
  now rewrite app_nil_r.
Qed.

(** What [m] does from the state after an accepted creation request, the
    warning included. *)
Lemma ends_after_creation_request {A} (P : Event -> Prop) (m : M World A)
  (st1 : State World) r :
  (forall e, quiet e -> P e) ->
  ends true P m ->
  exists a st2 seg,
    m (after_creation_request st1 r) = Normal a st2 /\ follows P st1 st2 seg.
Proof.
  intros HP Hm.
  destruct (follows_after_creation_request P st1 r HP) as (seg1 & H1 & _).
  destruct (ends_normal _ _ Hm (after_creation_request st1 r)) as (a & st2 & seg2 & E & H2).
  exists a, st2, (seg1 ++ seg2); split; [exact E|].
  eapply follows_trans; eauto.
Qed.

(** A run of [create_new_fork]: the repair, the creation request, the rest. *)
Lemma create_new_fork_run username token owner name (st : State World) :
  let source_repo := (owner ++ "/" ++ name)%string in
  let r := reply_to gateway (repaired st username) (create_call source_repo token) in
  exists b st' post,
    create_new_fork gateway username token source_repo st = Normal b st' /\
    trace st' = trace (repaired st username)
                ++ EvApi (create_call source_repo token) r :: post /\
    Forall (create_events username token source_repo) post.
Proof.
  intros source_repo r.
  destruct (split_slash_second owner name) as [second Hsecond].
  fold source_repo in Hsecond.
  rewrite (create_new_fork_eq _ _ _ _ st Hsecond); cbv zeta; fold r.
  set (st1 := answered gateway (repaired st username) (create_call source_repo token)).
  destruct (success r || fork_error_converges (PyStr.lower (get_error r))).
  - destruct (ends_after_creation_request _ _ st1 r (create_events_quiet _ _ _)
                (ends_fork_follow_up username token source_repo second))
      as (b & st2 & seg & E & H).
    exists b, st2, seg; split; [exact E|]; split; [|exact (fl_events _ _ _ _ H)].
    rewrite (fl_trace _ _ _ _ H); subst st1; cbn [trace answered].
    rewrite <- app_assoc; reflexivity.
  - eexists false, _, _; split; [reflexivity|]; split.
    + subst st1; cbn [trace emitted answered]; rewrite <- !app_assoc; reflexivity.
    + repeat constructor.
Qed.

Lemma sync_fork_with_upstream_eq fork_repo token (st : State World) :
  let branch := default_branch_of (reply_to gateway st (branch_call fork_repo token)) in
  let st1 := answered gateway st (branch_call fork_repo token) in
  let st2 := answered gateway st1 (disable_call fork_repo token) in
  let r := reply_to gateway st2 (merge_call fork_repo branch token) in
  let st3 := answered gateway st2 (merge_call fork_repo branch token) in
  sync_fork_with_upstream gateway fork_repo token st =
  if success r || sync_error_converges (PyStr.lower (get_error r))
  then Normal true st3
  else Normal false
         (emitted st3 (EvPrint LvlWarning ("    ⚠️  Sync failed: " ++ show_error r))).
Proof.
  intros branch st1 st2 r st3.
  unfold sync_fork_with_upstream, get_default_branch.
  unfold bind at 1; unfold bind at 1; rewrite run_gh_api_eq.
  fold (branch_call fork_repo token); fold st1.
  assert (Hb : (if success (reply_to gateway st (branch_call fork_repo token)) &&
                   negb (String.eqb (PyStr.strip (output (reply_to gateway st (branch_call fork_repo token)))) "")
                then ret (PyStr.strip_quotes
                            (PyStr.strip (output (reply_to gateway st (branch_call fork_repo token)))))
                else ret "main"%string) st1 = Normal branch st1).
  { subst branch; unfold default_branch_of.
    destruct (success _ && negb _); reflexivity. }
  rewrite Hb.
  unfold disable_workflow; unfold bind at 1; unfold bind at 1; rewrite run_gh_api_eq.
  fold (disable_call fork_repo token); fold st2.
  unfold ret at 1.
  unfold bind at 1; rewrite run_gh_api_eq.
  fold (merge_call fork_repo branch token); fold r st3.
  destruct (success r); cbn [orb]; [reflexivity|].
  destruct (sync_error_converges (PyStr.lower (get_error r))); reflexivity.
Qed.

(** One round in destructive mode, spelled out. *)
Lemma process_account_destructive (st : State World) main repo username token c :
  let source_repo := (main ++ "/" ++ repo)%string in
  let fork_repo_path := (username ++ "/" ++ repo)%string in
  exists c' st' r_parent r_exists rest,
    process_account gateway "2" source_repo repo (username, token) c st = Normal c' st' /\
    trace st' = trace st ++ EvApi (parent_call fork_repo_path token) r_parent
                         :: EvApi (exists_call fork_repo_path token) r_exists :: rest /\
    (if success r_exists
     then exists r_delete after,
         rest = EvPrint LvlWarning ("    🗑️  Deleting repository: " ++ fork_repo_path)
                  :: EvApi (delete_call fork_repo_path token) r_delete :: after /\
         Forall (fun e => is_delete_call e = false) after /\
         (success r_delete = false ->
          Forall (fun e => is_api e = false) after /\
          c' = mkForkCounts (success_count c) (S (failed_count c)))
     else Forall (fun e => is_delete_call e = false) rest).
Proof.
  intros source_repo fork_repo_path.
  unfold process_account; cbn [fst snd]; fold source_repo fork_repo_path.
  change (String.eqb "2" "2") with true; cbv iota.
  unfold bind at 1; rewrite check_if_correct_fork_eq.
  set (r1 := reply_to gateway st (parent_call fork_repo_path token)).
  set (st1 := answered gateway st (parent_call fork_repo_path token)).
  unfold bind at 1; rewrite run_gh_api_eq; fold (exists_call fork_repo_path token).
  set (r2 := reply_to gateway st1 (exists_call fork_repo_path token)).
  set (st2 := answered gateway st1 (exists_call fork_repo_path token)).
  assert (T2 : trace st2 = trace st ++ [EvApi (parent_call fork_repo_path token) r1;
                                        EvApi (exists_call fork_repo_path token) r2]).
  { subst st2 st1; cbn [trace answered]; rewrite <- app_assoc; reflexivity. }
  destruct (success r2) eqn:E2.
  - unfold bind at 1; rewrite delete_repository_eq; cbv zeta.
    set (st3 := emitted st2 _).
    set (r3 := reply_to gateway st3 (delete_call fork_repo_path token)).
    set (st4 := answered gateway st3 (delete_call fork_repo_path token)).
    assert (T4 : trace st4 = trace st ++
               EvApi (parent_call fork_repo_path token) r1
               :: EvApi (exists_call fork_repo_path token) r2
               :: [EvPrint LvlWarning ("    🗑️  Deleting repository: " ++ fork_repo_path);
                   EvApi (delete_call fork_repo_path token) r3]).
    { subst st4 st3; cbn [trace answered emitted]; rewrite T2, <- !app_assoc; reflexivity. }
    destruct (success r3) eqn:E3; cbn [negb].
    + destruct (ends_normal _ _ (ends_create_new_fork gateway true username token main repo)
                  (slept st4 5)) as (b & st5 & seg & Ec & Hc).
      fold source_repo in Ec, Hc.
      unfold bind at 1; rewrite Ec; unfold bind, sleep, ret.
      eexists _, _, r1, r2, _; split; [reflexivity|]; split.
      * cbn [trace]; rewrite (fl_trace _ _ _ _ Hc); cbn [trace slept]; rewrite T4.
        rewrite <- !app_assoc; cbn [app]; reflexivity.
      * rewrite E2; eexists r3, _; split; [reflexivity|]; split.
        -- constructor; [reflexivity|]. apply Forall_app; split; [|repeat constructor].
           eapply Forall_impl; [|exact (fl_events _ _ _ _ Hc)].
           intros e; apply create_events_not_delete.
        -- rewrite E3; discriminate.
    + unfold ret.
      eexists _, _, r1, r2, _; split; [reflexivity|]; split.
      * cbn [trace emitted]; rewrite T4, <- !app_assoc; cbn [app]; reflexivity.
      * rewrite E2; eexists r3, _; split; [reflexivity|]; split.
        -- repeat constructor.
        -- intros _; split; [repeat constructor | reflexivity].
  - unfold bind at 1; unfold ret at 1; cbn [negb].
    destruct (ends_normal _ _ (ends_create_new_fork gateway true username token main repo)
                st2) as (b & st5 & seg & Ec & Hc).
    fold source_repo in Ec, Hc.
    unfold bind at 1; rewrite Ec; unfold bind, sleep, ret.
    eexists _, _, r1, r2, _; split; [reflexivity|]; split.
    + cbn [trace]; rewrite (fl_trace _ _ _ _ Hc), T2.
      rewrite <- !app_assoc; cbn [app]; reflexivity.
    + rewrite E2. apply Forall_app; split; [|repeat constructor].
      eapply Forall_impl; [|exact (fl_events _ _ _ _ Hc)].
      intros e; apply create_events_not_delete.
Qed.

(** C1. Destructive mode, one account: after the parentage and existence
    probes, a repository found at the fork path is deleted by the first
    gateway call that follows; that call has returned before anything else
    is issued, no other deletion follows it, and when it fails the round
    issues no further gateway call at all (so no fork creation), counts the
    account as failed, and the loop goes on with the next account. When no
    repository is found the round deletes nothing. *)
Theorem destructive_deletion_precedes_creation :
  forall (st : State World) (main repo username token : string) (c : ForkCounts)
         (items : list (string * string)),
    let source_repo := (main ++ "/" ++ repo)%string in
    let fork_repo_path := (username ++ "/" ++ repo)%string in
    exists c' st' r_parent r_exists rest,
      process_account gateway "2" source_repo repo (username, token) c st = Normal c' st' /\
      trace st' = trace st ++ EvApi (parent_call fork_repo_path token) r_parent
                           :: EvApi (exists_call fork_repo_path token) r_exists :: rest /\
      (if success r_exists
       then exists r_delete after,
           rest = EvPrint LvlWarning ("    🗑️  Deleting repository: " ++ fork_repo_path)
                    :: EvApi (delete_call fork_repo_path token) r_delete :: after /\
           Forall (fun e => is_delete_call e = false) after /\
           (success r_delete = false ->
            Forall (fun e => is_api e = false) after /\
            c' = mkForkCounts (success_count c) (S (failed_count c)))
       else Forall (fun e => is_delete_call e = false) rest) /\
      for_each (process_account gateway "2" source_repo repo) ((username, token) :: items) c st =
      for_each (process_account gateway "2" source_repo repo) items c' st'.
Proof.
  intros st main repo username token c items source_repo fork_repo_path.
  destruct (process_account_destructive st main repo username token c)
    as (c' & st' & r1 & r2 & rest & Hrun & Htrace & Hcases).
  subst source_repo fork_repo_path.
  exists c', st', r1, r2, rest; repeat split; auto.
  cbn [for_each]; unfold bind at 1; rewrite Hrun; reflexivity.
Qed.

(** C4. Sync & Keep, one account: when the parentage probe succeeds and
    names the expected upstream (compared without case), the round takes
    the sync path: it issues the merge-from-upstream call and no
    fork-creation call. Otherwise it takes the create path: it issues the
    fork-creation call and no merge-from-upstream call at all. *)
Theorem sync_and_keep_entry_decision :
  forall (st : State World) (main repo username token : string) (c : ForkCounts),
    let source_repo := (main ++ "/" ++ repo)%string in
    let fork_repo_path := (username ++ "/" ++ repo)%string in
    let r_parent := reply_to gateway st (parent_call fork_repo_path token) in
    exists c' st' rest,
      process_account gateway "1" source_repo repo (username, token) c st = Normal c' st' /\
      trace st' = trace st ++ EvApi (parent_call fork_repo_path token) r_parent :: rest /\
      if parent_matches r_parent source_repo
      then Forall (fun e => is_create_call e = false) rest /\
           exists branch r, In (EvApi (merge_call fork_repo_path branch token) r) rest
      else Forall (fun e => is_merge_call e = false) rest /\
           exists r, In (EvApi (create_call source_repo token) r) rest.
Proof.
  intros st main repo username token c source_repo fork_repo_path r_parent.
  unfold process_account; cbn [fst snd]; fold source_repo fork_repo_path.
  change (String.eqb "1" "2") with false; change (String.eqb "1" "1") with true; cbv iota.
  unfold bind at 1; rewrite check_if_correct_fork_eq; fold r_parent.
  set (st1 := answered gateway st (parent_call fork_repo_path token)).
  assert (T1 : trace st1 = trace st ++ [EvApi (parent_call fork_repo_path token) r_parent])
    by reflexivity.
  destruct (parent_matches r_parent source_repo).
  - unfold bind at 1; rewrite sync_fork_with_upstream_eq; cbv zeta.
    set (branch := default_branch_of _).
    set (st2 := answered gateway st1 (branch_call fork_repo_path token)).
    set (st3 := answered gateway st2 (disable_call fork_repo_path token)).
    set (r := reply_to gateway st3 (merge_call fork_repo_path branch token)).
    set (st4 := answered gateway st3 (merge_call fork_repo_path branch token)).
    assert (T4 : trace st4 = trace st ++ EvApi (parent_call fork_repo_path token) r_parent
                 :: [EvApi (branch_call fork_repo_path token)
                       (reply_to gateway st1 (branch_call fork_repo_path token));
                     EvApi (disable_call fork_repo_path token)
                       (reply_to gateway st2 (disable_call fork_repo_path token));
                     EvApi (merge_call fork_repo_path branch token) r]).
    { subst st4 st3 st2; cbn [trace answered]; rewrite T1, <- !app_assoc; reflexivity. }
    destruct (success r || sync_error_converges (PyStr.lower (get_error r)));
      unfold bind, sleep, ret;
      eexists _, _, _; (split; [reflexivity|]); cbn [trace emitted]; rewrite T4;
      (split; [rewrite <- !app_assoc; cbn [app]; reflexivity|]);
      (split; [repeat constructor | exists branch, r; simpl; auto 6]).
  - unfold bind at 1, print_warning at 1, emit at 1.
    fold (emitted st1 (EvPrint LvlWarning "   ⚠️  Fork tidak valid atau tidak ditemukan.")).
    set (st1w := emitted st1 _).
    destruct (create_new_fork_run username token main repo st1w)
      as (b & st2 & post & Ec & Tc & Fc).
    fold source_repo in Ec, Tc, Fc.
    unfold bind at 1; rewrite Ec; unfold bind, sleep, ret.
    eexists _, _, _; split; [reflexivity|]; cbn [trace].
    rewrite Tc, trace_repaired; subst st1w; cbn [trace emitted forked_file]; rewrite T1; split.
    + rewrite <- !app_assoc; cbn [app]; reflexivity.
    + split.
      * constructor; [reflexivity|].
        apply Forall_app; split.
        { destruct (PyStr.mem username (forked_file st1)); repeat constructor. }
        constructor; [reflexivity|].
        apply Forall_app; split; [|repeat constructor].
        eapply Forall_impl; [|exact Fc]. intros e; apply create_events_not_merge.
      * eexists; right; apply in_or_app; right; left; reflexivity.
Qed.

Lemma poll_fork_run fork_repo_path token start_time d :
  (forall w now call, (reply_elapsed (gateway w now call) <= d)%N) ->
  forall fuel (st : State World),
    (start_time <= clock st)%N ->
    (POLL_TIMEOUT <= (clock st - start_time) + POLL_INTERVAL * N.of_nat fuel)%N ->
    exists b st' failed_probes tail,
      poll_fork gateway fuel fork_repo_path token start_time st = Normal b st' /\
      trace st' = trace st ++ flat_map (probe_round fork_repo_path token) failed_probes ++ tail /\
      Forall (fun r => success r = false) failed_probes /\
      (if b then exists r, success r = true /\ tail = [EvApi (exists_call fork_repo_path token) r]
       else tail = [] /\ (POLL_TIMEOUT <= clock st' - start_time)%N) /\
      (clock st <= clock st')%N /\
      (clock st' <= N.max (clock st) (start_time + POLL_TIMEOUT + d + POLL_INTERVAL - 1))%N /\
      (d = 0%N -> ((clock st - start_time) mod POLL_INTERVAL = 0)%N ->
       (clock st' <= N.max (clock st) (start_time + POLL_TIMEOUT))%N).
Proof.
  intros Hd.
  induction fuel as [|fuel IH]; intros st Hle Hfuel.
  - cbn [poll_fork]; unfold bind, time_now.
    destruct (N.ltb_spec (clock st - start_time) POLL_TIMEOUT);
      [unfold POLL_TIMEOUT, POLL_INTERVAL in *; lia|].
    exists false, st, [], []; simpl; rewrite app_nil_r.
    repeat split; auto; lia.
  - cbn [poll_fork]; unfold bind at 1; unfold time_now at 1.
    destruct (N.ltb_spec (clock st - start_time) POLL_TIMEOUT) as [Hlt|Hge].
    2:{ exists false, st, [], []; simpl; rewrite app_nil_r.
        repeat split; auto; lia. }
    unfold bind at 1; rewrite run_gh_api_eq; fold (exists_call fork_repo_path token).
    set (r := reply_to gateway st (exists_call fork_repo_path token)).
    set (st1 := answered gateway st (exists_call fork_repo_path token)).
    assert (Hc1 : clock st1 = (clock st + reply_elapsed
                    (gateway (remote st) (clock st) (exists_call fork_repo_path token)))%N)
      by reflexivity.
    pose proof (Hd (remote st) (clock st) (exists_call fork_repo_path token)) as Hd1.
    destruct (success r) eqn:Er.
    + exists true, st1, [], [EvApi (exists_call fork_repo_path token) r].
      unfold POLL_TIMEOUT, POLL_INTERVAL in *.
      repeat split; eauto; try lia.
    + unfold bind at 1; unfold sleep at 1.
      fold (slept st1 POLL_INTERVAL).
      set (st2 := slept st1 POLL_INTERVAL).
      assert (Hc2 : clock st2 = (clock st1 + POLL_INTERVAL)%N) by reflexivity.
      destruct (IH st2 ltac:(lia) ltac:(unfold POLL_TIMEOUT, POLL_INTERVAL in *; lia))
        as (b & st3 & rs & tail & E3 & T3 & F3 & C3 & L3 & U3 & Z3).
      exists b, st3, (r :: rs), tail.
      split; [exact E3|]; split.
      { rewrite T3; subst st2 st1; cbn [trace slept answered flat_map probe_round].
        rewrite <- !app_assoc; reflexivity. }
      split; [constructor; auto|]; split; [exact C3|].
      unfold POLL_TIMEOUT, POLL_INTERVAL in *.
      split; [lia|]; split; [lia|].
      intros Hzero Hmod.
      assert (Hmod2 : ((clock st2 - start_time) mod 5 = 0)%N).
      { replace (clock st2 - start_time)%N with ((clock st - start_time) + 1 * 5)%N by lia.
        rewrite N.Div0.mod_add; exact Hmod. }
      specialize (Z3 Hzero Hmod2).
      assert (clock st - start_time <= 115)%N.
      { pose proof (N.Div0.div_mod (clock st - start_time) 5) as Hdm.
        rewrite Hmod in Hdm.
        assert ((clock st - start_time) / 5 < 24)%N by (apply N.Div0.div_lt_upper_bound; lia).
        lia. }
      lia.
Qed.

(** C2, as the code has it. The readiness poll of [create_new_fork] ends
    with a result. Its trace is a run of failed existence probes, each
    followed by a sleep of 5 time units, closed either by one successful
    probe (the fork is reported ready) or, when 120 time units or more have
    passed since the poll began, by the timeout diagnostic and the result
    False, which is then also the result of [create_new_fork]. A probe is
    only started before the 120 units are up, so when every gateway call
    takes at most [d] time units the poll lasts less than 120 + d + 5 time
    units, and at most 120 when calls take no time. *)
Theorem readiness_poll_bound :
  forall (st : State World) (username fork_repo_path token : string) (d : N),
    (forall w now call, (reply_elapsed (gateway w now call) <= d)%N) ->
    exists b st' failed_probes tail,
      wait_for_fork gateway fork_repo_path token st = Normal b st' /\
      trace st' = trace st ++ flat_map (probe_round fork_repo_path token) failed_probes ++ tail /\
      Forall (fun r => success r = false) failed_probes /\
      (if b
       then exists r, success r = true /\ tail = [EvApi (exists_call fork_repo_path token) r]
       else tail = [EvPrint LvlError "    ❌ Timeout: Fork was not ready in time."] /\
            (POLL_TIMEOUT <= clock st' - clock st)%N /\
            fork_follow_up gateway username token fork_repo_path st = Normal false st') /\
      (clock st' - clock st < POLL_TIMEOUT + d + POLL_INTERVAL)%N /\
      (d = 0%N -> (clock st' - clock st <= POLL_TIMEOUT)%N).
Proof.
  intros st username fork_repo_path token d Hd.
  destruct (poll_fork_run fork_repo_path token (clock st) d Hd poll_fuel st ltac:(lia)
              ltac:(unfold POLL_TIMEOUT, POLL_INTERVAL, poll_fuel; lia))
    as (b & st1 & rs & tail & E & T & F & C & L & U & Z).
  assert (Hwait : wait_for_fork gateway fork_repo_path token st =
                  if b then Normal true st1
                  else Normal false
                         (emitted st1 (EvPrint LvlError "    ❌ Timeout: Fork was not ready in time."))).
  { unfold wait_for_fork; unfold bind at 1; unfold time_now at 1.
    unfold bind at 1; rewrite E; destruct b; reflexivity. }
  unfold POLL_TIMEOUT, POLL_INTERVAL in *.
  destruct b.
  - exists true, st1, rs, tail; rewrite Hwait.
    repeat split; auto; try lia.
    intros Hzero; specialize (Z Hzero); rewrite N.sub_diag in Z.
    specialize (Z eq_refl); lia.
  - destruct C as [-> C].
    eexists false, _, rs, _; rewrite Hwait.
    split; [reflexivity|]; split.
    { cbn [trace emitted]; rewrite T, app_nil_r, <- app_assoc; reflexivity. }
    split; [exact F|]; cbn [clock emitted]; split.
    + split; [reflexivity|]; split; [lia|].
      unfold fork_follow_up; unfold bind at 1; rewrite Hwait; reflexivity.
    + split; [lia|].
      intros Hzero; specialize (Z Hzero); rewrite N.sub_diag in Z.
      specialize (Z eq_refl); lia.
Qed.

Lemma invite_one_eq config repo_path username c (st : State World) :
  let r := reply_to gateway st (invite_call config repo_path username) in
  let st1 := answered gateway st (invite_call config repo_path username) in
  let succeeded := mkInviteCounts (S (invite_success c)) (invite_failed c) in
  invite_one gateway config repo_path username c st =
  if success r then
    Normal succeeded (slept (appended st1 INVITED_USERS_FILE username) 1)
  else if invite_error_converges (PyStr.lower (get_error r)) then
    Normal succeeded
      (slept (appended (emitted st1 (EvPrint LvlWarning " ⚠️  Already a collaborator"))
                INVITED_USERS_FILE username) 1)
  else match error r with
       | Some e =>
           Normal (mkInviteCounts (invite_success c) (S (invite_failed c)))
             (slept (emitted st1 (EvPrint LvlError (" ❌ " ++ e))) 1)
       | None => Raised KeyError st1
       end.
Proof.
  intros r st1 succeeded.
  unfold invite_one; unfold bind at 1; rewrite run_gh_api_eq.
  fold (invite_call config repo_path username); fold r st1.
  destruct (success r); [reflexivity|].
  destruct (invite_error_converges (PyStr.lower (get_error r))); [reflexivity|].
  unfold index_error; destruct (error r); reflexivity.
Qed.

(** C3, as the code has it. Every failed Operation Result is classified
    on its lower-cased error text, the empty text when the result carries
    none. The invite flow treats the failure as a success (counter and
    checklist as after a fresh invite) when the text contains "already a
    collaborator", and counts a failure for any other error text.
    [create_new_fork] goes on as after an accepted creation request, after
    a warning, exactly when the text contains "forks must have unique
    names", and otherwise returns False after its two diagnostics.
    [sync_fork_with_upstream] returns True exactly when the text contains
    one of "up-to-date", "up to date" and "already" (so in particular for
    "already up-to-date"), and False otherwise. *)
Theorem error_text_classification :
  forall (st : State World),
    (forall config repo_path username c,
        let r := reply_to gateway st (invite_call config repo_path username) in
        let text := PyStr.lower (get_error r) in
        success r = false ->
        (PyStr.contains "already a collaborator" text = true ->
         exists st',
           invite_one gateway config repo_path username c st =
           Normal (mkInviteCounts (S (invite_success c)) (invite_failed c)) st' /\
           invited_file st' = add_line (invited_file st) username) /\
        (PyStr.contains "already a collaborator" text = false ->
         forall e, error r = Some e ->
         exists st',
           invite_one gateway config repo_path username c st =
           Normal (mkInviteCounts (invite_success c) (S (invite_failed c))) st' /\
           invited_file st' = invited_file st)) /\
    (forall username token owner name,
        let source_repo := (owner ++ "/" ++ name)%string in
        let r := reply_to gateway (repaired st username) (create_call source_repo token) in
        let st1 := answered gateway (repaired st username) (create_call source_repo token) in
        let text := PyStr.lower (get_error r) in
        success r = false ->
        if PyStr.contains "forks must have unique names" text
        then exists second,
            create_new_fork gateway username token source_repo st =
            fork_follow_up gateway username token (username ++ "/" ++ second)%string
              (emitted st1
                 (EvPrint LvlWarning "    ⚠️  Fork already exists. Skipping creation."))
        else create_new_fork gateway username token source_repo st =
             Normal false
               (emitted
                  (emitted st1
                     (EvPrint LvlError ("    ❌ Fork creation failed: " ++ show_error r)))
                  (EvLog ("Fork failed for @" ++ username ++ ": " ++ show_error r)))) /\
    (forall fork_repo token,
        let branch := default_branch_of (reply_to gateway st (branch_call fork_repo token)) in
        let st2 := answered gateway (answered gateway st (branch_call fork_repo token))
                     (disable_call fork_repo token) in
        let r := reply_to gateway st2 (merge_call fork_repo branch token) in
        let text := PyStr.lower (get_error r) in
        success r = false ->
        exists st',
          sync_fork_with_upstream gateway fork_repo token st =
          Normal (PyStr.contains "up-to-date" text
                  || PyStr.contains "up to date" text
                  || PyStr.contains "already" text) st').
Proof.
  intros st; split; [|split].
  - intros config repo_path username c r text Hfail.
    rewrite invite_one_eq; fold r; rewrite Hfail.
    unfold invite_error_converges; fold text.
    split; intros Hc; rewrite Hc.
    + eexists; split; reflexivity.
    + intros e Herr; rewrite Herr; eexists; split; reflexivity.
  - intros username token owner name source_repo r st1 text Hfail.
    destruct (split_slash_second owner name) as [second Hsecond].
    fold source_repo in Hsecond.
    rewrite (create_new_fork_eq _ _ _ _ st Hsecond); cbv zeta; fold r st1.
    unfold after_creation_request; rewrite Hfail; cbn [orb].
    unfold fork_error_converges; fold text.
    destruct (PyStr.contains "forks must have unique names" text);
      [exists second|]; reflexivity.
  - intros fork_repo token branch st2 r text Hfail.
    rewrite sync_fork_with_upstream_eq; cbv zeta; fold branch st2 r.
    rewrite Hfail; cbn [orb].
    unfold sync_error_converges; fold text; cbn [existsb].
    rewrite orb_false_r, orb_assoc.
    destruct (PyStr.contains "up-to-date" text
              || PyStr.contains "up to date" text
              || PyStr.contains "already" text); eexists; reflexivity.
Qed.

(** *** The invite flow *)

Lemma ends_invite_one config repo_path username c :
  ends false (invite_events config repo_path username)
    (invite_one gateway config repo_path username c).
Proof. unfold invite_one; ends_tac. Qed.

Lemma mem_In x xs : PyStr.mem x xs = true <-> In x xs.
Proof.
  unfold PyStr.mem; rewrite existsb_exists; split.
  - intros (y & Hy & E); apply String.eqb_eq in E; subst; assumption.
  - intros H; exists x; split; auto; apply String.eqb_refl.
Qed.

Lemma mem_not_In x xs : PyStr.mem x xs = false <-> ~ In x xs.
Proof.
  rewrite <- mem_In; destruct (PyStr.mem x xs); split; intros; congruence.
Qed.

Lemma quiet_print lvl msg : quiet (EvPrint lvl msg).
Proof. split; reflexivity. Qed.

Lemma ends_at_intro {A} k P (m : M World A) st : ends k P m -> ends_at k P m st.
Proof. intros H; exact (H st). Qed.

Lemma ends_at_read {A B} k P (f : State World -> A) (g : A -> M World B) st :
  ends_at k P (g (f st)) st ->
  ends_at k P (bind (fun s => Normal (f s) s) g) st.
Proof. unfold ends_at, bind; auto. Qed.

Lemma ends_at_final {A} k P (m : M World A) st :
  ends_at k P m st ->
  exists st' seg, final_state (m st) = Some st' /\ follows P st st' seg.
Proof.
  unfold ends_at; destruct (m st) as [a st'|e st'|]; simpl.
  - intros [seg H]; eauto.
  - intros [_ [seg H]]; eauto.
  - contradiction.
Qed.

Lemma invoke_auto_invite_follows (st : State World) :
  exists st' seg,
    final_state (invoke_auto_invite gateway st) = Some st' /\
    follows (invite_flow_events (config_file st) (invited_file st)) st st' seg.
Proof.
  apply (ends_at_final false).
  unfold invoke_auto_invite, load_config, load_token_cache, read_file_lines.
  apply ends_at_read.
  destruct (config_file st) as [config|].
  2:{ apply ends_at_intro; ends_tac; left; apply quiet_print. }
  apply ends_at_read.
  destruct (token_cache_file st) as [[|item cache]|];
    try (apply ends_at_intro; ends_tac; left; apply quiet_print).
  apply ends_at_read; cbn [get_file].
  set (users := users_to_invite_of (main_account_username config) (invited_file st)
                  (item :: cache)).
  assert (Husers : forall u, In u users ->
              ~ In u (invited_file st) /\ u <> main_account_username config).
  { intros u Hu; subst users; unfold users_to_invite_of in Hu.
    apply filter_In in Hu as [_ Hu]; apply andb_true_iff in Hu as [H1 H2].
    apply negb_true_iff in H1, H2; split.
    - apply mem_not_In; assumption.
    - apply String.eqb_neq; assumption. }
  apply ends_at_intro.
  destruct users as [|u0 users'] eqn:Eusers; [apply ends_ret|].
  rewrite <- Eusers in *.
  apply ends_bind; [|intros; apply ends_ret].
  apply ends_for_each; intros u s Hu.
  eapply ends_weaken; [|apply ends_invite_one].
  intros e He; right.
  exists config, (main_account_username config ++ "/" ++ main_repo_name config)%string, u.
  destruct (Husers u Hu); auto.
Qed.

Lemma add_line_keeps lines line x : In x lines -> In x (add_line lines line).
Proof.
  unfold add_line; destruct (PyStr.mem line lines); auto.
  intros; apply in_or_app; auto.
Qed.

Lemma add_line_has lines line : In line (add_line lines line).
Proof.
  unfold add_line; destruct (PyStr.mem line lines) eqn:E.
  - apply mem_In; assumption.
  - apply in_or_app; right; left; reflexivity.
Qed.

Lemma add_line_count lines line :
  ~ In line lines -> count_occ string_dec (add_line lines line) line = 1%nat.
Proof.
  intros H; unfold add_line.
  apply mem_not_In in H as Hm; rewrite Hm.
  rewrite count_occ_app; apply (count_occ_not_In string_dec) in H; rewrite H; simpl.
  destruct (string_dec line line); congruence.
Qed.

Lemma replay_keeps f seg lines x :
  Forall not_rewrite seg -> In x lines -> In x (replay f seg lines).
Proof.
  intros H; revert lines; induction H as [|e seg He _ IH]; intros lines Hx; simpl; auto.
  destruct e; auto; [|contradiction].
  apply IH; destruct (file_eqb f f0); auto using add_line_keeps.
Qed.

Lemma replay_adds f seg lines x :
  Forall not_rewrite seg -> In (EvAppend f x) seg -> In x (replay f seg lines).
Proof.
  intros H; revert lines; induction H as [|e seg He Hseg IH]; intros lines Hx; simpl.
  - contradiction.
  - destruct Hx as [->|Hx].
    + apply replay_keeps; auto.
      replace (file_eqb f f) with true by (destruct f; reflexivity).
      apply add_line_has.
    + destruct e; auto.
Qed.

Lemma invite_flow_events_not_rewrite loaded invited e :
  invite_flow_events loaded invited e -> not_rewrite e.
Proof.
  intros [[_ H]|(config & p & u & _ & _ & _ & H)]; destruct e; simpl in *;
    auto; discriminate.
Qed.

Lemma invite_flow_events_call loaded invited call r p u :
  invite_flow_events loaded invited (EvApi call r) ->
  call_command call = CmdInvite p u ->
  ~ In u invited /\
  exists config, loaded = Some config /\ u <> main_account_username config.
Proof.
  intros [[H _]|(config & p' & u' & Hc & Hu & Hm & H)]; [discriminate|].
  simpl in H; subst call; simpl; intros [= _ <-]; eauto.
Qed.

(** C5. The invite flow never invites an account that its checklist
    already holds: in a run started with checklist [invited_file st] no
    invite call names such an account, and in a second run started where
    the first one ended no invite call names an account of the first
    checklist or one the first run appended. One round treats a fresh
    success and a failure whose text contains "already a collaborator"
    alike: one append of the account to the invited checklist, in which it
    then occurs exactly once, and one more success counted. *)
Theorem invite_flow_idempotent :
  forall (st : State World),
    (exists st1 seg1,
        final_state (invoke_auto_invite gateway st) = Some st1 /\
        trace st1 = trace st ++ seg1 /\
        (forall call r p u,
            In (EvApi call r) seg1 -> call_command call = CmdInvite p u ->
            ~ In u (invited_file st)) /\
        exists st2 seg2,
          final_state (invoke_auto_invite gateway st1) = Some st2 /\
          trace st2 = trace st1 ++ seg2 /\
          (forall call r p u,
              In (EvApi call r) seg2 -> call_command call = CmdInvite p u ->
              ~ In u (invited_file st) /\ ~ In (EvAppend INVITED_USERS_FILE u) seg1)) /\
    (forall config repo_path username c,
        let r := reply_to gateway st (invite_call config repo_path username) in
        success r = true \/
        PyStr.contains "already a collaborator" (PyStr.lower (get_error r)) = true ->
        exists st' seg,
          invite_one gateway config repo_path username c st =
          Normal (mkInviteCounts (S (invite_success c)) (invite_failed c)) st' /\
          trace st' = trace st ++ seg /\
          filter is_file_change seg = [EvAppend INVITED_USERS_FILE username] /\
          invited_file st' = add_line (invited_file st) username /\
          (~ In username (invited_file st) ->
           count_occ string_dec (invited_file st') username = 1%nat)).
Proof.
  intros st; split.
  - destruct (invoke_auto_invite_follows st) as (st1 & seg1 & E1 & H1).
    exists st1, seg1; split; [exact E1|]; split; [exact (fl_trace _ _ _ _ H1)|].
    pose proof (fl_events _ _ _ _ H1) as F1; rewrite Forall_forall in F1.
    split.
    { intros call r p u Hin Hcmd.
      eapply invite_flow_events_call; eauto. }
    destruct (invoke_auto_invite_follows st1) as (st2 & seg2 & E2 & H2).
    exists st2, seg2; split; [exact E2|]; split; [exact (fl_trace _ _ _ _ H2)|].
    pose proof (fl_events _ _ _ _ H2) as F2; rewrite Forall_forall in F2.
    intros call r p u Hin Hcmd.
    pose proof (invite_flow_events_call _ _ _ _ _ _ (F2 _ Hin) Hcmd) as [Hnot _].
    pose proof (fl_files _ _ _ _ H1 INVITED_USERS_FILE) as Hfile; cbn [get_file] in Hfile.
    assert (Hnr : Forall not_rewrite seg1).
    { apply Forall_forall; intros e He.
      eapply invite_flow_events_not_rewrite; eauto. }
    split; intros Hbad; apply Hnot; rewrite Hfile.
    + apply replay_keeps; auto.
    + apply replay_adds; auto.
  - intros config repo_path username c r Hr.
    rewrite invite_one_eq; fold r.
    destruct (success r) eqn:Es.
    + eexists _, _; split; [reflexivity|]; split.
      { cbn [trace slept appended emitted set_file answered].
        rewrite <- !app_assoc; reflexivity. }
      split; [reflexivity|]; split; [reflexivity|].
      intros Hnot; apply add_line_count; assumption.
    + destruct Hr as [Hr|Hr]; [discriminate|].
      unfold invite_error_converges; rewrite Hr.
      eexists _, _; split; [reflexivity|]; split.
      { cbn [trace slept appended emitted set_file answered].
        rewrite <- !app_assoc; reflexivity. }
      split; [reflexivity|]; split; [reflexivity|].
      intros Hnot; apply add_line_count; assumption.
Qed.

(** *** The confirmation prompt *)

Lemma replay_quiet f seg lines : Forall quiet seg -> replay f seg lines = lines.
Proof.
  intros H; induction H as [|e seg [_ He] _ IH]; simpl; auto.
  destruct e; auto; discriminate.
Qed.

Lemma quiet_no_api seg : Forall quiet seg -> forallb (fun e => negb (is_api e)) seg = true.
Proof.
  intros H; induction H as [|e seg [He _] _ IH]; simpl; auto.
  rewrite He, IH; reflexivity.
Qed.

Lemma follows_emitted (P : Event -> Prop) (st : State World) ev :
  P ev -> quiet ev -> follows P st (emitted st ev) [ev].
Proof.
  intros HP [Ha Hf]; constructor; simpl; auto; try lia.
  intros f; destruct ev; simpl in *; try discriminate; destruct f; reflexivity.
Qed.

Lemma follows_consumed (P : Event -> Prop) (st : State World) rest :
  follows P st (consumed st rest) [].
Proof.
  constructor; simpl; auto; try lia.
  now rewrite app_nil_r.
Qed.

Lemma printed_quiet e : printed e -> quiet e.
Proof. destruct e; simpl; try contradiction; intros _; split; reflexivity. Qed.

(** The mode prompt skips invalid answers and returns the first valid one. *)
Lemma ask_mode_run bad mode rest :
  Forall invalid_mode bad ->
  PyStr.mem (PyStr.strip mode) ["1"; "2"]%string = true ->
  forall st : State World,
    stdin st = bad ++ mode :: rest ->
    exists st' seg,
      ask_mode (stdin st) st = Normal (PyStr.strip mode) st' /\
      stdin st' = rest /\ follows printed st st' seg.
Proof.
  intros Hbad Hmode; induction Hbad as [|line bad Hline _ IH]; intros st Hin.
  - cbn [app] in Hin.
    rewrite Hin; cbn [ask_mode]; unfold bind at 1, input at 1; rewrite Hin.
    fold (consumed st rest); rewrite Hmode.
    exists (consumed st rest), [].
    split; [reflexivity|]; split; [reflexivity|apply follows_consumed].
  - cbn [app] in Hin.
    rewrite Hin; cbn [ask_mode]; unfold bind at 1, input at 1; rewrite Hin.
    fold (consumed st (bad ++ mode :: rest)).
    rewrite Hline.
    unfold bind at 1, print_warning at 1, emit at 1.
    fold (emitted (consumed st (bad ++ mode :: rest)) (EvPrint LvlWarning "Pilihan tidak valid.")).
    set (st1 := emitted _ _).
    destruct (IH st1 eq_refl) as (st' & seg & E & Hs & H).
    change (stdin st1) with (bad ++ mode :: rest) in E.
    exists st', ([] ++ [EvPrint LvlWarning "Pilihan tidak valid."] ++ seg).
    split; [exact E|]; split; [exact Hs|].
    eapply follows_trans; [apply follows_consumed|].
    eapply follows_trans; [|exact H].
    apply follows_emitted; [|apply quiet_print]; exact I.
Qed.

(** C6. Destructive mode declined: when the operator (after any number of
    invalid answers) chooses mode 2 and then answers the confirmation with
    anything whose lower-case form is not "y", the orchestrator returns
    without entering its loop. It issues no gateway call and changes no
    checklist: the remote side and the three checklists are what they were,
    and the events emitted are terminal diagnostics only (no gateway call,
    no checklist event, no line of the failure log). *)
Theorem declined_confirmation_aborts :
  forall (st : State World) (bad : list string) (mode answer : string) (rest : list string),
    stdin st = bad ++ mode :: answer :: rest ->
    Forall invalid_mode bad ->
    PyStr.strip mode = "2"%string ->
    PyStr.lower answer <> "y"%string ->
    exists st' seg,
      invoke_auto_create_or_sync_fork gateway st = Normal None st' /\
      trace st' = trace st ++ seg /\
      Forall (fun e => exists lvl msg, e = EvPrint lvl msg) seg /\
      remote st' = remote st /\
      invited_file st' = invited_file st /\
      accepted_file st' = accepted_file st /\
      forked_file st' = forked_file st.
Proof.
  intros st bad mode answer rest Hin Hbad Hmode Hanswer.
  assert (Hgoal : exists st' seg,
             invoke_auto_create_or_sync_fork gateway st = Normal None st' /\
             follows printed st st' seg).
  { unfold invoke_auto_create_or_sync_fork.
    unfold bind at 1, load_config at 1.
    destruct (config_file st) as [config|].
    2:{ eexists _, _; split; [reflexivity|].
        apply follows_emitted; [|apply quiet_print]; exact I. }
    unfold bind at 1, load_token_cache at 1.
    destruct (token_cache_file st) as [[|item cache]|];
      try (eexists _, _; split; [reflexivity|];
           apply follows_emitted; [|apply quiet_print]; exact I).
    destruct (users_to_process_of (main_account_username config) (item :: cache))
      as [|user users]; [exists st, []; split; [reflexivity|apply follows_refl]|].
    unfold bind at 1, print_warning at 1, emit at 1.
    fold (emitted st (EvPrint LvlWarning (String "010" "Mode Operasi:"))).
    set (st1 := emitted st _).
    destruct (ask_mode_run bad mode (answer :: rest) Hbad
                ltac:(rewrite Hmode; reflexivity) st1 Hin)
      as (st2 & seg2 & E2 & Hs2 & H2).
    unfold bind at 1, choose_mode at 1; rewrite E2, Hmode.
    change (String.eqb "2" "1") with false; cbv iota.
    unfold bind at 1, bind at 1, print_warning at 1, emit at 1.
    fold (emitted st2 (EvPrint LvlWarning
       (String "010" "Mode: Force Clean & Create. Ini akan menghapus repo yang ada."))).
    set (st3 := emitted st2 _).
    unfold bind at 1, input at 1.
    change (stdin st3) with (stdin st2); rewrite Hs2.
    fold (consumed st3 rest).
    apply String.eqb_neq in Hanswer; rewrite Hanswer; cbn [negb].
    unfold bind at 1, print_warning at 1, emit at 1, ret at 1; cbn [negb].
    unfold ret.
    eexists _, _; split; [reflexivity|].
    eapply follows_trans; [apply follows_emitted; [|apply quiet_print]; exact I|].
    eapply follows_trans; [exact H2|].
    eapply follows_trans; [apply follows_emitted; [|apply quiet_print]; exact I|].
    eapply follows_trans; [apply follows_consumed|].
    apply (follows_emitted printed (consumed st3 rest) (EvPrint LvlWarning "Operasi dibatalkan."));
      [exact I | apply quiet_print]. }
  destruct Hgoal as (st' & seg & E & H).
  exists st', seg; split; [exact E|]; split; [exact (fl_trace _ _ _ _ H)|].
  pose proof (fl_events _ _ _ _ H) as Hp.
  assert (Hq : Forall quiet seg)
    by (eapply Forall_impl; [|exact Hp]; apply printed_quiet).
  split.
  { eapply Forall_impl; [|exact Hp].
    intros e; destruct e; simpl; try contradiction; eauto. }
  split; [apply (fl_remote _ _ _ _ H), quiet_no_api, Hq|].
  pose proof (fl_files _ _ _ _ H) as Hf.
  repeat split.
  - specialize (Hf INVITED_USERS_FILE); rewrite replay_quiet in Hf; auto.
  - specialize (Hf ACCEPTED_USERS_FILE); rewrite replay_quiet in Hf; auto.
  - specialize (Hf FORKED_REPOS_FILE); rewrite replay_quiet in Hf; auto.
Qed.

(** *** The accept flow *)

Lemma ends_accept_one target_repo accepted_users token username c :
  ends false
    (fun e => PyStr.mem username accepted_users = false /\ accept_events token username e)
    (accept_one gateway json_loads target_repo accepted_users (token, username) c).
Proof.
  unfold accept_one; cbn [fst snd].
  destruct (PyStr.mem username accepted_users); [apply ends_ret|].
  ends_tac.
  apply ends_try_except; unfold accept_try; ends_tac.
Qed.

Lemma invoke_auto_accept_follows (st : State World) :
  exists st' seg,
    final_state (invoke_auto_accept gateway json_loads st) = Some st' /\
    follows (accept_flow_events (cache_of st) (accepted_file st)) st st' seg.
Proof.
  apply (ends_at_final false).
  unfold invoke_auto_accept, load_config, load_token_cache, read_file_lines, cache_of.
  apply ends_at_read, ends_at_read.
  destruct (config_file st) as [config|];
    [|apply ends_at_intro; ends_tac; left; apply quiet_print].
  destruct (token_cache_file st) as [[|item cache]|];
    try (apply ends_at_intro; ends_tac; left; apply quiet_print).
  apply ends_at_read; cbn [get_file].
  apply ends_at_intro, ends_bind; [|intros; apply ends_ret].
  apply ends_for_each; intros [token username] s Hin.
  eapply ends_weaken; [|apply ends_accept_one].
  intros e [Hmem He]; right; exists token, username.
  split; [exact Hin|]; split; [apply mem_not_In; exact Hmem | exact He].
Qed.

Lemma accept_flow_events_not_rewrite cache accepted e :
  accept_flow_events cache accepted e -> not_rewrite e.
Proof.
  intros [[_ H]|(t & u & _ & _ & H)]; destruct e; simpl in *; auto; discriminate.
Qed.

(** C10. The accept flow skips an account that its accepted checklist
    holds: the round of such an account only counts it as skipped and
    leaves the whole state as it was (no gateway call, no checklist
    change). In a whole run every gateway call is made with the credential
    of a cached account that the accepted checklist did not hold at the
    start, so a run in which every cached account is already accepted
    leaves the remote side and the three checklists untouched. *)
Theorem accept_flow_skips_accepted :
  forall (st : State World),
    (forall target_repo accepted_users token username c,
        In username accepted_users ->
        accept_one gateway json_loads target_repo accepted_users (token, username) c st =
        Normal (mkAcceptCounts (accepted_count c) (S (skipped_count c)) (no_invite_count c)) st) /\
    exists st' seg,
      final_state (invoke_auto_accept gateway json_loads st) = Some st' /\
      trace st' = trace st ++ seg /\
      (forall call r,
          In (EvApi call r) seg ->
          exists username,
            In (call_token call, username) (cache_of st) /\
            ~ In username (accepted_file st)) /\
      ((forall token username,
           In (token, username) (cache_of st) -> In username (accepted_file st)) ->
       remote st' = remote st /\
       invited_file st' = invited_file st /\
       accepted_file st' = accepted_file st /\
       forked_file st' = forked_file st).
Proof.
  intros st; split.
  - intros target_repo accepted_users token username c Hin.
    unfold accept_one; cbn [fst snd].
    apply mem_In in Hin; rewrite Hin; reflexivity.
  - destruct (invoke_auto_accept_follows st) as (st' & seg & E & H).
    exists st', seg; split; [exact E|]; split; [exact (fl_trace _ _ _ _ H)|].
    pose proof (fl_events _ _ _ _ H) as F; rewrite Forall_forall in F.
    split.
    + intros call r Hin.
      destruct (F _ Hin) as [[Hq _]|(t & u & Hc & Hu & He)]; [discriminate|].
      simpl in He; destruct He as [<- _]; exists u; auto.
    + intros Hall.
      assert (Hq : Forall quiet seg).
      { apply Forall_forall; intros e He.
        destruct (F _ He) as [Hq|(t & u & Hc & Hu & _)]; [exact Hq|].
        exfalso; apply Hu; eapply Hall; eauto. }
      split; [apply (fl_remote _ _ _ _ H), quiet_no_api, Hq|].
      pose proof (fl_files _ _ _ _ H) as Hf.
      repeat split.
      * specialize (Hf INVITED_USERS_FILE); rewrite replay_quiet in Hf; auto.
      * specialize (Hf ACCEPTED_USERS_FILE); rewrite replay_quiet in Hf; auto.
      * specialize (Hf FORKED_REPOS_FILE); rewrite replay_quiet in Hf; auto.
Qed.

(** C8. In the accept flow, when the invitation listing of an account
    succeeds but its payload does not decode as JSON, the round prints the
    parse diagnostic, sleeps and ends: its only gateway call is the listing
    itself (no accept call), the three checklists and the counters are
    unchanged, and the loop goes on with the next account. *)
Theorem malformed_listing_is_skipped :
  forall (st : State World) (target_repo : string) (accepted_users : list string)
         (token username : string) (c : AcceptCounts) (items : list (string * string)),
    let r := reply_to gateway st (list_call token) in
    ~ In username accepted_users ->
    success r = true ->
    json_loads (output r) = inl JSONDecodeError ->
    exists st',
      accept_one gateway json_loads target_repo accepted_users (token, username) c st =
      Normal c st' /\
      trace st' = trace st ++ [EvApi (list_call token) r;
                               EvPrint LvlError " ❌ Gagal parse JSON";
                               EvSleep 1] /\
      invited_file st' = invited_file st /\
      accepted_file st' = accepted_file st /\
      forked_file st' = forked_file st /\
      for_each (accept_one gateway json_loads target_repo accepted_users)
        ((token, username) :: items) c st =
      for_each (accept_one gateway json_loads target_repo accepted_users) items c st'.
Proof.
  intros st target_repo accepted_users token username c items r Hnot Hok Hjson.
  assert (Hrun : accept_one gateway json_loads target_repo accepted_users (token, username) c st =
                 Normal c (slept (emitted (answered gateway st (list_call token))
                                    (EvPrint LvlError " ❌ Gagal parse JSON")) 1)).
  { unfold accept_one; cbn [fst snd].
    apply mem_not_In in Hnot; rewrite Hnot.
    unfold bind at 1; rewrite run_gh_api_eq; fold (list_call token); fold r.
    rewrite Hok; cbn [negb].
    unfold bind at 1, try_except at 1, accept_try; rewrite Hjson.
    reflexivity. }
  eexists; split; [exact Hrun|]; split.
  { cbn [trace slept emitted answered]; rewrite <- !app_assoc; reflexivity. }
  repeat split.
  cbn [for_each]; unfold bind at 1; rewrite Hrun; reflexivity.
Qed.

(** *** The fork orchestrator as a whole *)

Lemma dict_set_In k v d k' v' :
  In (k', v') (dict_set k v d) -> (k', v') = (k, v) \/ In (k', v') d.
Proof.
  induction d as [|[k0 v0] d IH]; simpl.
  - intros [H|[]]; auto.
  - destruct (String.eqb k0 k).
    + intros [H|H]; auto.
    + intros [H|H]; auto. destruct (IH H); auto.
Qed.

(** Every entry of [users_to_process] is a cached account other than the
    main one, with its own credential. *)
Lemma users_to_process_In main_username token_cache username token :
  In (username, token) (users_to_process_of main_username token_cache) ->
  In (token, username) token_cache /\ username <> main_username.
Proof.
  unfold users_to_process_of.
  assert (Hgen : forall l d,
             (forall x, In x l -> In x token_cache) ->
             (forall u t, In (u, t) d -> In (t, u) token_cache /\ u <> main_username) ->
             In (username, token)
                (fold_left
                   (fun d tu => if negb (String.eqb (snd tu) main_username)
                                then dict_set (snd tu) (fst tu) d else d) l d) ->
             In (token, username) token_cache /\ username <> main_username).
  { induction l as [|[t u] l IH]; intros d Hl Hd; simpl; [apply Hd|].
    apply IH; [intros; apply Hl; right; assumption|].
    intros u' t' Hin.
    destruct (String.eqb u main_username) eqn:E; simpl in Hin; [apply Hd; exact Hin|].
    apply dict_set_In in Hin as [[= -> ->]|Hin]; [|apply Hd; exact Hin].
    split; [apply Hl; left; reflexivity | apply String.eqb_neq; exact E]. }
  apply Hgen; [auto | intros u t []].
Qed.

Lemma check_events_account u t s repo e :
  check_events (u ++ "/" ++ repo)%string t e -> account_events u t s repo e.
Proof. destruct e; simpl; auto; try contradiction; intros [-> ->]; auto. Qed.

Lemma delete_events_account u t s repo e :
  delete_events (u ++ "/" ++ repo)%string t e -> account_events u t s repo e.
Proof. destruct e; simpl; auto; try contradiction; intros [-> ->]; auto. Qed.

Lemma sync_events_account u t s repo e :
  sync_events (u ++ "/" ++ repo)%string t e -> account_events u t s repo e.
Proof.
  destruct e as [c r| | | | |]; simpl; auto; try contradiction.
  intros [-> H]; split; auto; destruct (call_command c); auto; contradiction.
Qed.

Lemma create_events_account u t s repo e :
  create_events u t s e -> account_events u t s repo e.
Proof.
  destruct e as [c r| | | | |]; simpl; auto.
  intros [-> H]; split; auto; destruct (call_command c); auto; contradiction.
Qed.

Lemma ends_process_account k action main repo username token c :
  ends k (account_events username token (main ++ "/" ++ repo)%string repo)
    (process_account gateway action (main ++ "/" ++ repo)%string repo (username, token) c).
Proof.
  unfold process_account; cbn [fst snd].
  apply ends_bind.
  { eapply ends_weaken; [apply check_events_account | apply ends_check_if_correct_fork]. }
  intros valid.
  repeat (ends_step; simpl; auto);
    try (eapply ends_weaken; [apply delete_events_account | apply ends_delete_repository]);
    try (eapply ends_weaken; [apply sync_events_account | apply ends_sync_fork_with_upstream]);
    try (eapply ends_weaken; [apply create_events_account | apply ends_create_new_fork]).
Qed.

Lemma ends_ask_mode (P : Event -> Prop) pending :
  (forall e, quiet e -> P e) -> ends false P (ask_mode (World := World) pending).
Proof.
  intros HP; induction pending as [|line pending IH]; cbn [ask_mode].
  - ends_tac.
  - repeat (ends_step; simpl; auto). apply HP, quiet_print.
Qed.

Lemma invoke_auto_create_or_sync_fork_follows (st : State World) :
  exists st' seg,
    final_state (invoke_auto_create_or_sync_fork gateway st) = Some st' /\
    follows (orchestrator_events (config_file st) (cache_of st)) st st' seg.
Proof.
  apply (ends_at_final false).
  unfold invoke_auto_create_or_sync_fork, load_config, load_token_cache, cache_of.
  apply ends_at_read.
  destruct (config_file st) as [config|];
    [|apply ends_at_intro; ends_tac; left; apply quiet_print].
  apply ends_at_read.
  destruct (token_cache_file st) as [[|item cache]|];
    try (apply ends_at_intro; ends_tac; left; apply quiet_print).
  set (users := users_to_process_of (main_account_username config) (item :: cache)).
  assert (Husers : forall u t, In (u, t) users ->
              In (t, u) (item :: cache) /\ u <> main_account_username config)
    by (intros u t; apply users_to_process_In).
  destruct users as [|user users'] eqn:Eusers; [apply ends_at_intro, ends_ret|].
  rewrite <- Eusers in *.
  apply ends_at_intro.
  apply ends_bind; [apply ends_print_warning; left; apply quiet_print|]; intros _.
  apply ends_bind.
  { intros s; apply (ends_ask_mode _ (stdin s)); intros e He; left; exact He. }
  intros action.
  apply ends_bind.
  { ends_tac; left; apply quiet_print. }
  intros proceed; destruct (negb proceed); [apply ends_ret|].
  apply ends_bind; [|intros; apply ends_ret].
  apply ends_for_each; intros [u t] s Hin.
  eapply ends_weaken; [|apply ends_process_account].
  intros e He; right; exists config, u, t.
  destruct (Husers u t Hin); auto.
Qed.

Lemma length_append (a b : string) :
  String.length (a ++ b) = (String.length a + String.length b)%nat.
Proof. induction a as [|c a IH]; simpl; auto. Qed.

Lemma append_cancel_r (a b s : string) : (a ++ s = b ++ s)%string -> a = b.
Proof.
  revert b; induction a as [|c a IH]; intros [|c' b] H; simpl in H; auto.
  - apply (f_equal String.length) in H; simpl in H; rewrite length_append in H; lia.
  - apply (f_equal String.length) in H; simpl in H; rewrite length_append in H; lia.
  - injection H as -> H; f_equal; auto.
Qed.

Lemma NoDup_fst_unique (cache : list (string * string)) t u u' :
  NoDup (map fst cache) -> In (t, u) cache -> In (t, u') cache -> u = u'.
Proof.
  induction cache as [|[t0 u0] cache IH]; simpl; [intros _ []|].
  intros Hnd [H1|H1] [H2|H2]; inversion Hnd; subst.
  - congruence.
  - injection H1 as -> ->. exfalso; apply H3; apply (in_map fst) in H2; exact H2.
  - injection H2 as -> ->. exfalso; apply H3; apply (in_map fst) in H1; exact H1.
  - auto.
Qed.

(** What the exclusion [u != main_username] does achieve: an account
    cached under exactly the name of the configuration is never a target.
    Whatever else the token cache holds (its tokens being distinct, as the
    keys of a dictionary are) and whatever the operator answers, no gateway
    call of the invite flow and none of the fork orchestrator invites that
    name, deletes or syncs the repository path spelled with it, or creates
    a fork with a credential cached for it. *)
Theorem main_account_never_targeted :
  forall (st : State World) (config : Config),
    config_file st = Some config ->
    NoDup (map fst (cache_of st)) ->
    (exists st' seg,
        final_state (invoke_auto_invite gateway st) = Some st' /\
        trace st' = trace st ++ seg /\
        forall call r, In (EvApi call r) seg -> ~ targets_main config (cache_of st) call) /\
    (exists st' seg,
        final_state (invoke_auto_create_or_sync_fork gateway st) = Some st' /\
        trace st' = trace st ++ seg /\
        forall call r, In (EvApi call r) seg -> ~ targets_main config (cache_of st) call).
Proof.
  intros st config Hcfg Hnd; split.
  - destruct (invoke_auto_invite_follows st) as (st' & seg & E & H).
    exists st', seg; split; [exact E|]; split; [exact (fl_trace _ _ _ _ H)|].
    pose proof (fl_events _ _ _ _ H) as F; rewrite Forall_forall in F.
    intros call r Hin Ht.
    destruct (F _ Hin) as [[Hq _]|(cfg & p & u & Hc & _ & Hu & He)]; [discriminate|].
    rewrite Hcfg in Hc; injection Hc as <-.
    simpl in He; subst call; unfold targets_main in Ht; simpl in Ht; contradiction.
  - destruct (invoke_auto_create_or_sync_fork_follows st) as (st' & seg & E & H).
    exists st', seg; split; [exact E|]; split; [exact (fl_trace _ _ _ _ H)|].
    pose proof (fl_events _ _ _ _ H) as F; rewrite Forall_forall in F.
    intros call r Hin Ht.
    destruct (F _ Hin) as [[Hq _]|(cfg & u & t & Hc & Hcache & Hu & He)]; [discriminate|].
    rewrite Hcfg in Hc; injection Hc as <-.
    simpl in He; destruct He as [Htok He].
    unfold targets_main in Ht.
    destruct (call_command call); try contradiction.
    + rewrite He in Ht; apply append_cancel_r in Ht; exact (Hu Ht).
    + rewrite He in Ht; apply append_cancel_r in Ht; exact (Hu Ht).
    + rewrite Htok in Ht.
      apply Hu; eapply NoDup_fst_unique; eauto.
Qed.

(** *** The forked checklist *)

Lemma frame_refl us (st : State World) : frame us st st.
Proof. repeat split. Qed.

Lemma frame_trans us (st1 st2 st3 : State World) :
  frame us st1 st2 -> frame us st2 st3 -> frame us st1 st3.
Proof. intros (A1 & B1 & C1) (A2 & B2 & C2); repeat split; congruence. Qed.

Lemma preserves_ret {A} us (a : A) : preserves (frame us) (ret (World := World) a).
Proof. intros st; apply frame_refl. Qed.

Lemma preserves_bind {A B} us (m : M World A) (f : A -> M World B) :
  preserves (frame us) m -> (forall a, preserves (frame us) (f a)) ->
  preserves (frame us) (bind m f).
Proof.
  intros Hm Hf st; unfold preserves_at, bind; specialize (Hm st); unfold preserves_at in Hm.
  destruct (m st) as [a st1|e st1|]; auto.
  specialize (Hf a st1); unfold preserves_at in Hf.
  destruct (f a st1); auto; eapply frame_trans; eauto.
Qed.

Lemma preserves_for_each {A S} us (body : A -> S -> M World S) xs :
  (forall x s, In x xs -> preserves (frame us) (body x s)) ->
  forall s, preserves (frame us) (for_each body xs s).
Proof.
  induction xs as [|x xs IH]; intros Hb s; cbn [for_each].
  - apply preserves_ret.
  - apply preserves_bind; [apply Hb; left; reflexivity|].
    intros s'; apply IH; intros; apply Hb; right; assumption.
Qed.

Lemma preserves_at_read {A B} R (f : State World -> A) (g : A -> M World B) st :
  preserves_at R (g (f st)) st ->
  preserves_at R (bind (fun s => Normal (f s) s) g) st.
Proof. unfold preserves_at, bind; auto. Qed.

Lemma replay_keeps_files f seg lines : Forall keeps_files seg -> replay f seg lines = lines.
Proof.
  intros H; induction H as [|e seg He _ IH]; simpl; auto.
  destruct e; auto; discriminate.
Qed.

Lemma follows_keeps_files us (st st' : State World) seg :
  follows keeps_files st st' seg -> frame us st st'.
Proof.
  intros H; pose proof (fl_files _ _ _ _ H) as Hf; pose proof (fl_events _ _ _ _ H) as He.
  repeat split.
  - specialize (Hf FORKED_REPOS_FILE); cbn [get_file] in Hf.
    rewrite Hf, replay_keeps_files; auto.
  - specialize (Hf INVITED_USERS_FILE); rewrite replay_keeps_files in Hf; auto.
  - specialize (Hf ACCEPTED_USERS_FILE); rewrite replay_keeps_files in Hf; auto.
Qed.

Lemma preserves_of_ends {A} k us (m : M World A) :
  ends k keeps_files m -> preserves (frame us) m.
Proof.
  intros H st; specialize (H st); unfold preserves_at.
  destruct (m st) as [a st'|e st'|]; auto.
  - destruct H as [seg H]; eapply follows_keeps_files; eauto.
  - destruct H as [_ [seg H]]; eapply follows_keeps_files; eauto.
Qed.

Lemma others_add_line username lines :
  others username (add_line lines username) = others username lines.
Proof.
  unfold add_line; destruct (PyStr.mem username lines); auto.
  unfold others; rewrite filter_app; simpl.
  rewrite String.eqb_refl; simpl; apply app_nil_r.
Qed.

Lemma others_idem username lines :
  others username (others username lines) = others username lines.
Proof.
  unfold others; induction lines as [|x lines IH]; simpl; auto.
  destruct (negb (String.eqb x username)) eqn:E; simpl; rewrite ?E, IH; reflexivity.
Qed.

Lemma outside_others us username lines :
  In username us -> outside us (others username lines) = outside us lines.
Proof.
  intros Hin; unfold outside, others; induction lines as [|x lines IH]; simpl; auto.
  destruct (String.eqb x username) eqn:E; simpl.
  - apply String.eqb_eq in E; subst x.
    apply mem_In in Hin; rewrite Hin; simpl; exact IH.
  - rewrite IH; reflexivity.
Qed.

Lemma others_outside us username l l' :
  In username us -> others username l' = others username l ->
  outside us l' = outside us l.
Proof.
  intros Hin H.
  rewrite <- (outside_others us username l'), <- (outside_others us username l); auto.
  rewrite H; reflexivity.
Qed.

Lemma ends_fork_follow_up_files username token fork_repo_path :
  ends true (follow_up_events username) (fork_follow_up gateway username token fork_repo_path).
Proof.
  unfold fork_follow_up.
  repeat (ends_step; simpl; auto).
  eapply ends_weaken; [|apply ends_wait_for_fork].
  intros e; destruct e; simpl; auto; contradiction.
Qed.

Lemma replay_follow_up username seg :
  Forall (follow_up_events username) seg ->
  forall f lines,
    replay f seg lines =
    match f with
    | FORKED_REPOS_FILE => replay f seg lines
    | _ => lines
    end /\
    others username (replay FORKED_REPOS_FILE seg lines) = others username lines.
Proof.
  intros H; induction H as [|e seg He _ IH]; intros f lines; simpl.
  - destruct f; auto.
  - destruct e; simpl in He; try contradiction; try apply IH.
    destruct He as [-> ->]; split.
    + destruct f; simpl; auto; apply IH.
    + simpl. destruct (IH FORKED_REPOS_FILE (add_line lines username)) as [_ ->].
      apply others_add_line.
Qed.

Lemma follow_up_events_quiet username e : quiet e -> follow_up_events username e.
Proof. destruct e; simpl; auto; intros [H1 H2]; discriminate. Qed.

(** What [create_new_fork] does to the checklists. *)
Lemma create_new_fork_frame username token source_repo (st : State World) :
  match create_new_fork gateway username token source_repo st with
  | Normal _ st' | Raised _ st' =>
      others username (forked_file st') = others username (forked_file st) /\
      invited_file st' = invited_file st /\
      accepted_file st' = accepted_file st
  | Diverged => False
  end.
Proof.
  destruct (nth_error (PyStr.split_slash source_repo) 1) as [name|] eqn:Hname.
  2:{ unfold create_new_fork; rewrite Hname; simpl; auto. }
  rewrite (create_new_fork_eq _ _ _ _ st Hname); cbv zeta.
  assert (Hrep : others username (forked_file (repaired st username)) =
                 others username (forked_file st) /\
                 invited_file (repaired st username) = invited_file st /\
                 accepted_file (repaired st username) = accepted_file st).
  { unfold repaired; destruct (PyStr.mem username (forked_file st)); simpl; auto.
    split; auto; apply others_idem. }
  set (st0 := repaired st username) in *.
  set (st1 := answered gateway st0 (create_call source_repo token)).
  destruct (success _ || fork_error_converges _); [|simpl; exact Hrep].
  destruct (ends_after_creation_request _ _ st1
              (reply_to gateway st0 (create_call source_repo token))
              (follow_up_events_quiet username)
              (ends_fork_follow_up_files username token (username ++ "/" ++ name)%string))
    as (b & st2 & seg & E & H).
  rewrite E.
  pose proof (fl_files _ _ _ _ H) as Hf.
  pose proof (replay_follow_up username seg (fl_events _ _ _ _ H)) as Hr.
  destruct Hrep as (R1 & R2 & R3); repeat split.
  - specialize (Hf FORKED_REPOS_FILE); cbn [get_file] in Hf; rewrite Hf.
    destruct (Hr FORKED_REPOS_FILE (forked_file st1)) as [_ ->]; exact R1.
  - specialize (Hf INVITED_USERS_FILE); cbn [get_file] in Hf; rewrite Hf.
    destruct (Hr INVITED_USERS_FILE (invited_file st1)) as [-> _]; exact R2.
  - specialize (Hf ACCEPTED_USERS_FILE); cbn [get_file] in Hf; rewrite Hf.
    destruct (Hr ACCEPTED_USERS_FILE (accepted_file st1)) as [-> _]; exact R3.
Qed.

Lemma preserves_create_new_fork us username token source_repo :
  In username us ->
  preserves (frame us) (create_new_fork gateway username token source_repo).
Proof.
  intros Hin st; unfold preserves_at.
  pose proof (create_new_fork_frame username token source_repo st) as H.
  destruct (create_new_fork gateway username token source_repo st);
    try contradiction; destruct H as (H1 & H2 & H3); repeat split; auto;
    eapply others_outside; eauto.
Qed.

Lemma check_events_keep p t e : check_events p t e -> keeps_files e.
Proof. unfold keeps_files; destruct e; simpl; auto; contradiction. Qed.

Lemma delete_events_keep p t e : delete_events p t e -> keeps_files e.
Proof. unfold keeps_files; destruct e; simpl; auto; contradiction. Qed.

Lemma sync_events_keep p t e : sync_events p t e -> keeps_files e.
Proof. unfold keeps_files; destruct e; simpl; auto; contradiction. Qed.

Lemma preserves_process_account us action source_repo repo username token c :
  In username us ->
  preserves (frame us)
    (process_account gateway action source_repo repo (username, token) c).
Proof.
  intros Hin; unfold process_account; cbn [fst snd].
  apply preserves_bind.
  { apply (preserves_of_ends true).
    eapply ends_weaken; [apply check_events_keep | apply ends_check_if_correct_fork]. }
  intros valid.
  assert (Hcreate : forall (f : bool -> ForkCounts),
             preserves (frame us)
               (created <- create_new_fork gateway username token source_repo ;;
                sleep 2 ;; ret (f created))).
  { intros f; apply preserves_bind; [apply preserves_create_new_fork; exact Hin|].
    intros b; apply (preserves_of_ends true); ends_tac; reflexivity. }
  destruct (String.eqb action "2").
  - apply preserves_bind.
    { apply (preserves_of_ends true); ends_tac; reflexivity. }
    intros r; apply preserves_bind.
    { destruct (success r); [|apply preserves_ret].
      apply (preserves_of_ends true).
      eapply ends_weaken; [apply delete_events_keep | apply ends_delete_repository]. }
    intros deleted; destruct (negb deleted); [apply preserves_ret|].
    apply (Hcreate (fun created => if created then _ else _)).
  - destruct (String.eqb action "1").
    + destruct valid.
      * apply preserves_bind.
        { apply (preserves_of_ends true).
          eapply ends_weaken; [apply sync_events_keep | apply ends_sync_fork_with_upstream]. }
        intros b; apply (preserves_of_ends true); ends_tac; reflexivity.
      * apply preserves_bind.
        { apply (preserves_of_ends true); ends_tac; reflexivity. }
        intros _; apply (Hcreate (fun created => if created then _ else _)).
    + apply (preserves_of_ends true); ends_tac; reflexivity.
Qed.

Lemma invoke_auto_create_or_sync_fork_frame (st : State World) :
  preserves_at (frame (processed st)) (invoke_auto_create_or_sync_fork gateway) st.
Proof.
  unfold invoke_auto_create_or_sync_fork, load_config, load_token_cache, processed, cache_of.
  apply preserves_at_read.
  destruct (config_file st) as [config|].
  2:{ apply (preserves_of_ends true); ends_tac; reflexivity. }
  apply preserves_at_read.
  destruct (token_cache_file st) as [[|item cache]|];
    try (apply (preserves_of_ends true); ends_tac; reflexivity).
  set (users := users_to_process_of (main_account_username config) (item :: cache)).
  destruct users as [|user users'] eqn:Eusers; [apply preserves_ret|].
  rewrite <- Eusers in *.
  apply preserves_bind.
  { apply (preserves_of_ends true); ends_tac; reflexivity. }
  intros _; apply preserves_bind.
  { apply (preserves_of_ends false); intros s.
    apply (ends_ask_mode keeps_files (stdin s)); intros e [_ He]; exact He. }
  intros action; apply preserves_bind.
  { apply (preserves_of_ends false); ends_tac; reflexivity. }
  intros proceed; destruct (negb proceed); [apply preserves_ret|].
  apply preserves_bind; [|intros; apply preserves_ret].
  apply preserves_for_each; intros [u t] s Hin.
  apply preserves_process_account.
  apply (in_map fst) in Hin; exact Hin.
Qed.

Lemma replay_spares f seg lines : Forall (spares f) seg -> replay f seg lines = lines.
Proof.
  intros H; induction H as [|e seg He _ IH]; simpl; auto.
  destruct e; simpl in He; auto; rewrite He; exact IH.
Qed.

(** *** Removals from the forked checklist *)

Lemma repairs_only_app users source_repo seg1 :
  forall lines seg2,
    repairs_only users source_repo lines seg1 ->
    repairs_only users source_repo (replay FORKED_REPOS_FILE seg1 lines) seg2 ->
    repairs_only users source_repo lines (seg1 ++ seg2).
Proof.
  induction seg1 as [|e seg1 IH]; intros lines seg2; [intros _ H; exact H|].
  change (e :: seg1) with ([e] ++ seg1) at 2; rewrite replay_app.
  cbn [repairs_only app]; intros [He H1] H2; split; [|apply IH; assumption].
  destruct e; auto.
  destruct He as [-> (u & t & r & rest' & Hin & Hl & -> & ->)]; split; [reflexivity|].
  exists u, t, r, (rest' ++ seg2); repeat split; auto.
Qed.

Lemma repairs_only_plain users source_repo seg :
  Forall not_rewrite seg -> forall lines, repairs_only users source_repo lines seg.
Proof.
  intros H; induction H as [|e seg He _ IH]; intros lines; cbn [repairs_only]; [exact I|].
  split; [destruct e; auto; contradiction | apply IH].
Qed.

(** What [repairs_only] means for an entry that disappears: it was taken
    out by a repair, the creation request of its account being the next
    event. *)
Lemma removal_is_repair users source_repo seg :
  forall lines x,
    repairs_only users source_repo lines seg ->
    In x lines ->
    ~ In x (replay FORKED_REPOS_FILE seg lines) ->
    exists before token r after,
      seg = before
            ++ EvRewrite FORKED_REPOS_FILE
                 (others x (replay FORKED_REPOS_FILE before lines))
            :: EvApi (create_call source_repo token) r :: after /\
      In (x, token) users.
Proof.
  induction seg as [|e seg IH]; intros lines x H Hin Hout; [contradiction|].
  cbn [repairs_only] in H; destruct H as [He H].
  assert (Hstep : In x (replay FORKED_REPOS_FILE [e] lines) ->
                  exists before token r after,
                    e :: seg = before
                      ++ EvRewrite FORKED_REPOS_FILE
                           (others x (replay FORKED_REPOS_FILE before lines))
                      :: EvApi (create_call source_repo token) r :: after /\
                    In (x, token) users).
  { intros Hin'.
    destruct (IH _ x H Hin') as (before & token & r & after & -> & Hu).
    { change (e :: seg) with ([e] ++ seg) in Hout; rewrite replay_app in Hout; exact Hout. }
    exists (e :: before), token, r, after; split; [|exact Hu].
    change (e :: before) with ([e] ++ before); rewrite replay_app; reflexivity. }
  destruct e as [call r0|f line|f new_lines|n|lvl msg|msg]; try (apply Hstep; exact Hin).
  - apply Hstep; cbn [replay]; destruct (file_eqb FORKED_REPOS_FILE f); auto.
    apply add_line_keeps; exact Hin.
  - destruct He as [-> (u & t & r & rest' & Hu & Hl & -> & ->)].
    destruct (string_dec x u) as [->|Hne].
    + exists [], t, r, rest'; split; [reflexivity | exact Hu].
    + apply Hstep; cbn [replay file_eqb].
      unfold others; apply filter_In; split; [exact Hin|].
      apply negb_true_iff, String.eqb_neq; exact Hne.
Qed.

Lemma keeps_not_rewrite e : keeps_files e -> not_rewrite e.
Proof. unfold keeps_files; destruct e; simpl; auto; discriminate. Qed.

Lemma mends_of_ends {A} k users source_repo (m : M World A) :
  ends k keeps_files m -> mends users source_repo m.
Proof.
  intros H st; specialize (H st); unfold mends_at.
  assert (Hgoal : forall st' seg,
             follows keeps_files st st' seg ->
             exists seg,
               trace st' = trace st ++ seg /\
               forked_file st' = replay FORKED_REPOS_FILE seg (forked_file st) /\
               repairs_only users source_repo (forked_file st) seg).
  { intros st' seg F; exists seg; split; [exact (fl_trace _ _ _ _ F)|].
    split; [exact (fl_files _ _ _ _ F FORKED_REPOS_FILE)|].
    apply repairs_only_plain.
    eapply Forall_impl; [apply keeps_not_rewrite | exact (fl_events _ _ _ _ F)]. }
  destruct (m st) as [a st'|e st'|]; auto.
  - destruct H as [seg H]; eauto.
  - destruct H as [_ [seg H]]; eauto.
Qed.

Lemma mends_ret {A} users source_repo (a : A) :
  mends users source_repo (ret (World := World) a).
Proof. apply (mends_of_ends true), ends_ret. Qed.

Lemma mends_bind {A B} users source_repo (m : M World A) (f : A -> M World B) :
  mends users source_repo m ->
  (forall a, mends users source_repo (f a)) ->
  mends users source_repo (bind m f).
Proof.
  intros Hm Hf st; specialize (Hm st); unfold mends_at, bind in *.
  destruct (m st) as [a st1|e st1|]; auto.
  destruct Hm as (seg1 & T1 & F1 & R1).
  specialize (Hf a st1); unfold mends_at in Hf.
  destruct (f a st1) as [b st2|e st2|]; auto;
    destruct Hf as (seg2 & T2 & F2 & R2); exists (seg1 ++ seg2);
    (split; [rewrite T2, T1, app_assoc; reflexivity|]);
    (split; [rewrite F2, F1, replay_app; reflexivity|]);
    (apply repairs_only_app; [exact R1 | rewrite <- F1; exact R2]).
Qed.

Lemma mends_for_each {A S} users source_repo (body : A -> S -> M World S) xs :
  (forall x s, In x xs -> mends users source_repo (body x s)) ->
  forall s, mends users source_repo (for_each body xs s).
Proof.
  induction xs as [|x xs IH]; intros Hb s; cbn [for_each].
  - apply mends_ret.
  - apply mends_bind; [apply Hb; left; reflexivity|].
    intros s'; apply IH; intros; apply Hb; right; assumption.
Qed.

Lemma mends_at_read {A B} users source_repo (f : State World -> A) (g : A -> M World B) st :
  mends_at users source_repo (g (f st)) st ->
  mends_at users source_repo (bind (fun s => Normal (f s) s) g) st.
Proof. unfold mends_at, bind; auto. Qed.

(** [create_new_fork]: the repair, if any, comes first and is followed at
    once by the creation request; nothing after it rewrites a checklist. *)
Lemma create_new_fork_repairs_first username token owner name (st : State World) :
  let source_repo := (owner ++ "/" ++ name)%string in
  exists b st' r post,
    create_new_fork gateway username token source_repo st = Normal b st' /\
    trace st' = trace st
                ++ (if PyStr.mem username (forked_file st)
                    then [EvRewrite FORKED_REPOS_FILE (others username (forked_file st))]
                    else [])
                ++ EvApi (create_call source_repo token) r :: post /\
    Forall not_rewrite post.
Proof.
  intros source_repo.
  destruct (create_new_fork_run username token owner name st)
    as (b & st' & post & E & T & F).
  fold source_repo in E, T, F.
  eexists b, st', _, post; split; [exact E|]; split.
  { rewrite T, trace_repaired, <- app_assoc; reflexivity. }
  destruct (split_slash_second owner name) as [second Hsecond].
  fold source_repo in Hsecond.
  rewrite (create_new_fork_eq _ _ _ _ st Hsecond) in E; cbv zeta in E.
  rewrite trace_repaired in T.
  destruct (success _ || fork_error_converges _).
  + destruct (ends_after_creation_request _ _
                (answered gateway (repaired st username) (create_call source_repo token))
                (reply_to gateway (repaired st username) (create_call source_repo token))
                (follow_up_events_quiet username)
                (ends_fork_follow_up_files username token
                   (username ++ "/" ++ second)%string))
      as (b2 & st2 & seg & E2 & H2).
    rewrite E2 in E; injection E as <- <-.
    rewrite (fl_trace _ _ _ _ H2) in T; cbn [trace answered] in T.
    rewrite trace_repaired, <- !app_assoc in T.
    apply app_inv_head in T; apply app_inv_head in T.
    injection T as <-.
    eapply Forall_impl; [|exact (fl_events _ _ _ _ H2)].
    intros e; destruct e; simpl; auto.
  + injection E as <- <-.
    cbn [trace emitted answered] in T.
    rewrite trace_repaired, <- !app_assoc in T.
    apply app_inv_head in T; apply app_inv_head in T.
    injection T as <-; repeat constructor.
Qed.

Lemma mends_create_new_fork users username token owner name :
  In (username, token) users ->
  mends users (owner ++ "/" ++ name)%string
    (create_new_fork gateway username token (owner ++ "/" ++ name)%string).
Proof.
  intros Hin st; unfold mends_at.
  destruct (create_new_fork_repairs_first username token owner name st)
    as (b & st' & r & post & E & T & F).
  destruct (ends_normal _ _ (ends_create_new_fork gateway true username token owner name) st)
    as (b2 & st2 & seg & E2 & H).
  rewrite E in E2; injection E2 as <- <-.
  rewrite E.
  pose proof (fl_trace _ _ _ _ H) as T2; rewrite T in T2; apply app_inv_head in T2.
  exists seg; split; [exact (fl_trace _ _ _ _ H)|].
  split; [exact (fl_files _ _ _ _ H FORKED_REPOS_FILE)|].
  rewrite <- T2.
  destruct (PyStr.mem username (forked_file st)) eqn:Em; cbn [app].
  - split.
    + split; [reflexivity|].
      exists username, token, r, post; repeat split; auto.
      apply mem_In; exact Em.
    + apply repairs_only_plain; constructor; [exact I | exact F].
  - apply repairs_only_plain; constructor; [exact I | exact F].
Qed.

Lemma mends_process_account users action main repo username token c :
  In (username, token) users ->
  mends users (main ++ "/" ++ repo)%string
    (process_account gateway action (main ++ "/" ++ repo)%string repo (username, token) c).
Proof.
  intros Hin; unfold process_account; cbn [fst snd].
  apply mends_bind.
  { apply (mends_of_ends true).
    eapply ends_weaken; [apply check_events_keep | apply ends_check_if_correct_fork]. }
  intros valid.
  assert (Hcreate : forall (f : bool -> ForkCounts),
             mends users (main ++ "/" ++ repo)%string
               (created <- create_new_fork gateway username token (main ++ "/" ++ repo)%string ;;
                sleep 2 ;; ret (f created))).
  { intros f; apply mends_bind; [apply mends_create_new_fork; exact Hin|].
    intros b; apply (mends_of_ends true); ends_tac; reflexivity. }
  destruct (String.eqb action "2").
  - apply mends_bind.
    { apply (mends_of_ends true); ends_tac; reflexivity. }
    intros r; apply mends_bind.
    { destruct (success r); [|apply mends_ret].
      apply (mends_of_ends true).
      eapply ends_weaken; [apply delete_events_keep | apply ends_delete_repository]. }
    intros deleted; destruct (negb deleted); [apply mends_ret|].
    apply (Hcreate (fun created => if created then _ else _)).
  - destruct (String.eqb action "1").
    + destruct valid.
      * apply mends_bind.
        { apply (mends_of_ends true).
          eapply ends_weaken; [apply sync_events_keep | apply ends_sync_fork_with_upstream]. }
        intros b; apply (mends_of_ends true); ends_tac; reflexivity.
      * apply mends_bind.
        { apply (mends_of_ends true); ends_tac; reflexivity. }
        intros _; apply (Hcreate (fun created => if created then _ else _)).
    + apply (mends_of_ends true); ends_tac; reflexivity.
Qed.

Lemma invoke_auto_create_or_sync_fork_mends (st : State World) config :
  config_file st = Some config ->
  mends_at (users_to_process_of (main_account_username config) (cache_of st))
    (main_account_username config ++ "/" ++ main_repo_name config)%string
    (invoke_auto_create_or_sync_fork gateway) st.
Proof.
  intros Hc.
  unfold invoke_auto_create_or_sync_fork, load_config, load_token_cache, cache_of.
  apply mends_at_read; rewrite Hc.
  apply mends_at_read.
  destruct (token_cache_file st) as [[|item cache]|];
    try (apply (mends_of_ends true); ends_tac; reflexivity).
  set (users := users_to_process_of (main_account_username config) (item :: cache)).
  destruct users as [|user users'] eqn:Eusers; [apply mends_ret|].
  rewrite <- Eusers in *.
  apply mends_bind.
  { apply (mends_of_ends true); ends_tac; reflexivity. }
  intros _; apply mends_bind.
  { apply (mends_of_ends false); intros s.
    apply (ends_ask_mode keeps_files (stdin s)); intros e [_ He]; exact He. }
  intros action; apply mends_bind.
  { apply (mends_of_ends false); ends_tac; reflexivity. }
  intros proceed; destruct (negb proceed); [apply mends_ret|].
  apply mends_bind; [|intros; apply mends_ret].
  apply mends_for_each; intros [u t] s Hin.
  apply mends_process_account; exact Hin.
Qed.

(** C7. [create_new_fork] for an account found in the forked checklist
    first rewrites that checklist without the account, every other entry
    kept in place, and only then issues the creation request; nothing it
    does afterwards rewrites the checklist, and at its end the entries of
    the other accounts are what they were. No other path removes entries.
    Deletion and sync leave the forked checklist as it is. In a round of
    the orchestrator loop, in either mode and whatever the gateway
    answers, the forked checklist changes only as the file events of the
    round say, every rewrite among them is the repair of the round's own
    account with the creation request as the next event, and an entry that
    is gone after the round is the round's account, taken out by that
    repair. A whole run of the fork orchestrator keeps the entries of every
    account it does not process, and its rewrites are repairs of processed
    accounts only. The invite and accept flows keep the forked checklist
    unchanged. *)
Theorem stale_entry_repair_is_local :
  forall (st : State World),
    (forall username token owner name,
        let source_repo := (owner ++ "/" ++ name)%string in
        exists b st' r post,
          create_new_fork gateway username token source_repo st = Normal b st' /\
          trace st' = trace st
                      ++ (if PyStr.mem username (forked_file st)
                          then [EvRewrite FORKED_REPOS_FILE (others username (forked_file st))]
                          else [])
                      ++ EvApi (create_call source_repo token) r :: post /\
          Forall not_rewrite post /\
          others username (forked_file st') = others username (forked_file st)) /\
    (forall repo_path token,
        exists b st',
          delete_repository gateway repo_path token st = Normal b st' /\
          forked_file st' = forked_file st) /\
    (forall fork_repo token,
        exists b st',
          sync_fork_with_upstream gateway fork_repo token st = Normal b st' /\
          forked_file st' = forked_file st) /\
    (forall action main repo username token c,
        let source_repo := (main ++ "/" ++ repo)%string in
        exists c' st' seg,
          process_account gateway action source_repo repo (username, token) c st =
          Normal c' st' /\
          trace st' = trace st ++ seg /\
          forked_file st' = replay FORKED_REPOS_FILE seg (forked_file st) /\
          repairs_only [(username, token)] source_repo (forked_file st) seg /\
          forall x,
            In x (forked_file st) -> ~ In x (forked_file st') ->
            x = username /\
            exists before r after,
              seg = before
                    ++ EvRewrite FORKED_REPOS_FILE
                         (others username (replay FORKED_REPOS_FILE before (forked_file st)))
                    :: EvApi (create_call source_repo token) r :: after) /\
    (exists st' seg,
        final_state (invoke_auto_create_or_sync_fork gateway st) = Some st' /\
        trace st' = trace st ++ seg /\
        outside (processed st) (forked_file st') = outside (processed st) (forked_file st) /\
        forall config,
          config_file st = Some config ->
          forked_file st' = replay FORKED_REPOS_FILE seg (forked_file st) /\
          repairs_only
            (users_to_process_of (main_account_username config) (cache_of st))
            (main_account_username config ++ "/" ++ main_repo_name config)%string
            (forked_file st) seg) /\
    (exists st',
        final_state (invoke_auto_invite gateway st) = Some st' /\
        forked_file st' = forked_file st) /\
    (exists st',
        final_state (invoke_auto_accept gateway json_loads st) = Some st' /\
        forked_file st' = forked_file st).
Proof.
  intros st; repeat apply conj.
  - intros username token owner name source_repo.
    destruct (create_new_fork_repairs_first username token owner name st)
      as (b & st' & r & post & E & T & F).
    fold source_repo in E, T.
    pose proof (create_new_fork_frame username token source_repo st) as Hfr.
    rewrite E in Hfr; destruct Hfr as [Hfr _].
    exists b, st', r, post; auto.
  - intros repo_path token.
    rewrite delete_repository_eq; cbv zeta.
    destruct (success _); eexists _, _; split; reflexivity.
  - intros fork_repo token.
    rewrite sync_fork_with_upstream_eq; cbv zeta.
    destruct (success _ || sync_error_converges _); eexists _, _; split; reflexivity.
  - intros action main repo username token c source_repo.
    pose proof (mends_process_account [(username, token)] action main repo username token c
                  (or_introl eq_refl) st) as H.
    unfold mends_at in H; fold source_repo in H.
    destruct (ends_normal _ _ (ends_process_account true action main repo username token c) st)
      as (c' & st' & seg0 & E & _).
    fold source_repo in E; rewrite E in H.
    destruct H as (seg & T & Hf & R).
    exists c', st', seg; split; [exact E|]; split; [exact T|]; split; [exact Hf|].
    split; [exact R|].
    intros x Hin Hout; rewrite Hf in Hout.
    destruct (removal_is_repair _ _ _ _ _ R Hin Hout)
      as (before & t & r & after & Hseg & [[= <- <-]|[]]).
    split; [reflexivity|]; exists before, r, after; exact Hseg.
  - pose proof (invoke_auto_create_or_sync_fork_frame st) as H; unfold preserves_at in H.
    destruct (invoke_auto_create_or_sync_fork_follows st) as (st' & seg & E & F).
    exists st', seg; split; [exact E|]; split; [exact (fl_trace _ _ _ _ F)|].
    split.
    { destruct (invoke_auto_create_or_sync_fork gateway st); simpl in E;
        try discriminate; injection E as ->; apply H. }
    intros config Hc.
    pose proof (invoke_auto_create_or_sync_fork_mends st config Hc) as M.
    unfold mends_at in M.
    assert (Hsame : exists seg2,
               trace st' = trace st ++ seg2 /\
               forked_file st' = replay FORKED_REPOS_FILE seg2 (forked_file st) /\
               repairs_only
                 (users_to_process_of (main_account_username config) (cache_of st))
                 (main_account_username config ++ "/" ++ main_repo_name config)%string
                 (forked_file st) seg2).
    { destruct (invoke_auto_create_or_sync_fork gateway st); simpl in E;
        try discriminate; injection E as ->; exact M. }
    destruct Hsame as (seg2 & T2 & F2 & R2).
    pose proof (fl_trace _ _ _ _ F) as T; rewrite T2 in T; apply app_inv_head in T.
    subst seg2; auto.
  - destruct (invoke_auto_invite_follows st) as (st' & seg & E & H).
    exists st'; split; [exact E|].
    pose proof (fl_files _ _ _ _ H FORKED_REPOS_FILE) as Hf; cbn [get_file] in Hf.
    rewrite Hf; apply replay_spares.
    eapply Forall_impl; [|exact (fl_events _ _ _ _ H)].
    intros e [[_ He]|(cfg & p & u & _ & _ & _ & He)];
      destruct e; simpl in *; try discriminate; try contradiction; auto.
    destruct He as [-> _]; reflexivity.
  - destruct (invoke_auto_accept_follows st) as (st' & seg & E & H).
    exists st'; split; [exact E|].
    pose proof (fl_files _ _ _ _ H FORKED_REPOS_FILE) as Hf; cbn [get_file] in Hf.
    rewrite Hf; apply replay_spares.
    eapply Forall_impl; [|exact (fl_events _ _ _ _ H)].
    intros e [[_ He]|(t & u & _ & _ & He)];
      destruct e; simpl in *; try discriminate; try contradiction; auto.
    destruct He as [-> _]; reflexivity.
Qed.

End Claims.

(** ** Further properties of the code *)

Section YieldRules.

Context {World : Type}.
Variable gateway : World -> N -> ApiCall -> Reply World.
Variable json_loads : string -> PyExn + json.

Lemma yields_weaken {A} (Q Q' : A -> Prop) (X X' : PyExn -> Prop) (m : M World A) :
  (forall a, Q a -> Q' a) -> (forall e, X e -> X' e) -> yields Q X m -> yields Q' X' m.
Proof.
  intros HQ HX H st; specialize (H st); unfold yields_at in *.
  destruct (m st); auto.
Qed.

Lemma yields_ret {A} (Q : A -> Prop) X (a : A) : Q a -> yields Q X (ret (World := World) a).
Proof. intros H st; exact H. Qed.

Lemma yields_raise {A} (Q : A -> Prop) (X : PyExn -> Prop) e :
  X e -> yields Q X (raise (World := World) e).
Proof. intros H st; exact H. Qed.

Lemma yields_bind {A B} (Qm : A -> Prop) (Q : B -> Prop) X
      (m : M World A) (f : A -> M World B) :
  yields Qm X m -> (forall a, Qm a -> yields Q X (f a)) -> yields Q X (bind m f).
Proof.
  intros Hm Hf st; specialize (Hm st); unfold yields_at, bind in *.
  destruct (m st) as [a st1|e st1|]; auto.
  exact (Hf a Hm st1).
Qed.

Lemma yields_try_except {A} (Q : A -> Prop) (Xb X : PyExn -> Prop)
      (body handler : M World A) caught :
  yields Q Xb body -> yields Q X handler ->
  (forall e, Xb e -> caught e = false -> X e) ->
  yields Q X (try_except body caught handler).
Proof.
  intros Hb Hh Hx st; specialize (Hb st); unfold yields_at, try_except in *.
  destruct (body st) as [a st1|e st1|]; auto.
  destruct (caught e) eqn:E; [exact (Hh st1) | auto].
Qed.

(** A loop whose body adds [w x] to the measure [f] of the loop state. *)
Lemma yields_for_each_sum {A T} (f : T -> nat) (w : A -> nat) X
      (body : A -> T -> M World T) xs :
  (forall x s, In x xs -> yields (fun s' => f s' = (f s + w x)%nat) X (body x s)) ->
  forall s, yields (fun s' => f s' = (f s + list_sum (map w xs))%nat) X (for_each body xs s).
Proof.
  induction xs as [|x xs IH]; intros Hb s; cbn [for_each map].
  - apply yields_ret; simpl; lia.
  - eapply yields_bind; [apply Hb; left; reflexivity|].
    intros s1 H1; cbv beta in H1; eapply yields_weaken; [| |apply IH]; auto.
    + cbv beta; intros s2 H2; simpl in *; lia.
    + intros; apply Hb; right; assumption.
Qed.

(** A loop whose body adds at most one to the measure [f]. *)
Lemma yields_for_each_le {A T} (f : T -> nat) X (body : A -> T -> M World T) xs :
  (forall x s, In x xs -> yields (fun s' => f s' <= S (f s))%nat X (body x s)) ->
  forall s, yields (fun s' => f s' <= f s + List.length xs)%nat X (for_each body xs s).
Proof.
  induction xs as [|x xs IH]; intros Hb s; cbn [for_each List.length].
  - apply yields_ret; lia.
  - eapply yields_bind; [apply Hb; left; reflexivity|].
    intros s1 H1; cbv beta in H1; eapply yields_weaken; [| |apply IH]; auto.
    + cbv beta; intros s2 H2; simpl in *; lia.
    + intros; apply Hb; right; assumption.
Qed.

Lemma yields_pure {A} (Q : A -> Prop) X (f : State World -> A) :
  (forall st, Q (f st)) -> yields Q X (fun st => Normal (f st) st).
Proof. intros H st; apply H. Qed.

Lemma yields_emit X ev : yields (fun _ => True) X (emit (World := World) ev).
Proof. intros st; exact I. Qed.

Lemma yields_run_gh_api X command token max_retries timeout :
  yields (fun _ => True) X (run_gh_api gateway command token max_retries timeout).
Proof. intros st; exact I. Qed.

Lemma yields_sleep X n : yields (fun _ => True) X (sleep (World := World) n).
Proof. intros st; exact I. Qed.

Lemma yields_append_to_file X f line :
  yields (fun _ => True) X (append_to_file (World := World) f line).
Proof. intros st; exact I. Qed.

Lemma yields_write_lines X f lines :
  yields (fun _ => True) X (write_lines (World := World) f lines).
Proof. intros st; exact I. Qed.

Lemma yields_input (X : PyExn -> Prop) :
  X EOFError -> yields (fun _ => True) X (input (World := World)).
Proof. intros H st; unfold yields_at, input; destruct (stdin st); auto. Qed.

Lemma yields_index_error (X : PyExn -> Prop) r :
  X KeyError -> yields (fun _ => True) X (index_error (World := World) r).
Proof. intros H st; unfold yields_at, index_error; destruct (error r); simpl; auto. Qed.

Lemma yields_at_read {A B} (Q : B -> Prop) X (f : State World -> A) (g : A -> M World B) st :
  yields_at Q X (g (f st)) st ->
  yields_at Q X (bind (fun s => Normal (f s) s) g) st.
Proof. unfold yields_at, bind; auto. Qed.

End YieldRules.

Ltac yields_step :=
  match goal with
  | |- yields _ _ (bind _ _) => eapply (yields_bind (fun _ => True)); [ | intros ? _ ]
  | |- yields _ _ (ret _) => apply yields_ret
  | |- yields _ _ (raise _) => apply yields_raise
  | |- yields _ _ (run_gh_api _ _ _ _ _) => apply yields_run_gh_api
  | |- yields _ _ (sleep _) => apply yields_sleep
  | |- yields _ _ (print_error _) => apply yields_emit
  | |- yields _ _ (print_warning _) => apply yields_emit
  | |- yields _ _ (write_log _) => apply yields_emit
  | |- yields _ _ (append_to_file _ _) => apply yields_append_to_file
  | |- yields _ _ (write_lines _ _) => apply yields_write_lines
  | |- yields _ _ (read_file_lines _) => apply yields_pure; intros; exact I
  | |- yields _ _ time_now => apply yields_pure; intros; exact I
  | |- yields _ _ load_config => apply yields_pure; intros; exact I
  | |- yields _ _ load_token_cache => apply yields_pure; intros; exact I
  | |- yields _ _ input => apply yields_input
  | |- yields _ _ (index_error _) => apply yields_index_error
  | |- yields _ _ (disable_workflow _ _ _ _) => unfold disable_workflow
  | |- yields _ _ (if ?b then _ else _) => destruct b eqn:?
  | |- yields _ _ (match ?x with _ => _ end) => destruct x eqn:?
  end.

Ltac yields_tac := repeat yields_step; simpl; auto.

Section Results.

Context {World : Type}.
Variable gateway : World -> N -> ApiCall -> Reply World.
Variable json_loads : string -> PyExn + json.

(** *** Which exceptions end a flow *)

Lemma yields_check_if_correct_fork p t e :
  yields (fun _ => True) never (check_if_correct_fork gateway p t e).
Proof. unfold check_if_correct_fork; yields_tac. Qed.

Lemma yields_delete_repository p t :
  yields (fun _ => True) never (delete_repository gateway p t).
Proof. unfold delete_repository; yields_tac. Qed.

Lemma yields_sync_fork_with_upstream p t :
  yields (fun _ => True) never (sync_fork_with_upstream gateway p t).
Proof. unfold sync_fork_with_upstream, get_default_branch; yields_tac. Qed.

Lemma yields_poll_fork fuel p t start :
  yields (fun _ => True) never (poll_fork gateway fuel p t start).
Proof.
  induction fuel as [|fuel IH]; cbn [poll_fork].
  - yields_tac. intros st; exact I.
  - repeat (yields_step; simpl; auto).
Qed.

Lemma yields_wait_for_fork p t :
  yields (fun _ => True) never (wait_for_fork gateway p t).
Proof.
  unfold wait_for_fork.
  eapply (yields_bind (fun _ => True)); [yields_tac|]; intros start _.
  eapply (yields_bind (fun _ => True)); [apply yields_poll_fork|]; intros b _.
  yields_tac.
Qed.

Lemma yields_create_new_fork username token owner name :
  yields (fun _ => True) never
    (create_new_fork gateway username token (owner ++ "/" ++ name)%string).
Proof.
  unfold create_new_fork.
  destruct (split_slash_second owner name) as [second ->].
  repeat (yields_step; simpl; auto).
  apply yields_wait_for_fork.
Qed.

Lemma yields_weaken_never {A} (Q : A -> Prop) (X : PyExn -> Prop) (m : M World A) :
  yields Q never m -> yields Q X m.
Proof. apply yields_weaken; auto; intros e []. Qed.

Lemma yields_at_intro {A} (Q : A -> Prop) X (m : M World A) st :
  yields Q X m -> yields_at Q X m st.
Proof. intros H; exact (H st). Qed.

Lemma yields_for_each_any {A T} X (body : A -> T -> M World T) xs :
  (forall x s, yields (fun _ => True) X (body x s)) ->
  forall s, yields (fun _ => True) X (for_each body xs s).
Proof.
  intros Hb; induction xs as [|x xs IH]; intros s; cbn [for_each].
  - apply yields_ret; exact I.
  - eapply (yields_bind (fun _ => True)); [apply Hb | intros s' _; apply IH].
Qed.

Lemma list_sum_ones {A} (xs : list A) : list_sum (map (fun _ => 1%nat) xs) = List.length xs.
Proof. induction xs; simpl; auto. Qed.

(** One round of the fork orchestrator in either mode ends normally and
    adds one to exactly one of its two counters. *)
Lemma yields_process_account action main repo item c :
  action = "1"%string \/ action = "2"%string ->
  yields (fun c' => fork_total c' = S (fork_total c)) never
    (process_account gateway action (main ++ "/" ++ repo)%string repo item c).
Proof.
  intros Haction; unfold process_account.
  eapply (yields_bind (fun _ => True)); [apply yields_check_if_correct_fork|].
  intros valid _.
  destruct Haction as [-> | ->].
  - change (String.eqb "1" "2") with false; change (String.eqb "1" "1") with true; cbv iota.
    repeat (yields_step
            || apply yields_sync_fork_with_upstream
            || apply yields_create_new_fork);
      auto;
      unfold fork_total;
      repeat match goal with |- context [if ?b then _ else _] => destruct b end;
      simpl; lia.
  - change (String.eqb "2" "2") with true; cbv iota.
    repeat (yields_step
            || apply yields_delete_repository
            || apply yields_create_new_fork);
      auto;
      unfold fork_total;
      repeat match goal with |- context [if ?b then _ else _] => destruct b end;
      simpl; lia.
Qed.

Lemma valid_mode action :
  PyStr.mem action ["1"; "2"]%string = true -> action = "1"%string \/ action = "2"%string.
Proof.
  intros H; apply mem_In in H; simpl in H.
  destruct H as [H|[H|[]]]; auto.
Qed.

Lemma yields_ask_mode pending :
  yields (fun action => action = "1"%string \/ action = "2"%string) (eq EOFError)
    (ask_mode (World := World) pending).
Proof.
  induction pending as [|line pending IH]; cbn [ask_mode].
  - yields_tac.
  - eapply (yields_bind (fun _ => True)); [yields_tac|]; intros answer _.
    destruct (PyStr.mem (PyStr.strip answer) ["1"; "2"]%string) eqn:E.
    + apply yields_ret, valid_mode, E.
    + eapply (yields_bind (fun _ => True)); [yields_tac | intros _ _; exact IH].
Qed.

(** The result and the exceptions of a whole run of the fork orchestrator
    started in [st]. *)
Lemma invoke_auto_create_or_sync_fork_yields (st : State World) :
  yields_at
    (fun r => forall c, r = Some c -> fork_total c = List.length (processed st))
    (eq EOFError)
    (invoke_auto_create_or_sync_fork gateway) st.
Proof.
  unfold invoke_auto_create_or_sync_fork, load_config, load_token_cache, processed, cache_of.
  apply yields_at_read.
  destruct (config_file st) as [config|];
    [|apply yields_at_intro; yields_tac; discriminate].
  apply yields_at_read.
  destruct (token_cache_file st) as [[|item cache]|];
    try (apply yields_at_intro; yields_tac; discriminate).
  set (users := users_to_process_of (main_account_username config) (item :: cache)).
  destruct users as [|user users'] eqn:Eusers;
    [apply yields_at_intro, yields_ret; discriminate|].
  rewrite <- Eusers.
  apply yields_at_intro.
  eapply (yields_bind (fun _ => True)); [yields_tac|]; intros _ _.
  eapply (yields_bind (fun action => action = "1"%string \/ action = "2"%string)).
  { intros s; apply (yields_ask_mode (stdin s)). }
  intros action Haction.
  eapply (yields_bind (fun _ => True)); [yields_tac|]; intros proceed _.
  destruct (negb proceed); [apply yields_ret; discriminate|].
  eapply (yields_bind (fun c => fork_total c = List.length users)).
  - eapply yields_weaken;
      [| |apply (yields_for_each_sum fork_total (fun _ => 1%nat) never)].
    + cbv beta; intros c H; rewrite list_sum_ones in H; exact H.
    + intros e [].
    + intros x s _; eapply yields_weaken; [| |apply yields_process_account; exact Haction];
        auto; cbv beta; intros; lia.
  - intros c Hc; apply yields_ret; intros c0 [= <-].
    rewrite length_map; exact Hc.
Qed.

(** X2. When a run of the fork orchestrator reaches its final report, the
    two counters add up to the number of accounts to process: every account
    is counted exactly once, as a success or as a failure. *)
Theorem fork_report_adds_up :
  forall (st st' : State World) (c : ForkCounts),
    invoke_auto_create_or_sync_fork gateway st = Normal (Some c) st' ->
    (success_count c + failed_count c)%nat = List.length (processed st).
Proof.
  intros st st' c H.
  pose proof (invoke_auto_create_or_sync_fork_yields st) as Y; unfold yields_at in Y.
  rewrite H in Y; exact (Y c eq_refl).
Qed.

(** *** The dictionary of accounts to process *)

Lemma dict_set_keys_In k v d u :
  In u (map fst (dict_set k v d)) <-> u = k \/ In u (map fst d).
Proof using.
  clear gateway json_loads.
  induction d as [|[k0 v0] d IH]; simpl.
  - intuition.
  - destruct (String.eqb k0 k) eqn:E; simpl.
    + apply String.eqb_eq in E; subst; intuition.
    + rewrite IH; intuition.
Qed.

Lemma dict_set_NoDup k v d : NoDup (map fst d) -> NoDup (map fst (dict_set k v d)).
Proof using.
  clear gateway json_loads.
  induction d as [|[k0 v0] d IH]; simpl; intros H.
  - constructor; [intros []|constructor].
  - inversion H as [|? ? Hnot Hnd]; subst.
    destruct (String.eqb k0 k) eqn:E; simpl.
    + apply String.eqb_eq in E; subst; constructor; assumption.
    + constructor; [|apply IH; assumption].
      rewrite dict_set_keys_In; intros [->|Hin]; [|contradiction].
      rewrite String.eqb_refl in E; discriminate.
Qed.

Lemma dict_set_has k v d : In (k, v) (dict_set k v d).
Proof using.
  clear gateway json_loads.
  induction d as [|[k0 v0] d IH]; simpl; auto.
  destruct (String.eqb k0 k); simpl; auto.
Qed.

Lemma dict_set_other k v d k' v' :
  k' <> k -> In (k', v') d -> In (k', v') (dict_set k v d).
Proof using.
  clear gateway json_loads.
  intros Hne; induction d as [|[k0 v0] d IH]; simpl; [intros []|].
  destruct (String.eqb k0 k) eqn:E; simpl.
  - apply String.eqb_eq in E; subst.
    intros [[= -> ->]|H]; [contradiction | auto].
  - intros [H|H]; auto.
Qed.

Lemma collect_keys main_username entries :
  forall d,
    NoDup (map fst d) ->
    NoDup (map fst (collect main_username entries d)) /\
    forall u, In u (map fst (collect main_username entries d)) <->
              In u (map fst d) \/ (In u (map snd entries) /\ u <> main_username).
Proof using.
  clear gateway json_loads.
  unfold collect; induction entries as [|[t u0] entries IH]; intros d Hd; simpl.
  - split; [assumption|]; intuition.
  - destruct (String.eqb u0 main_username) eqn:E; simpl.
    + destruct (IH d Hd) as [H1 H2]; split; [assumption|].
      intros u; rewrite H2. apply String.eqb_eq in E; subst.
      intuition; subst; intuition.
    + destruct (IH (dict_set u0 t d) (dict_set_NoDup _ _ _ Hd)) as [H1 H2].
      split; [assumption|].
      intros u; rewrite H2, dict_set_keys_In. apply String.eqb_neq in E.
      intuition; subst; intuition.
Qed.

Lemma collect_keeps main_username entries u t :
  ~ In u (map snd entries) ->
  forall d, In (u, t) d -> In (u, t) (collect main_username entries d).
Proof using.
  clear gateway json_loads.
  unfold collect; induction entries as [|[t0 u0] entries IH]; intros Hnot d Hin; simpl; auto.
  simpl in Hnot.
  apply IH; [intuition|].
  destruct (negb (String.eqb u0 main_username)); auto.
  apply dict_set_other; auto.
Qed.

Lemma collect_app main_username pre post d :
  collect main_username (pre ++ post) d =
  collect main_username post (collect main_username pre d).
Proof using.
  unfold collect; apply fold_left_app.
Qed.

(** X3. [users_to_process] is a dictionary keyed by account: no account
    occurs twice, and its accounts are exactly the cached user names other
    than the main account's. *)
Theorem users_to_process_accounts :
  forall (main_username : string) (token_cache : list (string * string)),
    NoDup (map fst (users_to_process_of main_username token_cache)) /\
    forall username,
      In username (map fst (users_to_process_of main_username token_cache)) <->
      In username (map snd token_cache) /\ username <> main_username.
Proof using.
  clear gateway json_loads.
  intros main_username token_cache.
  destruct (collect_keys main_username token_cache [] (NoDup_nil _)) as [H1 H2].
  split; [exact H1|].
  intros u.
  change (users_to_process_of main_username token_cache)
    with (collect main_username token_cache []).
  rewrite H2; simpl; intuition.
Qed.

(** X4. When several tokens are cached for one account, the account is
    processed with the token of its last cache entry, and with no other. *)
Theorem users_to_process_last_token :
  forall (main_username : string) (before after : list (string * string))
         (token username : string),
    username <> main_username ->
    ~ In username (map snd after) ->
    let users := users_to_process_of main_username (before ++ (token, username) :: after) in
    In (username, token) users /\
    forall token', In (username, token') users -> token' = token.
Proof using.
  clear gateway json_loads.
  intros main_username before after token username Hmain Hafter users.
  assert (Hin : In (username, token) users).
  { subst users.
    change (users_to_process_of main_username (before ++ (token, username) :: after))
      with (collect main_username (before ++ (token, username) :: after) []).
    rewrite collect_app.
    change ((token, username) :: after) with ([(token, username)] ++ after).
    rewrite collect_app; apply collect_keeps; [exact Hafter|].
    unfold collect at 1; simpl.
    apply String.eqb_neq in Hmain; rewrite Hmain; simpl.
    apply dict_set_has. }
  split; [exact Hin|].
  intros token' Hin'.
  destruct (users_to_process_accounts main_username
              (before ++ (token, username) :: after)) as [Hnd _].
  fold users in Hnd.
  eapply NoDup_fst_unique; eauto.
Qed.

(** *** Splitting the source path *)

Lemma split_slash_plain s : has_slash s = false -> PyStr.split_slash s = [s].
Proof using.
  clear gateway json_loads.
  induction s as [|c s IH]; simpl; auto.
  destruct (Ascii.eqb c "/"); simpl; [discriminate|].
  intros H; rewrite (IH H); reflexivity.
Qed.

Lemma split_slash_pair owner name :
  has_slash owner = false -> has_slash name = false ->
  PyStr.split_slash (owner ++ "/" ++ name)%string = [owner; name].
Proof using.
  clear gateway json_loads.
  intros Ho Hn.
  change (owner ++ "/" ++ name)%string with (owner ++ String "/" name)%string.
  induction owner as [|c owner IH]; simpl.
  - rewrite split_slash_plain; auto.
  - simpl in Ho; destruct (Ascii.eqb c "/"); simpl in Ho; [discriminate|].
    rewrite (IH Ho); reflexivity.
Qed.

(** *** The invitation generator *)

Lemma find_invitation_cons target_repo inv rest :
  find_invitation target_repo (inv :: rest) =
  match full_name_of inv with
  | None => inl AttributeError
  | Some full_name =>
      if String.eqb (PyStr.lower full_name) target_repo
      then match inv with
           | JObj fields =>
               match dict_get "id" fields with
               | Some inv_id => inr (Some inv_id)
               | None => inl KeyError
               end
           | _ => inl AttributeError
           end
      else find_invitation target_repo rest
  end.
Proof using.
  clear gateway json_loads.
  cbn [find_invitation]; unfold full_name_of.
  destruct inv; try reflexivity.
  destruct (match dict_get "repository" fields with Some r => r | None => JObj [] end);
    try reflexivity.
  destruct (match dict_get "full_name" fields0 with Some n => n | None => JStr "" end);
    reflexivity.
Qed.

(** X5. The invitation lookup of the accept flow is a first-match search
    that never looks past its result. Over invitations whose repository
    name it can read and that are for other repositories it finds nothing;
    after such a prefix, the first invitation for the target repository
    decides: its id is the result, or KeyError when it has none; and an
    entry whose repository name cannot be read (not an object, or a name
    that is not a string) raises AttributeError. What follows that entry is
    never examined. *)
Theorem find_invitation_first_match :
  forall (target_repo : string) (skipped : list json),
    Forall (skipped_by target_repo) skipped ->
    find_invitation target_repo skipped = inr None /\
    (forall inv rest inv_id,
        offers target_repo inv inv_id ->
        find_invitation target_repo (skipped ++ inv :: rest) = inr (Some inv_id)) /\
    (forall fields full_name rest,
        full_name_of (JObj fields) = Some full_name ->
        PyStr.lower full_name = target_repo ->
        dict_get "id" fields = None ->
        find_invitation target_repo (skipped ++ JObj fields :: rest) = inl KeyError) /\
    (forall inv rest,
        full_name_of inv = None ->
        find_invitation target_repo (skipped ++ inv :: rest) = inl AttributeError).
Proof.
  intros target_repo skipped H.
  induction H as [|inv0 skipped (s & Hs & Hne) _ (IH1 & IH2 & IH3 & IH4)].
  - split; [reflexivity|]; split; [|split].
    + intros inv rest inv_id (fields & s & -> & Hs & Heq & Hid).
      cbn [app]; rewrite find_invitation_cons, Hs.
      apply String.eqb_eq in Heq; rewrite Heq, Hid; reflexivity.
    + intros fields s rest Hs Heq Hid.
      cbn [app]; rewrite find_invitation_cons, Hs.
      apply String.eqb_eq in Heq; rewrite Heq, Hid; reflexivity.
    + intros inv rest Hs.
      cbn [app]; rewrite find_invitation_cons, Hs; reflexivity.
  - apply String.eqb_neq in Hne.
    split; [|split; [|split]]; intros; cbn [app];
      rewrite find_invitation_cons, Hs, Hne; eauto.
Qed.

(** *** The readiness poll and the creation of a fork *)

Lemma follows_answered (P : Event -> Prop) (st : State World) call :
  P (EvApi call (reply_to gateway st call)) ->
  follows P st (answered gateway st call) [EvApi call (reply_to gateway st call)].
Proof. intros HP; constructor; simpl; auto; try lia; discriminate. Qed.

Lemma follows_slept (P : Event -> Prop) (st : State World) n :
  P (EvSleep n) -> follows P st (slept st n) [EvSleep n].
Proof. intros HP; constructor; simpl; auto; lia. Qed.

Lemma poll_events_keep p t e : poll_events p t e -> keeps_files e.
Proof. unfold keeps_files; destruct e; simpl; auto; contradiction. Qed.

Lemma follows_poll_files p t (st st' : State World) seg :
  follows (poll_events p t) st st' seg ->
  forall f, get_file f st' = get_file f st.
Proof.
  intros H f; rewrite (fl_files _ _ _ _ H f); apply replay_keeps_files.
  eapply Forall_impl; [|exact (fl_events _ _ _ _ H)]. apply poll_events_keep.
Qed.

(** The rounds of the poll: each one issues one probe and, when the probe
    fails, sleeps; a round only starts before the timeout. *)
Lemma poll_fork_probes p t start :
  forall fuel (st : State World),
    (start <= clock st)%N ->
    (POLL_TIMEOUT <= (clock st - start) + POLL_INTERVAL * N.of_nat fuel)%N ->
    exists b st' seg,
      poll_fork gateway fuel p t start st = Normal b st' /\
      follows (poll_events p t) st st' seg /\
      (List.length (filter is_api seg) = 0%nat \/
       (5 * N.of_nat (List.length (filter is_api seg)) + (clock st - start) <= 124)%N) /\
      (b = true ->
       exists pre r, seg = pre ++ [EvApi (exists_call p t) r] /\ success r = true).
Proof.
  induction fuel as [|fuel IH]; intros st Hle Hfuel.
  - cbn [poll_fork]; unfold bind, time_now.
    destruct (N.ltb_spec (clock st - start) POLL_TIMEOUT);
      [unfold POLL_TIMEOUT, POLL_INTERVAL in *; lia|].
    exists false, st, []; split; [reflexivity|]; split; [apply follows_refl|];
        split; [left; reflexivity | discriminate].
  - cbn [poll_fork]; unfold bind at 1; unfold time_now at 1.
    destruct (N.ltb_spec (clock st - start) POLL_TIMEOUT) as [Hlt|Hge].
    2:{ exists false, st, []; split; [reflexivity|]; split; [apply follows_refl|];
        split; [left; reflexivity | discriminate]. }
    unfold bind at 1; rewrite run_gh_api_eq; fold (exists_call p t).
    set (r := reply_to gateway st (exists_call p t)).
    set (st1 := answered gateway st (exists_call p t)).
    assert (H1 : follows (poll_events p t) st st1 [EvApi (exists_call p t) r])
      by (apply follows_answered; reflexivity).
    unfold POLL_TIMEOUT, POLL_INTERVAL in *.
    destruct (success r) eqn:Er.
    + exists true, st1, [EvApi (exists_call p t) r]; split; [reflexivity|].
      split; [exact H1|]; split; [right; cbn [filter is_api List.length]; lia|].
      intros _; exists [], r; auto.
    + unfold bind at 1; unfold sleep at 1; fold (slept st1 5).
      set (st2 := slept st1 5).
      assert (H2 : follows (poll_events p t) st1 st2 [EvSleep 5])
        by (apply follows_slept; exact I).
      pose proof (fl_clock _ _ _ _ H1) as Hc1.
      assert (Hc2 : clock st2 = (clock st1 + 5)%N) by reflexivity.
      destruct (IH st2 ltac:(lia) ltac:(lia)) as (b & st3 & seg & E3 & H3 & N3 & L3).
      exists b, st3, ([EvApi (exists_call p t) r] ++ [EvSleep 5] ++ seg).
      split; [exact E3|]; split.
      { eapply follows_trans; [exact H1|]; eapply follows_trans; eauto. }
      split.
      * right; cbn [app filter is_api List.length].
        destruct N3 as [-> | N3]; lia.
      * intros Hb; destruct (L3 Hb) as (pre & r' & -> & Hr').
        exists (EvApi (exists_call p t) r :: EvSleep 5 :: pre), r'; auto.
Qed.

Lemma wait_for_fork_probes p t (st : State World) :
  exists b st' seg,
    wait_for_fork gateway p t st = Normal b st' /\
    follows (poll_events p t) st st' seg /\
    (List.length (filter is_api seg) <= 24)%nat /\
    (b = true ->
     exists pre r, seg = pre ++ [EvApi (exists_call p t) r] /\ success r = true).
Proof.
  destruct (poll_fork_probes p t (clock st) poll_fuel st ltac:(lia)
              ltac:(unfold POLL_TIMEOUT, POLL_INTERVAL, poll_fuel; lia))
    as (b & st1 & seg & E & H & Hn & Hl).
  unfold wait_for_fork; unfold bind at 1; unfold time_now at 1.
  unfold bind at 1; rewrite E.
  assert (Hcount : (List.length (filter is_api seg) <= 24)%nat)
    by (destruct Hn as [-> | Hn]; lia).
  destruct b; cbn [negb].
  - exists true, st1, seg; auto.
  - unfold bind, print_error, emit, ret.
    fold (emitted st1 (EvPrint LvlError "    ❌ Timeout: Fork was not ready in time.")).
    eexists false, _, (seg ++ [_]); split; [reflexivity|]; split.
    + eapply follows_trans; [exact H|].
      apply follows_emitted; [exact I | split; reflexivity].
    + split; [|discriminate].
      rewrite filter_app; simpl; rewrite app_nil_r; exact Hcount.
Qed.

(** X6. One readiness poll issues at most 24 gateway calls, each of them
    the existence probe of the fork path, whatever the remote side answers
    and however long its answers take. *)
Theorem readiness_poll_probes_at_most_24 :
  forall (st : State World) (fork_repo_path token : string),
    exists b st' seg,
      wait_for_fork gateway fork_repo_path token st = Normal b st' /\
      trace st' = trace st ++ seg /\
      (List.length (filter is_api seg) <= 24)%nat /\
      forall call r, In (EvApi call r) seg -> call = exists_call fork_repo_path token.
Proof.
  intros st p t.
  destruct (wait_for_fork_probes p t st) as (b & st' & seg & E & H & Hn & _).
  exists b, st', seg; split; [exact E|]; split; [exact (fl_trace _ _ _ _ H)|].
  split; [exact Hn|].
  intros call r Hin.
  pose proof (fl_events _ _ _ _ H) as F; rewrite Forall_forall in F.
  exact (F _ Hin).
Qed.

Lemma not_in_repaired (st : State World) username :
  ~ In username (forked_file (repaired st username)).
Proof.
  unfold repaired; destruct (PyStr.mem username (forked_file st)) eqn:E.
  - simpl; unfold others; intros H; apply filter_In in H as [_ H].
    rewrite String.eqb_refl in H; discriminate.
  - apply mem_not_In; exact E.
Qed.

(** A run of [create_new_fork], from the creation request on. *)
Lemma create_new_fork_shape username token source_repo name (st : State World) :
  nth_error (PyStr.split_slash source_repo) 1 = Some name ->
  let path := (username ++ "/" ++ name)%string in
  let st0 := repaired st username in
  exists b st' post,
    create_new_fork gateway username token source_repo st = Normal b st' /\
    trace st' = trace st0
                ++ EvApi (create_call source_repo token)
                     (reply_to gateway st0 (create_call source_repo token)) :: post /\
    if b
    then exists seg r_probe r_disable,
        post = seg ++ [EvApi (exists_call path token) r_probe;
                       EvApi (disable_call path token) r_disable;
                       EvAppend FORKED_REPOS_FILE username] /\
        Forall (poll_events path token) seg /\
        success r_probe = true /\
        forked_file st' = add_line (forked_file st0) username
    else Forall (poll_events path token) post /\
         forked_file st' = forked_file st0.
Proof.
  intros Hname path st0.
  rewrite (create_new_fork_eq gateway _ _ _ _ st Hname); cbv zeta; fold st0 path.
  set (r := reply_to gateway st0 (create_call source_repo token)).
  set (st1 := answered gateway st0 (create_call source_repo token)).
  destruct (success r || fork_error_converges (PyStr.lower (get_error r))).
  2:{ eexists false, _, _; split; [reflexivity|]; split.
      - cbn [trace emitted]; subst st1; cbn [trace answered].
        rewrite <- !app_assoc; reflexivity.
      - split; [repeat constructor | reflexivity]. }
  set (st1a := after_creation_request st1 r).
  assert (Hw : exists w,
             trace st1a = trace st1 ++ w /\
             Forall (poll_events path token) w /\
             forked_file st1a = forked_file st1).
  { subst st1a; unfold after_creation_request; destruct (success r).
    - exists []; rewrite app_nil_r; repeat split; constructor.
    - eexists [_]; repeat split; repeat constructor. }
  destruct Hw as (w & Tw & Fw & Hfw).
  destruct (wait_for_fork_probes path token st1a) as (b & st2 & seg & E & H & _ & Hl).
  unfold fork_follow_up; unfold bind at 1; rewrite E.
  pose proof (follows_poll_files _ _ _ _ _ H FORKED_REPOS_FILE) as Hf; cbn [get_file] in Hf.
  rewrite Hfw in Hf.
  destruct b; cbn [negb].
  - destruct (Hl eq_refl) as (pre & r_probe & -> & Hprobe).
    unfold disable_workflow; unfold bind at 1; unfold bind at 1.
    rewrite run_gh_api_eq; fold (disable_call path token).
    unfold ret at 1; unfold bind, append_to_file, emit, ret.
    eexists true, _, _; split; [reflexivity|]; split.
    + cbn [trace set_file answered get_file].
      rewrite (fl_trace _ _ _ _ H), Tw; subst st1; cbn [trace answered].
      repeat rewrite <- app_assoc; cbn [app]; reflexivity.
    + exists (w ++ pre), r_probe, (reply_to gateway st2 (disable_call path token)).
      split; [repeat rewrite <- app_assoc; cbn [app]; reflexivity|].
      pose proof (fl_events _ _ _ _ H) as F; apply Forall_app in F as [F _].
      split; [apply Forall_app; split; assumption|]; split; [exact Hprobe|].
      cbn [forked_file set_file answered get_file]; rewrite Hf; reflexivity.
  - eexists false, st2, (w ++ seg); split; [reflexivity|]; split.
    + rewrite (fl_trace _ _ _ _ H), Tw; subst st1; cbn [trace answered].
      repeat rewrite <- app_assoc; reflexivity.
    + split; [apply Forall_app; split; [exact Fw | exact (fl_events _ _ _ _ H)] | exact Hf].
Qed.

(** X7. [create_new_fork] leaves the account in the forked checklist
    exactly when it returns True. After True the account occurs there once,
    and the run ended with a successful existence probe, the disabling of
    the workflow and the append, in this order; after False the account is
    not in the checklist, even if it was before the call. *)
Theorem create_new_fork_records_success :
  forall (st : State World) (username token owner name : string),
    exists b st',
      create_new_fork gateway username token (owner ++ "/" ++ name)%string st = Normal b st' /\
      if b
      then count_occ string_dec (forked_file st') username = 1%nat /\
           exists path before r_probe r_disable,
             trace st' = before ++ [EvApi (exists_call path token) r_probe;
                                    EvApi (disable_call path token) r_disable;
                                    EvAppend FORKED_REPOS_FILE username] /\
             success r_probe = true
      else ~ In username (forked_file st').
Proof.
  intros st username token owner name.
  destruct (split_slash_second owner name) as [second Hsecond].
  destruct (create_new_fork_shape username token _ second st Hsecond)
    as (b & st' & post & E & T & Hb).
  exists b, st'; split; [exact E|].
  pose proof (not_in_repaired st username) as Hnot.
  destruct b.
  - destruct Hb as (seg & r_probe & r_disable & -> & _ & Hprobe & Hfile).
    split; [rewrite Hfile; apply add_line_count; exact Hnot|].
    eexists _, _, r_probe, r_disable; split; [|exact Hprobe].
    rewrite T.
    change (EvApi (create_call (owner ++ "/" ++ name) token)
              (reply_to gateway (repaired st username)
                 (create_call (owner ++ "/" ++ name) token))
            :: seg ++ [EvApi (exists_call (username ++ "/" ++ second) token) r_probe;
                       EvApi (disable_call (username ++ "/" ++ second) token) r_disable;
                       EvAppend FORKED_REPOS_FILE username])
      with ((EvApi (create_call (owner ++ "/" ++ name) token)
               (reply_to gateway (repaired st username)
                  (create_call (owner ++ "/" ++ name) token))
             :: seg) ++ [EvApi (exists_call (username ++ "/" ++ second) token) r_probe;
                         EvApi (disable_call (username ++ "/" ++ second) token) r_disable;
                         EvAppend FORKED_REPOS_FILE username]).
    rewrite app_assoc; reflexivity.
  - destruct Hb as [_ Hfile]; rewrite Hfile; exact Hnot.
Qed.

(** X8. When neither the main account's name nor the repository name holds
    a slash, [create_new_fork] works on the path the orchestrator probed:
    its gateway calls are the creation request for the source repository,
    existence probes of [username/repo] and the disabling of the workflow
    of [username/repo], and nothing else. *)
Theorem create_new_fork_calls :
  forall (st : State World) (username token owner name : string),
    has_slash owner = false ->
    has_slash name = false ->
    let source_repo := (owner ++ "/" ++ name)%string in
    let fork_repo_path := (username ++ "/" ++ name)%string in
    exists b st' seg,
      create_new_fork gateway username token source_repo st = Normal b st' /\
      trace st' = trace st ++ seg /\
      forall call r,
        In (EvApi call r) seg ->
        call = create_call source_repo token \/
        call = exists_call fork_repo_path token \/
        call = disable_call fork_repo_path token.
Proof.
  intros st username token owner name Ho Hn source_repo fork_repo_path.
  assert (Hname : nth_error (PyStr.split_slash source_repo) 1 = Some name)
    by (subst source_repo; rewrite split_slash_pair; auto).
  destruct (create_new_fork_shape username token _ name st Hname)
    as (b & st' & post & E & T & Hb).
  fold fork_repo_path in Hb.
  eexists b, st', _; split; [exact E|]; split.
  { rewrite T, trace_repaired, <- app_assoc; reflexivity. }
  intros call r Hin.
  apply in_app_or in Hin as [Hin|[Hin|Hin]].
  - destruct (PyStr.mem username (forked_file st)); simpl in Hin;
      [destruct Hin as [Hin|[]]; discriminate | contradiction].
  - injection Hin as <- _; auto.
  - assert (Hpoll : forall seg, Forall (poll_events fork_repo_path token) seg ->
                      In (EvApi call r) seg -> call = exists_call fork_repo_path token).
    { intros seg F Hs; rewrite Forall_forall in F; exact (F _ Hs). }
    destruct b.
    + destruct Hb as (seg & r_probe & r_disable & -> & F & _ & _).
      apply in_app_or in Hin as [Hin|Hin]; [right; left; eauto|].
      simpl in Hin; destruct Hin as [Hin|[Hin|[Hin|[]]]]; try discriminate;
        injection Hin as <- _; auto.
    + destruct Hb as [F _]; right; left; eauto.
Qed.

(** *** Sync *)

Lemma default_branch_fallback r :
  success r = false \/ PyStr.strip (output r) = ""%string ->
  default_branch_of r = "main"%string.
Proof.
  unfold default_branch_of; intros [H|H]; rewrite H; simpl; auto.
  rewrite andb_false_r; reflexivity.
Qed.

(** X9. [sync_fork_with_upstream] always issues its three gateway calls
    in the same order: the default-branch lookup, the disabling of the
    workflow, the merge from upstream. Neither a failed lookup nor a failed
    disabling stops the merge; when the lookup fails or returns a blank
    output the merge is requested for the branch "main". The only other
    event is the warning printed when the result is False, and no checklist
    changes. *)
Theorem sync_always_merges :
  forall (st : State World) (fork_repo token : string),
    let r_branch := reply_to gateway st (branch_call fork_repo token) in
    exists b st' branch r_disable r_merge,
      sync_fork_with_upstream gateway fork_repo token st = Normal b st' /\
      trace st' = trace st
                  ++ [EvApi (branch_call fork_repo token) r_branch;
                      EvApi (disable_call fork_repo token) r_disable;
                      EvApi (merge_call fork_repo branch token) r_merge]
                  ++ (if b then []
                      else [EvPrint LvlWarning ("    ⚠️  Sync failed: " ++ show_error r_merge)]) /\
      (success r_branch = false \/ PyStr.strip (output r_branch) = ""%string ->
       branch = "main"%string) /\
      invited_file st' = invited_file st /\
      accepted_file st' = accepted_file st /\
      forked_file st' = forked_file st.
Proof.
  intros st fork_repo token r_branch.
  rewrite sync_fork_with_upstream_eq; cbv zeta; fold r_branch.
  set (branch := default_branch_of r_branch).
  set (st2 := answered gateway (answered gateway st (branch_call fork_repo token))
                (disable_call fork_repo token)).
  set (r := reply_to gateway st2 (merge_call fork_repo branch token)).
  destruct (success r || sync_error_converges (PyStr.lower (get_error r)));
    eexists _, _, branch, _, r; (split; [reflexivity|]); split;
    try (subst st2; cbn [trace emitted answered]; rewrite <- !app_assoc; reflexivity);
    (split; [apply default_branch_fallback|]); repeat split.
Qed.

(** *** Pacing between accounts *)

Lemma paced_tail {A} (m : M World bool) (f : bool -> A) (st0 st : State World) seg0 :
  trace st = trace st0 ++ seg0 ->
  (exists b st1 seg, m st = Normal b st1 /\ trace st1 = trace st ++ seg) ->
  exists a st' before,
    (b <- m ;; sleep 2 ;; ret (f b)) st = Normal a st' /\
    trace st' = trace st0 ++ before ++ [EvSleep 2].
Proof.
  intros T0 (b & st1 & seg & E & T).
  unfold bind at 1; rewrite E; unfold bind, sleep, ret.
  eexists _, _, (seg0 ++ seg); split; [reflexivity|].
  cbn [trace]; rewrite T, T0, <- !app_assoc; reflexivity.
Qed.

Lemma create_new_fork_extends username token owner name (st : State World) :
  exists b st1 seg,
    create_new_fork gateway username token (owner ++ "/" ++ name)%string st = Normal b st1 /\
    trace st1 = trace st ++ seg.
Proof.
  destruct (ends_normal _ _ (ends_create_new_fork gateway true username token owner name) st)
    as (b & st1 & seg & E & H).
  exists b, st1, seg; split; [exact E | exact (fl_trace _ _ _ _ H)].
Qed.

(** X10. A round of the fork orchestrator skips the pacing sleep exactly
    when it is a round of the destructive mode in which the repository
    exists and its deletion fails: that round contains no sleep at all and
    counts the account as failed, so the next account starts at once. Every
    other round ends with the pacing sleep of 2 time units. *)
Theorem round_pacing :
  forall (st : State World) (action main repo username token : string) (c : ForkCounts),
    action = "1"%string \/ action = "2"%string ->
    let fork_repo_path := (username ++ "/" ++ repo)%string in
    let st1 := answered gateway st (parent_call fork_repo_path token) in
    let r_exists := reply_to gateway st1 (exists_call fork_repo_path token) in
    let st2 := answered gateway st1 (exists_call fork_repo_path token) in
    let st3 := emitted st2
                 (EvPrint LvlWarning ("    🗑️  Deleting repository: " ++ fork_repo_path)) in
    let r_delete := reply_to gateway st3 (delete_call fork_repo_path token) in
    exists c' st' seg,
      process_account gateway action (main ++ "/" ++ repo)%string repo (username, token) c st =
      Normal c' st' /\
      trace st' = trace st ++ seg /\
      if String.eqb action "2" && success r_exists && negb (success r_delete)
      then existsb is_sleep seg = false /\
           In (EvApi (delete_call fork_repo_path token) r_delete) seg /\
           c' = mkForkCounts (success_count c) (S (failed_count c))
      else exists before, seg = before ++ [EvSleep 2].
Proof.
  intros st action main repo username token c Haction
         fork_repo_path st1 r_exists st2 st3 r_delete.
  unfold process_account; cbn [fst snd]; fold fork_repo_path.
  unfold bind at 1.
  rewrite check_if_correct_fork_eq; fold st1.
  assert (T1 : trace st1 = trace st ++ [EvApi (parent_call fork_repo_path token)
                                          (reply_to gateway st (parent_call fork_repo_path token))])
    by reflexivity.
  destruct Haction as [-> | ->].
  - change (String.eqb "1" "2") with false;
      change (String.eqb "1" "1") with true; cbv iota; cbn [andb].
    destruct (parent_matches _ _).
    + destruct (paced_tail (sync_fork_with_upstream gateway fork_repo_path token)
                  (fun synced => if synced
                                 then mkForkCounts (S (success_count c)) (failed_count c)
                                 else mkForkCounts (success_count c) (S (failed_count c)))
                  st st1 _ T1) as (a & st' & before & E & T).
      { rewrite sync_fork_with_upstream_eq; cbv zeta.
        destruct (success _ || sync_error_converges _);
          eexists _, _, _; (split; [reflexivity|]);
          cbn [trace emitted answered]; rewrite <- !app_assoc; reflexivity. }
      exists a, st', (before ++ [EvSleep 2]); split; [exact E|]; split; [exact T|]; eauto.
    + unfold bind at 1, print_warning at 1, emit at 1.
      fold (emitted st1 (EvPrint LvlWarning "   ⚠️  Fork tidak valid atau tidak ditemukan.")).
      set (st1w := emitted st1 _).
      assert (T1w : trace st1w = trace st ++
                 [EvApi (parent_call fork_repo_path token)
                    (reply_to gateway st (parent_call fork_repo_path token));
                  EvPrint LvlWarning "   ⚠️  Fork tidak valid atau tidak ditemukan."]).
      { subst st1w; cbn [trace emitted]; rewrite T1, <- app_assoc; reflexivity. }
      destruct (paced_tail (create_new_fork gateway username token (main ++ "/" ++ repo)%string)
                  (fun created => if created
                                  then mkForkCounts (S (success_count c)) (failed_count c)
                                  else mkForkCounts (success_count c) (S (failed_count c)))
                  st st1w _ T1w (create_new_fork_extends _ _ _ _ st1w))
        as (a & st' & before & E & T).
      exists a, st', (before ++ [EvSleep 2]); split; [exact E|]; split; [exact T|]; eauto.
  - change (String.eqb "2" "2") with true; cbv iota; cbn [andb].
    unfold bind at 1; rewrite run_gh_api_eq.
    fold (exists_call fork_repo_path token); fold r_exists st2.
    assert (T2 : trace st2 = trace st ++ [EvApi (parent_call fork_repo_path token)
                   (reply_to gateway st (parent_call fork_repo_path token));
                 EvApi (exists_call fork_repo_path token) r_exists]).
    { subst st2; cbn [trace answered]; rewrite T1, <- app_assoc; reflexivity. }
    destruct (success r_exists); cbn [andb].
    + unfold bind at 1.
      rewrite delete_repository_eq; cbv zeta; fold st3; fold r_delete.
      set (st4 := answered gateway st3 (delete_call fork_repo_path token)).
      assert (T4 : trace st4 = trace st ++
                 [EvApi (parent_call fork_repo_path token)
                    (reply_to gateway st (parent_call fork_repo_path token));
                  EvApi (exists_call fork_repo_path token) r_exists;
                  EvPrint LvlWarning ("    🗑️  Deleting repository: " ++ fork_repo_path);
                  EvApi (delete_call fork_repo_path token) r_delete]).
      { subst st4 st3; cbn [trace answered emitted]; rewrite T2, <- !app_assoc; reflexivity. }
      destruct (success r_delete); cbn [negb].
      * assert (T5 : trace (slept st4 5) = trace st ++
                   [EvApi (parent_call fork_repo_path token)
                      (reply_to gateway st (parent_call fork_repo_path token));
                    EvApi (exists_call fork_repo_path token) r_exists;
                    EvPrint LvlWarning ("    🗑️  Deleting repository: " ++ fork_repo_path);
                    EvApi (delete_call fork_repo_path token) r_delete; EvSleep 5]).
        { cbn [trace slept]; rewrite T4, <- !app_assoc; reflexivity. }
        destruct (paced_tail (create_new_fork gateway username token (main ++ "/" ++ repo)%string)
                    (fun created => if created
                                    then mkForkCounts (S (success_count c)) (failed_count c)
                                    else mkForkCounts (success_count c) (S (failed_count c)))
                    st (slept st4 5) _ T5 (create_new_fork_extends _ _ _ _ (slept st4 5)))
          as (a & st' & before & E & T).
        exists a, st', (before ++ [EvSleep 2]); split; [exact E|]; split; [exact T|]; eauto.
      * unfold ret.
        eexists _, _, _; split; [reflexivity|]; split.
        { cbn [trace emitted]; rewrite T4, <- !app_assoc; cbn [app]; reflexivity. }
        split; [reflexivity|]; split; [simpl; auto 6 | reflexivity].
    + unfold bind at 1; unfold ret at 1; cbn [negb].
      destruct (paced_tail (create_new_fork gateway username token (main ++ "/" ++ repo)%string)
                  (fun created => if created
                                  then mkForkCounts (S (success_count c)) (failed_count c)
                                  else mkForkCounts (success_count c) (S (failed_count c)))
                  st st2 _ T2 (create_new_fork_extends _ _ _ _ st2))
        as (a & st' & before & E & T).
      exists a, st', (before ++ [EvSleep 2]); split; [exact E|]; split; [exact T|]; eauto.
Qed.

(** *** The flows before their loops *)

(** X11. Without a configuration, or with a missing or empty token cache,
    each of the three flows returns at once without a report: the only
    thing it does is print one error diagnostic. Nothing is asked of the
    gateway or of the operator, no time passes and no checklist changes. *)
Theorem flows_abort_without_configuration :
  forall st : State World,
    config_file st = None \/ cache_of st = [] ->
    exists msg_invite msg_accept msg_fork,
      invoke_auto_invite gateway st =
        Normal None (emitted st (EvPrint LvlError msg_invite)) /\
      invoke_auto_accept gateway json_loads st =
        Normal None (emitted st (EvPrint LvlError msg_accept)) /\
      invoke_auto_create_or_sync_fork gateway st =
        Normal None (emitted st (EvPrint LvlError msg_fork)).
Proof.
  intros st.
  cbv [invoke_auto_invite invoke_auto_accept invoke_auto_create_or_sync_fork
       bind load_config load_token_cache cache_of].
  destruct (config_file st) as [config|], (token_cache_file st) as [[|item cache]|];
    intros [H|H]; try discriminate H;
    eexists _, _, _; (split; [reflexivity|]); split; reflexivity.
Qed.

(** What a run that only printed leaves behind. *)
Lemma follows_printed_only (st st' : State World) seg :
  follows printed st st' seg ->
  trace st' = trace st ++ seg /\
  Forall (fun e => exists lvl msg, e = EvPrint lvl msg) seg /\
  remote st' = remote st /\
  invited_file st' = invited_file st /\
  accepted_file st' = accepted_file st /\
  forked_file st' = forked_file st.
Proof.
  intros H.
  pose proof (fl_events _ _ _ _ H) as Hp.
  assert (Hq : Forall quiet seg)
    by (eapply Forall_impl; [|exact Hp]; apply printed_quiet).
  split; [exact (fl_trace _ _ _ _ H)|].
  split.
  { eapply Forall_impl; [|exact Hp].
    intros e; destruct e; simpl; try contradiction; eauto. }
  split; [apply (fl_remote _ _ _ _ H), quiet_no_api, Hq|].
  pose proof (fl_files _ _ _ _ H) as Hf.
  repeat split.
  - specialize (Hf INVITED_USERS_FILE); rewrite replay_quiet in Hf; auto.
  - specialize (Hf ACCEPTED_USERS_FILE); rewrite replay_quiet in Hf; auto.
  - specialize (Hf FORKED_REPOS_FILE); rewrite replay_quiet in Hf; auto.
Qed.

(** The mode prompt on answers that are all invalid: it asks until the
    input is exhausted. *)
Lemma ask_mode_eof pending :
  Forall invalid_mode pending ->
  forall st : State World,
    stdin st = pending ->
    exists st' seg,
      ask_mode pending st = Raised EOFError st' /\ follows printed st st' seg.
Proof.
  intros Hbad; induction Hbad as [|line bad Hline _ IH]; intros st Hin.
  - cbn [ask_mode]; unfold bind at 1, input at 1; rewrite Hin.
    exists st, []; split; [reflexivity | apply follows_refl].
  - cbn [ask_mode]; unfold bind at 1, input at 1; rewrite Hin.
    fold (consumed st bad).
    rewrite Hline.
    unfold bind at 1, print_warning at 1, emit at 1.
    fold (emitted (consumed st bad) (EvPrint LvlWarning "Pilihan tidak valid.")).
    set (st1 := emitted _ _).
    destruct (IH st1 eq_refl) as (st' & seg & E & H).
    exists st', ([] ++ [EvPrint LvlWarning "Pilihan tidak valid."] ++ seg).
    split; [exact E|].
    eapply follows_trans; [apply follows_consumed|].
    eapply follows_trans; [|exact H].
    apply follows_emitted; [|apply quiet_print]; exact I.
Qed.

(** X12. When there are accounts to process and the operator's input
    runs out before the run can start (every answer to the mode prompt is
    invalid, or mode 2 is chosen and no answer to the confirmation
    follows), the fork orchestrator ends with EOFError, which it does not
    catch. Up to then it has only printed: no gateway call was issued and
    no checklist changed. *)
Theorem exhausted_input_raises_eof :
  forall st : State World,
    processed st <> [] ->
    (Forall invalid_mode (stdin st) \/
     exists bad mode,
       stdin st = bad ++ [mode] /\ Forall invalid_mode bad /\
       PyStr.strip mode = "2"%string) ->
    exists st' seg,
      invoke_auto_create_or_sync_fork gateway st = Raised EOFError st' /\
      trace st' = trace st ++ seg /\
      Forall (fun e => exists lvl msg, e = EvPrint lvl msg) seg /\
      remote st' = remote st /\
      invited_file st' = invited_file st /\
      accepted_file st' = accepted_file st /\
      forked_file st' = forked_file st.
Proof.
  intros st Hsome Hin.
  assert (Hgoal : exists st' seg,
             invoke_auto_create_or_sync_fork gateway st = Raised EOFError st' /\
             follows printed st st' seg).
  { unfold processed, cache_of in Hsome.
    unfold invoke_auto_create_or_sync_fork.
    unfold bind at 1, load_config at 1.
    destruct (config_file st) as [config|]; [|contradiction Hsome; reflexivity].
    unfold bind at 1, load_token_cache at 1.
    destruct (token_cache_file st) as [[|item cache]|];
      try (contradiction Hsome; reflexivity).
    destruct (users_to_process_of (main_account_username config) (item :: cache))
      as [|user users]; [contradiction Hsome; reflexivity|].
    unfold bind at 1, print_warning at 1, emit at 1.
    fold (emitted st (EvPrint LvlWarning (String "010" "Mode Operasi:"))).
    set (st1 := emitted st _).
    destruct Hin as [Hbad | (bad & mode & Hin & Hbad & Hmode)].
    - destruct (ask_mode_eof _ Hbad st1 eq_refl) as (st2 & seg2 & E2 & H2).
      unfold bind at 1, choose_mode at 1.
      change (stdin st1) with (stdin st); rewrite E2.
      eexists _, _; split; [reflexivity|].
      eapply follows_trans; [apply follows_emitted; [|apply quiet_print]; exact I|].
      exact H2.
    - destruct (ask_mode_run bad mode [] Hbad
                  ltac:(rewrite Hmode; reflexivity) st1 Hin)
        as (st2 & seg2 & E2 & Hs2 & H2).
      unfold bind at 1, choose_mode at 1; rewrite E2, Hmode.
      change (String.eqb "2" "1") with false; cbv iota.
      unfold bind at 1, bind at 1, print_warning at 1, emit at 1.
      fold (emitted st2 (EvPrint LvlWarning
         (String "010" "Mode: Force Clean & Create. Ini akan menghapus repo yang ada."))).
      set (st3 := emitted st2 _).
      unfold bind at 1, input at 1.
      change (stdin st3) with (stdin st2); rewrite Hs2.
      eexists _, _; split; [reflexivity|].
      eapply follows_trans; [apply follows_emitted; [|apply quiet_print]; exact I|].
      eapply follows_trans; [exact H2|].
      apply (follows_emitted printed st2 (EvPrint LvlWarning
         (String "010" "Mode: Force Clean & Create. Ini akan menghapus repo yang ada.")));
        [exact I | apply quiet_print]. }
  destruct Hgoal as (st' & seg & E & H).
  exists st', seg; split; [exact E | apply follows_printed_only, H].
Qed.

(** *** The two modes *)

Lemma check_events_not_delete p t e : check_events p t e -> is_delete_call e = false.
Proof.
  destruct e as [c r| | | | |]; simpl; auto.
  unfold is_delete_call; simpl; intros [_ ->]; reflexivity.
Qed.

Lemma sync_events_not_delete p t e : sync_events p t e -> is_delete_call e = false.
Proof.
  destruct e as [c r| | | | |]; simpl; auto.
  unfold is_delete_call; simpl; destruct (call_command c); auto; intros [_ []].
Qed.

Lemma delete_events_not_merge p t e : delete_events p t e -> is_merge_call e = false.
Proof.
  destruct e as [c r| | | | |]; simpl; auto.
  unfold is_merge_call; simpl; intros [_ ->]; reflexivity.
Qed.

Lemma check_events_not_merge p t e : check_events p t e -> is_merge_call e = false.
Proof.
  destruct e as [c r| | | | |]; simpl; auto.
  unfold is_merge_call; simpl; intros [_ ->]; reflexivity.
Qed.

(** A round of the Sync & Keep mode deletes nothing; a round of the
    destructive mode merges nothing. *)
Lemma ends_process_account_keep main repo username token c :
  ends true (fun e => is_delete_call e = false)
    (process_account gateway "1" (main ++ "/" ++ repo)%string repo (username, token) c).
Proof.
  unfold process_account; cbn [fst snd].
  change (String.eqb "1" "2") with false; change (String.eqb "1" "1") with true; cbv iota.
  apply ends_bind.
  { eapply ends_weaken; [apply check_events_not_delete | apply ends_check_if_correct_fork]. }
  intros valid.
  repeat (ends_step; simpl; auto);
    try (eapply ends_weaken; [apply sync_events_not_delete | apply ends_sync_fork_with_upstream]);
    try (eapply ends_weaken; [apply create_events_not_delete | apply ends_create_new_fork]).
Qed.

Lemma ends_process_account_clean main repo username token c :
  ends true (fun e => is_merge_call e = false)
    (process_account gateway "2" (main ++ "/" ++ repo)%string repo (username, token) c).
Proof.
  unfold process_account; cbn [fst snd].
  change (String.eqb "2" "2") with true; cbv iota.
  apply ends_bind.
  { eapply ends_weaken; [apply check_events_not_merge | apply ends_check_if_correct_fork]. }
  intros valid.
  repeat (ends_step; simpl; auto);
    try (eapply ends_weaken; [apply delete_events_not_merge | apply ends_delete_repository]);
    try (eapply ends_weaken; [apply create_events_not_merge | apply ends_create_new_fork]).
Qed.

Lemma printed_not_delete e : printed e -> is_delete_call e = false.
Proof. destruct e; simpl; auto; contradiction. Qed.

Lemma printed_not_merge e : printed e -> is_merge_call e = false.
Proof. destruct e; simpl; auto; contradiction. Qed.

(** X13. The two modes of the fork orchestrator exclude each other's
    remote operation, over a whole run. When the operator (after any
    number of invalid answers) chooses mode 1, Sync & Keep, the run ends
    normally and no gateway call of it deletes a repository. When the
    operator chooses mode 2 and confirms it with an answer whose lower-case
    form is "y", the run ends normally with a report and no gateway call of
    it merges from upstream. *)
Theorem modes_are_exclusive :
  forall (st : State World) (bad : list string) (mode : string) (rest : list string),
    stdin st = bad ++ mode :: rest ->
    Forall invalid_mode bad ->
    (PyStr.strip mode = "1"%string ->
     exists r st' seg,
       invoke_auto_create_or_sync_fork gateway st = Normal r st' /\
       trace st' = trace st ++ seg /\
       existsb is_delete_call seg = false) /\
    (PyStr.strip mode = "2"%string ->
     forall answer rest', rest = answer :: rest' ->
       PyStr.lower answer = "y"%string ->
       exists r st' seg,
         invoke_auto_create_or_sync_fork gateway st = Normal r st' /\
         trace st' = trace st ++ seg /\
         existsb is_merge_call seg = false).
Proof.
  intros st bad mode rest Hin Hbad.
  assert (Hend : forall (P : Event -> bool) r st' seg,
             invoke_auto_create_or_sync_fork gateway st = Normal r st' ->
             follows (fun e => P e = false) st st' seg ->
             exists r st' seg,
               invoke_auto_create_or_sync_fork gateway st = Normal r st' /\
               trace st' = trace st ++ seg /\ existsb P seg = false).
  { intros P r st' seg E H; exists r, st', seg.
    split; [exact E|]; split; [exact (fl_trace _ _ _ _ H)|].
    pose proof (fl_events _ _ _ _ H) as Hp; clear - Hp.
    induction Hp as [|e seg He _ IH]; simpl; [reflexivity|].
    rewrite He, IH; reflexivity. }
  split.
  - intros Hmode.
    assert (Hgoal : exists r st' seg,
               invoke_auto_create_or_sync_fork gateway st = Normal r st' /\
               follows (fun e => is_delete_call e = false) st st' seg).
    { unfold invoke_auto_create_or_sync_fork.
      unfold bind at 1, load_config at 1.
      destruct (config_file st) as [config|].
      2:{ eexists _, _, _; split; [reflexivity|].
          apply follows_emitted; [|apply quiet_print]; reflexivity. }
      unfold bind at 1, load_token_cache at 1.
      destruct (token_cache_file st) as [[|item cache]|];
        try (eexists _, _, _; split; [reflexivity|];
             apply follows_emitted; [|apply quiet_print]; reflexivity).
      destruct (users_to_process_of (main_account_username config) (item :: cache))
        as [|user users]; [exists None, st, []; split; [reflexivity|apply follows_refl]|].
      unfold bind at 1, print_warning at 1, emit at 1.
      fold (emitted st (EvPrint LvlWarning (String "010" "Mode Operasi:"))).
      set (st1 := emitted st _).
      destruct (ask_mode_run bad mode rest Hbad
                  ltac:(rewrite Hmode; reflexivity) st1 Hin)
        as (st2 & seg2 & E2 & Hs2 & H2).
      unfold bind at 1, choose_mode at 1; rewrite E2, Hmode.
      change (String.eqb "1" "1") with true; cbv iota.
      unfold bind at 1, ret at 1; cbn [negb].
      match goal with
      | |- exists r st' seg, ?prog st2 = _ /\ _ =>
          assert (Hloop : ends true (fun e => is_delete_call e = false) prog)
      end.
      { apply ends_bind; [|intros; apply ends_ret].
        apply ends_for_each; intros [u t] s _; apply ends_process_account_keep. }
      destruct (ends_normal _ _ Hloop st2) as (r & st' & seg & E & H).
      eexists _, _, _; split; [exact E|].
      eapply follows_trans;
        [apply (follows_emitted _ st (EvPrint LvlWarning (String "010" "Mode Operasi:")));
         [reflexivity | apply quiet_print]|].
      eapply follows_trans; [|exact H].
      eapply follows_weaken; [apply printed_not_delete | exact H2]. }
    destruct Hgoal as (r & st' & seg & E & H).
    exact (Hend is_delete_call r st' seg E H).
  - intros Hmode answer rest' -> Hanswer.
    assert (Hgoal : exists r st' seg,
               invoke_auto_create_or_sync_fork gateway st = Normal r st' /\
               follows (fun e => is_merge_call e = false) st st' seg).
    { unfold invoke_auto_create_or_sync_fork.
      unfold bind at 1, load_config at 1.
      destruct (config_file st) as [config|].
      2:{ eexists _, _, _; split; [reflexivity|].
          apply follows_emitted; [|apply quiet_print]; reflexivity. }
      unfold bind at 1, load_token_cache at 1.
      destruct (token_cache_file st) as [[|item cache]|];
        try (eexists _, _, _; split; [reflexivity|];
             apply follows_emitted; [|apply quiet_print]; reflexivity).
      destruct (users_to_process_of (main_account_username config) (item :: cache))
        as [|user users]; [exists None, st, []; split; [reflexivity|apply follows_refl]|].
      unfold bind at 1, print_warning at 1, emit at 1.
      fold (emitted st (EvPrint LvlWarning (String "010" "Mode Operasi:"))).
      set (st1 := emitted st _).
      destruct (ask_mode_run bad mode (answer :: rest') Hbad
                  ltac:(rewrite Hmode; reflexivity) st1 Hin)
        as (st2 & seg2 & E2 & Hs2 & H2).
      unfold bind at 1, choose_mode at 1; rewrite E2, Hmode.
      change (String.eqb "2" "1") with false; cbv iota.
      unfold bind at 1, bind at 1, print_warning at 1, emit at 1.
      fold (emitted st2 (EvPrint LvlWarning
         (String "010" "Mode: Force Clean & Create. Ini akan menghapus repo yang ada."))).
      set (st3 := emitted st2 _).
      unfold bind at 1, input at 1.
      change (stdin st3) with (stdin st2); rewrite Hs2.
      fold (consumed st3 rest').
      rewrite Hanswer; change (String.eqb "y" "y") with true; cbn [negb].
      unfold ret at 1; cbn [negb].
      match goal with
      | |- exists r st' seg, ?prog (consumed st3 rest') = _ /\ _ =>
          assert (Hloop : ends true (fun e => is_merge_call e = false) prog)
      end.
      { apply ends_bind; [|intros; apply ends_ret].
        apply ends_for_each; intros [u t] s _; apply ends_process_account_clean. }
      destruct (ends_normal _ _ Hloop (consumed st3 rest')) as (r & st' & seg & E & H).
      eexists _, _, _; split; [exact E|].
      eapply follows_trans;
        [apply (follows_emitted _ st (EvPrint LvlWarning (String "010" "Mode Operasi:")));
         [reflexivity | apply quiet_print]|].
      eapply follows_trans; [eapply follows_weaken; [apply printed_not_merge | exact H2]|].
      eapply follows_trans;
        [apply (follows_emitted _ st2 (EvPrint LvlWarning
           (String "010" "Mode: Force Clean & Create. Ini akan menghapus repo yang ada.")));
         [reflexivity | apply quiet_print]|].
      eapply follows_trans; [apply follows_consumed|].
      exact H. }
    destruct Hgoal as (r & st' & seg & E & H).
    exact (Hend is_merge_call r st' seg E H).
Qed.

(** *** The invite flow, call by call *)

Lemma api_calls_app seg1 seg2 : api_calls (seg1 ++ seg2) = api_calls seg1 ++ api_calls seg2.
Proof. apply flat_map_app. Qed.

(** One round of the invite flow: it ends with one gateway call and one
    more account counted, or with the gateway call alone when the failed
    result carries no error text. *)
Lemma invite_one_run config repo_path username c (st : State World) :
  match invite_one gateway config repo_path username c st with
  | Normal c' st' =>
      exists seg,
        trace st' = trace st ++ seg /\
        api_calls seg = [invite_call config repo_path username] /\
        invite_total c' = S (invite_total c)
  | Raised e st' =>
      exists r,
        trace st' = trace st ++ [EvApi (invite_call config repo_path username) r] /\
        success r = false /\ error r = None
  | Diverged => False
  end.
Proof.
  rewrite invite_one_eq; cbv zeta.
  set (r := reply_to gateway st (invite_call config repo_path username)).
  destruct (success r) eqn:Es.
  { eexists; split; [simpl; rewrite <- !app_assoc; reflexivity|].
    split; [reflexivity | unfold invite_total; simpl; lia]. }
  destruct (invite_error_converges _).
  { eexists; split; [simpl; rewrite <- !app_assoc; reflexivity|].
    split; [reflexivity | unfold invite_total; simpl; lia]. }
  destruct (error r) eqn:Ee.
  { eexists; split; [simpl; rewrite <- !app_assoc; reflexivity|].
    split; [reflexivity | unfold invite_total; simpl; lia]. }
  exists r; split; [reflexivity | auto].
Qed.

Lemma for_each_invite_run config repo_path users :
  forall c (st : State World),
    match for_each (invite_one gateway config repo_path) users c st with
    | Normal c' st' =>
        exists seg,
          trace st' = trace st ++ seg /\
          api_calls seg = map (invite_call config repo_path) users /\
          invite_total c' = (invite_total c + List.length users)%nat
    | Raised e st' =>
        exists seg done u rest r,
          users = done ++ u :: rest /\
          trace st' = trace st ++ seg ++ [EvApi (invite_call config repo_path u) r] /\
          api_calls seg = map (invite_call config repo_path) done /\
          success r = false /\ error r = None
    | Diverged => False
    end.
Proof.
  induction users as [|u users IH]; intros c st; cbn [for_each].
  - exists []; rewrite app_nil_r; simpl; auto.
  - unfold bind.
    pose proof (invite_one_run config repo_path u c st) as H1.
    destruct (invite_one gateway config repo_path u c st) as [c1 st1|e st1|]; [| |exact H1].
    + destruct H1 as (seg1 & T1 & C1 & N1).
      specialize (IH c1 st1).
      destruct (for_each _ users c1 st1) as [c2 st2|e st2|]; [| |exact IH].
      * destruct IH as (seg2 & T2 & C2 & N2).
        exists (seg1 ++ seg2); split; [rewrite T2, T1, app_assoc; reflexivity|].
        split; [rewrite api_calls_app, C1, C2; reflexivity|].
        rewrite N2, N1; simpl; lia.
      * destruct IH as (seg2 & done & u' & rest & r & -> & T2 & C2 & Hs & He).
        exists (seg1 ++ seg2), (u :: done), u', rest, r.
        split; [reflexivity|].
        split; [rewrite T2, T1, <- !app_assoc; reflexivity|].
        split; [rewrite api_calls_app, C1, C2; reflexivity | auto].
    + destruct H1 as (r & T1 & Hs & He).
      exists [], [], u, users, r; simpl; auto.
Qed.

(** A whole run of the invite flow under the configuration [config]. *)
Lemma invoke_auto_invite_run (st : State World) config :
  config_file st = Some config ->
  let main_username := main_account_username config in
  let repo_path := (main_username ++ "/" ++ main_repo_name config)%string in
  let users := users_to_invite_of main_username (invited_file st) (cache_of st) in
  match invoke_auto_invite gateway st with
  | Normal r st' =>
      exists seg,
        trace st' = trace st ++ seg /\
        api_calls seg = map (invite_call config repo_path) users /\
        match r with
        | Some c => users <> [] /\ invite_total c = List.length users
        | None => users = []
        end
  | Raised e st' =>
      exists seg done u rest r,
        users = done ++ u :: rest /\
        trace st' = trace st ++ seg ++ [EvApi (invite_call config repo_path u) r] /\
        api_calls seg = map (invite_call config repo_path) done /\
        success r = false /\ error r = None
  | Diverged => False
  end.
Proof.
  intros Hc main_username repo_path users; subst users.
  unfold invoke_auto_invite, cache_of.
  unfold bind at 1, load_config at 1; rewrite Hc.
  unfold bind at 1, load_token_cache at 1.
  destruct (token_cache_file st) as [[|item cache]|];
    try (exists [EvPrint LvlError "Token cache kosong."]; repeat split).
  unfold bind at 1, read_file_lines at 1.
  change (get_file INVITED_USERS_FILE st) with (invited_file st).
  fold main_username repo_path.
  set (users := users_to_invite_of main_username (invited_file st) (item :: cache)).
  destruct users as [|u users'] eqn:Eusers.
  { exists []; rewrite app_nil_r; repeat split. }
  rewrite <- Eusers.
  unfold bind.
  pose proof (for_each_invite_run config repo_path users (mkInviteCounts 0 0) st) as H.
  destruct (for_each _ users _ st) as [c st'|e st'|]; [| exact H | exact H].
  destruct H as (seg & T & C & N).
  exists seg; split; [exact T|]; split; [exact C|].
  split; [rewrite Eusers; discriminate | exact N].
Qed.

(** X14. A run of the invite flow that ends normally has asked the
    gateway for exactly one invitation per entry of [users_to_invite], in
    the order of that list, each for the main repository and with the main
    credential, and for nothing else. It returns without a report exactly
    when the list is empty; otherwise the two counters of its report add up
    to the length of the list. *)
Theorem invite_flow_calls_in_order :
  forall (st st' : State World) (config : Config) (report : option InviteCounts),
    config_file st = Some config ->
    invoke_auto_invite gateway st = Normal report st' ->
    let main_username := main_account_username config in
    let repo_path := (main_username ++ "/" ++ main_repo_name config)%string in
    let users := users_to_invite_of main_username (invited_file st) (cache_of st) in
    exists seg,
      trace st' = trace st ++ seg /\
      api_calls seg = map (invite_call config repo_path) users /\
      match report with
      | Some c => users <> [] /\ (invite_success c + invite_failed c)%nat = List.length users
      | None => users = []
      end.
Proof.
  intros st st' config report Hc Hrun.
  pose proof (invoke_auto_invite_run st config Hc) as H; cbv zeta in H.
  rewrite Hrun in H; exact H.
Qed.

(** X15. A run of the invite flow that ends with an exception stopped at
    a failed invitation whose result carries no error text: that call is
    the last event of the run, the accounts before it in [users_to_invite]
    were each asked for once, and the accounts after it were never asked
    for. *)
Theorem invite_flow_stops_at_missing_error_text :
  forall (st st' : State World) (config : Config) (e : PyExn),
    config_file st = Some config ->
    invoke_auto_invite gateway st = Raised e st' ->
    let main_username := main_account_username config in
    let repo_path := (main_username ++ "/" ++ main_repo_name config)%string in
    let users := users_to_invite_of main_username (invited_file st) (cache_of st) in
    exists seg done u rest r,
      users = done ++ u :: rest /\
      trace st' = trace st ++ seg ++ [EvApi (invite_call config repo_path u) r] /\
      api_calls seg = map (invite_call config repo_path) done /\
      success r = false /\ error r = None.
Proof.
  intros st st' config e Hc Hrun.
  pose proof (invoke_auto_invite_run st config Hc) as H; cbv zeta in H.
  rewrite Hrun in H; exact H.
Qed.

(** *** The accept flow, round by round *)

Lemma accept_try_eq target_repo token username result c (st : State World) :
  accept_try gateway json_loads target_repo token username result c st =
  match json_loads (output result) with
  | inl e => Raised e st
  | inr invitations =>
      match py_iter invitations with
      | None => Raised TypeError st
      | Some items =>
          match find_invitation target_repo items with
          | inl e => Raised e st
          | inr None =>
              Normal (mkAcceptCounts (accepted_count c) (skipped_count c)
                        (S (no_invite_count c))) st
          | inr (Some inv_id) =>
              if truthy inv_id then
                let r := reply_to gateway st (accept_call inv_id token) in
                let st1 := answered gateway st (accept_call inv_id token) in
                if success r then
                  Normal (mkAcceptCounts (S (accepted_count c)) (skipped_count c)
                            (no_invite_count c))
                    (appended st1 ACCEPTED_USERS_FILE username)
                else match error r with
                     | Some e =>
                         Normal c (emitted st1 (EvPrint LvlError (" ❌ Gagal accept: " ++ e)))
                     | None => Raised KeyError st1
                     end
              else
                Normal (mkAcceptCounts (accepted_count c) (skipped_count c)
                          (S (no_invite_count c))) st
          end
      end
  end.
Proof.
  unfold accept_try.
  destruct (json_loads (output result)) as [e|invitations]; [reflexivity|].
  destruct (py_iter invitations) as [items|]; [|reflexivity].
  destruct (find_invitation target_repo items) as [e|[inv_id|]]; try reflexivity.
  destruct (truthy inv_id); [|reflexivity].
  unfold bind at 1; rewrite run_gh_api_eq; fold (accept_call inv_id token); cbv zeta.
  destruct (success _); [reflexivity|].
  unfold index_error; destruct (error _); reflexivity.
Qed.

(** X16. A round of the accept flow that finds an invitation with a
    truthy id asks the gateway to accept it, right after the listing and
    with the same credential, and ends with the pacing sleep. When the
    acceptance succeeds the account is added to the accepted checklist and
    counted as accepted. When it fails no checklist changes and none of the
    three counters moves, so the account appears nowhere in the final
    report; the diagnostic shows the error text, and reads as a JSON parse
    failure when the failed result carries no error text. *)
Theorem accept_round_on_invitation :
  forall (st : State World) (target_repo : string) (accepted_users : list string)
         (token username : string) (c : AcceptCounts)
         (invitations : json) (items : list json) (inv_id : json),
    let r := reply_to gateway st (list_call token) in
    let st1 := answered gateway st (list_call token) in
    let r_accept := reply_to gateway st1 (accept_call inv_id token) in
    ~ In username accepted_users ->
    success r = true ->
    json_loads (output r) = inr invitations ->
    py_iter invitations = Some items ->
    find_invitation target_repo items = inr (Some inv_id) ->
    truthy inv_id = true ->
    exists c' st' tail,
      accept_one gateway json_loads target_repo accepted_users (token, username) c st =
      Normal c' st' /\
      trace st' = trace st ++ [EvApi (list_call token) r;
                               EvApi (accept_call inv_id token) r_accept]
                           ++ tail ++ [EvSleep 1] /\
      invited_file st' = invited_file st /\
      forked_file st' = forked_file st /\
      if success r_accept
      then c' = mkAcceptCounts (S (accepted_count c)) (skipped_count c) (no_invite_count c) /\
           tail = [EvAppend ACCEPTED_USERS_FILE username] /\
           accepted_file st' = add_line (accepted_file st) username
      else c' = c /\
           accepted_file st' = accepted_file st /\
           tail = [EvPrint LvlError
                     match error r_accept with
                     | Some e => (" ❌ Gagal accept: " ++ e)%string
                     | None => " ❌ Gagal parse JSON"%string
                     end].
Proof.
  intros st target_repo accepted_users token username c invitations items inv_id
         r st1 r_accept Hnot Hok Hjson Hiter Hfind Htruthy.
  unfold accept_one; cbn [fst snd].
  apply mem_not_In in Hnot; rewrite Hnot.
  unfold bind at 1; rewrite run_gh_api_eq; fold (list_call token); fold r st1.
  rewrite Hok; cbn [negb].
  unfold bind at 1, try_except at 1.
  rewrite accept_try_eq, Hjson, Hiter, Hfind, Htruthy; cbv zeta; fold r_accept.
  destruct (success r_accept).
  - eexists _, _, [EvAppend ACCEPTED_USERS_FILE username]; split; [reflexivity|].
    split; [simpl; repeat rewrite <- app_assoc; reflexivity|].
    repeat split.
  - destruct (error r_accept) as [e|]; cbn [parse_failure].
    + eexists _, _, [EvPrint LvlError (" ❌ Gagal accept: " ++ e)]; split; [reflexivity|].
      split; [simpl; repeat rewrite <- app_assoc; reflexivity|].
      repeat split.
    + eexists _, _, [EvPrint LvlError " ❌ Gagal parse JSON"]; split; [reflexivity|].
      split; [simpl; repeat rewrite <- app_assoc; reflexivity|].
      repeat split.
Qed.

(** X17. A listing that succeeds and decodes to something that is not a
    list of objects ends the whole batch, not only the round: when the
    decoded value cannot be iterated (a number, a boolean, null) the loop
    ends with TypeError, and when an element the search reaches has no
    [get] (the keys of an object, the characters of a string) or its
    repository or name has the wrong shape, with AttributeError. The
    listing is then the last thing the flow did: no diagnostic, no sleep,
    and the accounts after it are not visited. *)
Theorem accept_batch_stops_on_unexpected_payload :
  forall (st : State World) (target_repo : string) (accepted_users : list string)
         (token username : string) (c : AcceptCounts)
         (invitations : json) (later : list (string * string)),
    let r := reply_to gateway st (list_call token) in
    ~ In username accepted_users ->
    success r = true ->
    json_loads (output r) = inr invitations ->
    (py_iter invitations = None \/
     exists items, py_iter invitations = Some items /\
                   find_invitation target_repo items = inl AttributeError) ->
    for_each (accept_one gateway json_loads target_repo accepted_users)
      ((token, username) :: later) c st =
    Raised (match py_iter invitations with None => TypeError | Some _ => AttributeError end)
      (answered gateway st (list_call token)).
Proof.
  intros st target_repo accepted_users token username c invitations later r
         Hnot Hok Hjson Hshape.
  cbn [for_each]; unfold bind at 1.
  unfold accept_one; cbn [fst snd].
  apply mem_not_In in Hnot; rewrite Hnot.
  unfold bind at 1; rewrite run_gh_api_eq; fold (list_call token); fold r.
  rewrite Hok; cbn [negb].
  unfold bind at 1, try_except at 1.
  rewrite accept_try_eq, Hjson.
  destruct Hshape as [Hiter | (items & Hiter & Hfind)]; rewrite Hiter.
  - reflexivity.
  - rewrite Hfind; reflexivity.
Qed.

(** X20. What the decoder raises on a successful listing decides between
    the round and the batch. JSONDecodeError and KeyError are caught: the
    round prints the parse diagnostic, sleeps, leaves the counters as they
    were, and the loop goes on with the next account. Any other exception
    of the decoder (ValueError, RecursionError) is not caught by the
    [except] clause: it ends the whole loop, the listing being the last
    thing the flow did, and the later accounts are not visited. *)
Theorem accept_round_on_decoder_exception :
  forall (st : State World) (target_repo : string) (accepted_users : list string)
         (token username : string) (c : AcceptCounts) (e : PyExn)
         (later : list (string * string)),
    let r := reply_to gateway st (list_call token) in
    let st1 := answered gateway st (list_call token) in
    ~ In username accepted_users ->
    success r = true ->
    json_loads (output r) = inl e ->
    (e = JSONDecodeError \/ e = KeyError ->
     for_each (accept_one gateway json_loads target_repo accepted_users)
       ((token, username) :: later) c st =
     for_each (accept_one gateway json_loads target_repo accepted_users) later c
       (slept (emitted st1 (EvPrint LvlError " ❌ Gagal parse JSON")) 1)) /\
    (e <> JSONDecodeError -> e <> KeyError ->
     for_each (accept_one gateway json_loads target_repo accepted_users)
       ((token, username) :: later) c st =
     Raised e st1).
Proof.
  intros st target_repo accepted_users token username c e later r st1 Hnot Hok Hjson.
  assert (Hrun : accept_one gateway json_loads target_repo accepted_users
                   (token, username) c st =
                 if parse_failure e
                 then Normal c (slept (emitted st1 (EvPrint LvlError " ❌ Gagal parse JSON")) 1)
                 else Raised e st1).
  { unfold accept_one; cbn [fst snd].
    apply mem_not_In in Hnot; rewrite Hnot.
    unfold bind at 1; rewrite run_gh_api_eq; fold (list_call token); fold r st1.
    rewrite Hok; cbn [negb].
    unfold bind at 1, try_except at 1.
    rewrite accept_try_eq, Hjson.
    destruct (parse_failure e); reflexivity. }
  cbn [for_each]; unfold bind at 1 2; rewrite Hrun.
  split.
  - intros [-> | ->]; reflexivity.
  - intros H1 H2; destruct e; try reflexivity; contradiction.
Qed.

(** One round of the accept flow, when it ends normally: the listing is
    requested exactly for an account that is not on the accepted checklist,
    an account on it is counted as skipped, at most one counter moves by
    one, and an account is counted as accepted exactly when it is appended
    to the checklist. *)
Lemma accept_one_run target_repo accepted_users token username c (st : State World) :
  match accept_one gateway json_loads target_repo accepted_users (token, username) c st with
  | Normal c' st' =>
      exists seg,
        trace st' = trace st ++ seg /\
        filter is_list_call (api_calls seg) =
          (if PyStr.mem username accepted_users then [] else [list_call token]) /\
        skipped_count c' =
          (skipped_count c + if PyStr.mem username accepted_users then 1 else 0)%nat /\
        (accept_total c' <= S (accept_total c))%nat /\
        accepted_count c' =
          (accepted_count c + List.length (filter is_file_change seg))%nat
  | Raised _ _ => True
  | Diverged => False
  end.
Proof.
  unfold accept_one; cbn [fst snd].
  destruct (PyStr.mem username accepted_users).
  { exists []; rewrite app_nil_r; unfold accept_total; simpl; repeat split; lia. }
  unfold bind at 1; rewrite run_gh_api_eq; fold (list_call token).
  destruct (success _); cbn [negb].
  2:{ eexists; split; [simpl; rewrite <- ?app_assoc; reflexivity|].
      unfold accept_total; simpl; repeat split; lia. }
  unfold bind at 1, try_except at 1; rewrite accept_try_eq.
  destruct (json_loads _) as [e|invitations].
  { destruct e; cbn [parse_failure]; try exact I;
      (eexists; split; [simpl; rewrite <- ?app_assoc; reflexivity|]);
      unfold accept_total; simpl; repeat split; lia. }
  destruct (py_iter invitations) as [items|]; [|exact I].
  destruct (find_invitation target_repo items) as [e|[inv_id|]].
  - destruct e; cbn [parse_failure]; try exact I;
      (eexists; split; [simpl; rewrite <- ?app_assoc; reflexivity|]);
      unfold accept_total; simpl; repeat split; lia.
  - destruct (truthy inv_id); cbv zeta.
    + destruct (success _); [|destruct (error _); cbn [parse_failure]];
        (eexists; split; [simpl; rewrite <- ?app_assoc; reflexivity|]);
        unfold accept_total; simpl; repeat split; lia.
    + eexists; split; [simpl; rewrite <- ?app_assoc; reflexivity|].
      unfold accept_total; simpl; repeat split; lia.
  - eexists; split; [simpl; rewrite <- ?app_assoc; reflexivity|].
    unfold accept_total; simpl; repeat split; lia.
Qed.

Lemma for_each_accept_run target_repo accepted_users cache :
  forall c (st : State World),
    match for_each (accept_one gateway json_loads target_repo accepted_users) cache c st with
    | Normal c' st' =>
        exists seg,
          trace st' = trace st ++ seg /\
          filter is_list_call (api_calls seg) =
            map (fun tu => list_call (fst tu)) (filter (still_pending accepted_users) cache) /\
          skipped_count c' =
            (skipped_count c +
             List.length (filter (already_accepted accepted_users) cache))%nat /\
          (accept_total c' <= accept_total c + List.length cache)%nat /\
          accepted_count c' =
            (accepted_count c + List.length (filter is_file_change seg))%nat
    | Raised _ _ => True
    | Diverged => False
    end.
Proof.
  induction cache as [|[token username] cache IH]; intros c st; cbn [for_each].
  - exists []; rewrite app_nil_r; simpl; repeat split; lia.
  - unfold bind.
    pose proof (accept_one_run target_repo accepted_users token username c st) as H1.
    destruct (accept_one _ _ _ _ _ c st) as [c1 st1|e st1|]; [|exact I|exact H1].
    destruct H1 as (seg1 & T1 & L1 & S1 & N1 & A1).
    specialize (IH c1 st1).
    destruct (for_each _ cache c1 st1) as [c2 st2|e st2|]; [|exact I|exact IH].
    destruct IH as (seg2 & T2 & L2 & S2 & N2 & A2).
    exists (seg1 ++ seg2); split; [rewrite T2, T1, app_assoc; reflexivity|].
    rewrite api_calls_app, !filter_app, length_app, L1, L2.
    unfold still_pending, already_accepted in *; cbn [filter snd fst].
    destruct (PyStr.mem username accepted_users); cbn [negb map List.length app fst];
      repeat split; lia.
Qed.

(** X18. The final report of the accept flow. The accounts counted as
    skipped are exactly the cached accounts that the accepted checklist
    held when the flow started; the invitation listing was requested once
    for each of the others, the main account included, in cache order and
    with the account's own credential; an account is counted as accepted
    exactly when the run appended it to the checklist; and the three
    counters together never exceed the number of cached accounts (they fall
    short of it by the accounts whose listing or acceptance failed). *)
Theorem accept_report :
  forall (st st' : State World) (c : AcceptCounts),
    invoke_auto_accept gateway json_loads st = Normal (Some c) st' ->
    let cache := cache_of st in
    exists seg,
      trace st' = trace st ++ seg /\
      filter is_list_call (api_calls seg) =
        map (fun tu => list_call (fst tu)) (filter (still_pending (accepted_file st)) cache) /\
      skipped_count c = List.length (filter (already_accepted (accepted_file st)) cache) /\
      accepted_count c = List.length (filter is_file_change seg) /\
      (accepted_count c + skipped_count c + no_invite_count c <= List.length cache)%nat.
Proof.
  intros st st' c; unfold invoke_auto_accept, cache_of.
  unfold bind at 1, load_config at 1; unfold bind at 1, load_token_cache at 1.
  destruct (config_file st) as [config|], (token_cache_file st) as [[|item cache]|];
    try discriminate.
  unfold bind at 1, read_file_lines at 1.
  change (get_file ACCEPTED_USERS_FILE st) with (accepted_file st).
  unfold bind.
  pose proof (for_each_accept_run
                (PyStr.lower (main_account_username config ++ "/" ++ main_repo_name config))
                (accepted_file st) (item :: cache) (mkAcceptCounts 0 0 0) st) as H.
  destruct (for_each _ (item :: cache) _ st) as [c1 st1|e st1|]; try discriminate.
  intros [= <- <-]; cbv zeta.
  destruct H as (seg & T & L & Hs & N & A).
  exists seg; unfold accept_total in N; simpl in Hs, N, A.
  split; [exact T|]; split; [exact L|]; split; [exact Hs|]; split; [exact A|].
  simpl List.length; lia.
Qed.

(** *** The rounds of the fork orchestrator *)

Lemma not_parent_calls seg : Forall not_parent seg -> filter is_parent_call (api_calls seg) = [].
Proof.
  intros H; induction H as [|e seg He _ IH]; [reflexivity|].
  destruct e; simpl in *; auto.
  fold (api_calls seg); rewrite He; exact IH.
Qed.

Lemma api_calls_cons call r seg : api_calls (EvApi call r :: seg) = call :: api_calls seg.
Proof. reflexivity. Qed.

Lemma quiet_not_parent e : quiet e -> not_parent e.
Proof. destruct e; simpl; auto; intros [H _]; discriminate. Qed.

Lemma delete_events_not_parent p t e : delete_events p t e -> not_parent e.
Proof.
  destruct e as [c r| | | | |]; simpl; auto.
  unfold is_parent_call; intros [_ ->]; reflexivity.
Qed.

Lemma sync_events_not_parent p t e : sync_events p t e -> not_parent e.
Proof.
  destruct e as [c r| | | | |]; simpl; auto.
  unfold is_parent_call; destruct (call_command c); auto; intros [_ []].
Qed.

Lemma create_events_not_parent u t s e : create_events u t s e -> not_parent e.
Proof.
  destruct e as [c r| | | | |]; simpl; auto.
  unfold is_parent_call; destruct (call_command c); auto; intros [_ []].
Qed.

(** A round starts with the parentage probe of its account and issues no
    other. *)
Lemma process_account_probe action main repo username token c (st : State World) :
  action = "1"%string \/ action = "2"%string ->
  exists c' st' seg,
    process_account gateway action (main ++ "/" ++ repo)%string repo (username, token) c st =
    Normal c' st' /\
    trace st' = trace st ++ seg /\
    filter is_parent_call (api_calls seg) = [parent_call (username ++ "/" ++ repo) token].
Proof.
  intros Haction.
  unfold process_account; cbn [fst snd].
  unfold bind at 1; rewrite check_if_correct_fork_eq.
  set (st1 := answered gateway st (parent_call (username ++ "/" ++ repo) token)).
  match goal with
  | |- exists c' st' seg, ?prog st1 = _ /\ _ =>
      assert (Hrest : ends true not_parent prog)
  end.
  { destruct Haction as [-> | ->];
      [change (String.eqb "1" "2") with false; change (String.eqb "1" "1") with true
      |change (String.eqb "2" "2") with true]; cbv iota;
      repeat (ends_step; simpl; auto);
      try (eapply ends_weaken; [apply delete_events_not_parent | apply ends_delete_repository]);
      try (eapply ends_weaken; [apply sync_events_not_parent
                               | apply ends_sync_fork_with_upstream]);
      try (eapply ends_weaken; [apply create_events_not_parent | apply ends_create_new_fork]). }
  destruct (ends_normal _ _ Hrest st1) as (c' & st' & seg & E & H).
  exists c', st', (EvApi (parent_call (username ++ "/" ++ repo) token)
                     (reply_to gateway st (parent_call (username ++ "/" ++ repo) token)) :: seg).
  split; [exact E|]; split.
  - rewrite (fl_trace _ _ _ _ H); subst st1; cbn [trace answered].
    rewrite <- app_assoc; reflexivity.
  - rewrite api_calls_cons; cbn [filter].
    change (is_parent_call (parent_call (username ++ "/" ++ repo) token)) with true.
    cbv iota; rewrite (not_parent_calls seg (fl_events _ _ _ _ H)); reflexivity.
Qed.

Lemma for_each_process_probes action main repo users :
  action = "1"%string \/ action = "2"%string ->
  forall c (st : State World),
    exists c' st' seg,
      for_each (process_account gateway action (main ++ "/" ++ repo)%string repo) users c st =
      Normal c' st' /\
      trace st' = trace st ++ seg /\
      filter is_parent_call (api_calls seg) =
        map (fun ut => parent_call (fst ut ++ "/" ++ repo) (snd ut)) users.
Proof.
  intros Haction; induction users as [|[u t] users IH]; intros c st; cbn [for_each].
  - exists c, st, []; rewrite app_nil_r; repeat split.
  - destruct (process_account_probe action main repo u t c st Haction)
      as (c1 & st1 & seg1 & E1 & T1 & P1).
    destruct (IH c1 st1) as (c2 & st2 & seg2 & E2 & T2 & P2).
    exists c2, st2, (seg1 ++ seg2); unfold bind; rewrite E1.
    split; [exact E2|]; split; [rewrite T2, T1, app_assoc; reflexivity|].
    rewrite api_calls_app, filter_app, P1, P2; reflexivity.
Qed.

(** A run of the fork orchestrator that reaches its report: up to the
    loop it has only talked to the operator, and the loop ran in one of
    the two modes over [users_to_process]. *)
Lemma orchestrator_reaches_loop (st st' : State World) config c :
  config_file st = Some config ->
  invoke_auto_create_or_sync_fork gateway st = Normal (Some c) st' ->
  let main_username := main_account_username config in
  let repo_name := main_repo_name config in
  exists action st0 seg0,
    (action = "1"%string \/ action = "2"%string) /\
    follows quiet st st0 seg0 /\
    for_each (process_account gateway action (main_username ++ "/" ++ repo_name)%string repo_name)
      (users_to_process_of main_username (cache_of st)) (mkForkCounts 0 0) st0 =
    Normal c st'.
Proof.
  intros Hc; cbv zeta.
  unfold invoke_auto_create_or_sync_fork, cache_of.
  unfold bind at 1, load_config at 1; rewrite Hc.
  unfold bind at 1, load_token_cache at 1.
  destruct (token_cache_file st) as [[|item cache]|];
    try (intros H; compute in H; discriminate H).
  set (users := users_to_process_of (main_account_username config) (item :: cache)).
  destruct users as [|user users'] eqn:Eusers; [intros H; discriminate H|].
  rewrite <- Eusers.
  unfold bind at 1, print_warning at 1, emit at 1.
  fold (emitted st (EvPrint LvlWarning (String "010" "Mode Operasi:"))).
  set (st1 := emitted st _).
  assert (H1 : follows quiet st st1 [EvPrint LvlWarning (String "010" "Mode Operasi:")])
    by (apply follows_emitted; apply quiet_print).
  unfold bind at 1, choose_mode at 1.
  pose proof (ends_ask_mode quiet (stdin st1) (fun e H => H) st1) as Hask.
  pose proof (yields_ask_mode (stdin st1) st1) as Hmode; unfold yields_at in Hmode.
  destruct (ask_mode (stdin st1) st1) as [action st2|e st2|];
    [|intros H; discriminate H|intros H; discriminate H].
  destruct Hask as [seg2 H2].
  destruct Hmode as [-> | ->].
  - change (String.eqb "1" "1") with true; cbv iota.
    unfold bind at 1, ret at 1; cbn [negb].
    unfold bind.
    destruct (for_each _ users _ st2) as [c2 st3|e st3|] eqn:Eloop; try discriminate.
    intros [= <- <-].
    eexists "1"%string, st2, _; split; [auto|]; split; [|exact Eloop].
    eapply follows_trans; [exact H1 | exact H2].
  - change (String.eqb "2" "1") with false; cbv iota.
    unfold bind at 1, bind at 1, print_warning at 1, emit at 1.
    fold (emitted st2 (EvPrint LvlWarning
       (String "010" "Mode: Force Clean & Create. Ini akan menghapus repo yang ada."))).
    set (st3 := emitted st2 _).
    unfold bind at 1, input at 1.
    change (stdin st3) with (stdin st2).
    destruct (stdin st2) as [|answer rest]; [intros H; discriminate H|].
    fold (consumed st3 rest).
    destruct (negb (String.eqb (PyStr.lower answer) "y"));
      [intros H; compute in H; discriminate H|].
    unfold ret at 1; cbn [negb].
    unfold bind.
    destruct (for_each _ users _ (consumed st3 rest)) as [c2 st4|e st4|] eqn:Eloop;
      try discriminate.
    intros [= <- <-].
    eexists "2"%string, (consumed st3 rest), _; split; [auto|]; split; [|exact Eloop].
    eapply follows_trans; [exact H1|].
    eapply follows_trans; [exact H2|].
    eapply follows_trans; [|apply follows_consumed].
    apply (follows_emitted quiet st2 (EvPrint LvlWarning
       (String "010" "Mode: Force Clean & Create. Ini akan menghapus repo yang ada.")));
      apply quiet_print.
Qed.

(** X19. A run of the fork orchestrator that reaches its report has
    probed the parentage of every account of [users_to_process] exactly
    once, in the order of that list, at the path of the account's own copy
    of the main repository and with the account's own credential; it has
    probed no other parentage. This holds in both modes: the destructive
    mode probes too, although it does not use the answer. *)
Theorem every_account_is_probed_once :
  forall (st st' : State World) (config : Config) (c : ForkCounts),
    config_file st = Some config ->
    invoke_auto_create_or_sync_fork gateway st = Normal (Some c) st' ->
    let repo_name := main_repo_name config in
    let users := users_to_process_of (main_account_username config) (cache_of st) in
    exists seg,
      trace st' = trace st ++ seg /\
      filter is_parent_call (api_calls seg) =
        map (fun ut => parent_call (fst ut ++ "/" ++ repo_name) (snd ut)) users.
Proof.
  intros st st' config c Hc Hrun; cbv zeta.
  destruct (orchestrator_reaches_loop st st' config c Hc Hrun)
    as (action & st0 & seg0 & Haction & H0 & Hloop).
  destruct (for_each_process_probes action (main_account_username config)
              (main_repo_name config)
              (users_to_process_of (main_account_username config) (cache_of st))
              Haction (mkForkCounts 0 0) st0) as (c1 & st1 & seg1 & E1 & T1 & P1).
  rewrite Hloop in E1; injection E1 as <- <-.
  exists (seg0 ++ seg1); split.
  - rewrite T1, (fl_trace _ _ _ _ H0), app_assoc; reflexivity.
  - rewrite api_calls_app, filter_app, P1.
    rewrite (not_parent_calls seg0); [reflexivity|].
    eapply Forall_impl; [apply quiet_not_parent | exact (fl_events _ _ _ _ H0)].
Qed.

End Results.

(** ** Concrete runs *)

Module Runs.

Import Scenario.

(** Destructive mode, deletion refused: both accounts fail, no fork is
    created, the forked checklist keeps its entry. *)
Example run_undeletable :
  exists st',
    invoke_auto_create_or_sync_fork undeletable
      (start cache3 [] [] ["alice"] ["x"; " 2 "; "Y"]) =
    Normal (Some (mkForkCounts 0 2)) st' /\
    forked_file st' = ["alice"] /\
    existsb is_create_call (trace st') = false /\
    filter is_delete_call (trace st') =
      [EvApi (delete_call "alice/repo" "tok-a") (failure "HTTP 403");
       EvApi (delete_call "bob/repo" "tok-b") (failure "HTTP 403")].
Proof.
  eexists; split; [vm_compute; reflexivity|].
  split; [|split]; vm_compute; reflexivity.
Qed.

(** Sync & Keep with valid forks: both accounts are synced, none created. *)
Example run_sync_and_keep :
  exists st',
    invoke_auto_create_or_sync_fork always_ok (start cache3 [] [] [] ["1"]) =
    Normal (Some (mkForkCounts 2 0)) st' /\
    existsb is_create_call (trace st') = false /\
    List.length (filter is_merge_call (trace st')) = 2%nat.
Proof.
  eexists; split; [vm_compute; reflexivity|].
  split; vm_compute; reflexivity.
Qed.

(** Sync & Keep without forks (the parentage probe fails): both accounts
    take the create path, the poll times out, nothing is merged. *)
Example run_create_times_out :
  exists st',
    invoke_auto_create_or_sync_fork (always_failing "forks must have unique names" 0)
      (start cache3 [] [] ["bob"] ["1"]) =
    Normal (Some (mkForkCounts 0 2)) st' /\
    existsb is_merge_call (trace st') = false /\
    List.length (filter is_create_call (trace st')) = 2%nat /\
    forked_file st' = [] /\
    clock st' = 244%N.
Proof.
  eexists; split; [vm_compute; reflexivity|].
  split; [|split; [|split]]; vm_compute; reflexivity.
Qed.

(** The accept flow with one pending invitation per account: the accounts
    not yet accepted accept it and are recorded. *)
Example run_accept :
  exists st',
    invoke_auto_accept (listing "[{..}]") loads (start cache3 [] ["bob"] [] []) =
    Normal (Some (mkAcceptCounts 2 1 0)) st' /\
    accepted_file st' = ["bob"; "main"; "alice"] /\
    map command_of (filter is_api (trace st')) =
      [Some CmdListInvitations; Some (CmdAcceptInvitation (JNum 7));
       Some CmdListInvitations; Some (CmdAcceptInvitation (JNum 7))].
Proof.
  eexists; split; [vm_compute; reflexivity|].
  split; vm_compute; reflexivity.
Qed.

(** A listing that decodes to a JSON object is not covered by the [except]
    clause: iterating it yields its keys, and the flow ends with
    AttributeError at the first account. *)
Example run_accept_object_payload :
  exists st',
    invoke_auto_accept (listing "{..}") loads (start cache3 [] [] [] []) =
    Raised AttributeError st' /\
    map command_of (filter is_api (trace st')) = [Some CmdListInvitations].
Proof.
  eexists; split; vm_compute; reflexivity.
Qed.

(** C2, counterexample to the bound as stated: when every probe takes 2
    time units and fails, the poll returns after 126 time units, more than
    the timeout of 120. *)
Lemma readiness_poll_overruns :
  exists st',
    wait_for_fork (always_failing "Not Found" 2) "alice/repo" "tok-a" fresh =
    Normal false st' /\
    (clock st' - clock fresh = 126)%N /\
    (POLL_TIMEOUT < clock st' - clock fresh)%N.
Proof.
  eexists; split; [vm_compute; reflexivity|].
  split; vm_compute; reflexivity.
Qed.

Lemma readiness_poll_bound_witness :
  (forall w now call, (reply_elapsed (always_failing "Not Found" 2 w now call) <= 2)%N) /\
  exists b st' failed_probes tail,
    wait_for_fork (always_failing "Not Found" 2) "alice/repo" "tok-a" fresh = Normal b st' /\
    trace st' = trace fresh ++ flat_map (probe_round "alice/repo" "tok-a") failed_probes ++ tail /\
    Forall (fun r => success r = false) failed_probes /\
    (if b
     then exists r, success r = true /\ tail = [EvApi (exists_call "alice/repo" "tok-a") r]
     else tail = [EvPrint LvlError "    ❌ Timeout: Fork was not ready in time."] /\
          (POLL_TIMEOUT <= clock st' - clock fresh)%N /\
          fork_follow_up (always_failing "Not Found" 2) "alice" "tok-a" "alice/repo" fresh =
          Normal false st') /\
    (clock st' - clock fresh < POLL_TIMEOUT + 2 + POLL_INTERVAL)%N /\
    (2%N = 0%N -> (clock st' - clock fresh <= POLL_TIMEOUT)%N).
Proof.
  assert (H : forall w now call,
             (reply_elapsed (always_failing "Not Found" 2 w now call) <= 2)%N)
    by (intros; simpl; lia).
  split; [exact H|].
  exact (readiness_poll_bound (always_failing "Not Found" 2) fresh "alice" "alice/repo"
           "tok-a" 2%N H).
Defined.

(** C3, counterexample to the rule as stated for sync: the text below
    contains neither "already up-to-date" nor any other of the three texts
    of the claim, and the sync is still reported as a success. *)
Lemma sync_converges_on_other_text :
  PyStr.contains "already up-to-date" (PyStr.lower "Reference already exists") = false /\
  PyStr.contains "already a collaborator" (PyStr.lower "Reference already exists") = false /\
  PyStr.contains "forks must have unique names" (PyStr.lower "Reference already exists") = false /\
  exists st',
    sync_fork_with_upstream (merge_refused "Reference already exists") "alice/repo" "tok-a" fresh =
    Normal true st' /\
    In (EvApi (merge_call "alice/repo" "main" "tok-a") (failure "Reference already exists"))
       (trace st').
Proof.
  split; [vm_compute; reflexivity|].
  split; [vm_compute; reflexivity|].
  split; [vm_compute; reflexivity|].
  eexists; split; [vm_compute; reflexivity|].
  vm_compute; auto 6.
Qed.

Lemma error_text_classification_witness :
  (exists st',
      invite_one (invite_refused "User is Already a Collaborator") config "main/repo" "alice"
        (mkInviteCounts 0 0) fresh = Normal (mkInviteCounts 1 0) st' /\
      invited_file st' = ["alice"]) /\
  (exists st',
      sync_fork_with_upstream (merge_refused "merge conflict") "alice/repo" "tok-a" fresh =
      Normal false st').
Proof.
  destruct (error_text_classification (invite_refused "User is Already a Collaborator")
              fresh) as (Hinvite & _ & _).
  destruct (error_text_classification (merge_refused "merge conflict")
              fresh) as (_ & _ & Hsync).
  split.
  - exact (proj1 (Hinvite config "main/repo" "alice" (mkInviteCounts 0 0) eq_refl) eq_refl).
  - exact (Hsync "alice/repo" "tok-a" eq_refl).
Defined.

Lemma invite_flow_idempotent_witness :
  exists st' seg,
    invite_one always_ok config "main/repo" "alice" (mkInviteCounts 0 0) fresh =
    Normal (mkInviteCounts 1 0) st' /\
    trace st' = trace fresh ++ seg /\
    filter is_file_change seg = [EvAppend INVITED_USERS_FILE "alice"] /\
    invited_file st' = add_line (invited_file fresh) "alice" /\
    (~ In "alice" (invited_file fresh) ->
     count_occ string_dec (invited_file st') "alice" = 1%nat).
Proof.
  destruct (invite_flow_idempotent always_ok fresh) as (_ & Hstep).
  exact (Hstep config "main/repo" "alice" (mkInviteCounts 0 0) (or_introl eq_refl)).
Defined.

Lemma declined_confirmation_aborts_witness :
  let st := start cache3 ["carol"] ["dave"] ["alice"] ["x"; " 2 "; "n"; "y"] in
  exists st' seg,
    invoke_auto_create_or_sync_fork always_ok st = Normal None st' /\
    trace st' = trace st ++ seg /\
    Forall (fun e => exists lvl msg, e = EvPrint lvl msg) seg /\
    remote st' = remote st /\
    invited_file st' = invited_file st /\
    accepted_file st' = accepted_file st /\
    forked_file st' = forked_file st.
Proof.
  intros st.
  apply (declined_confirmation_aborts always_ok st ["x"] " 2 " "n" ["y"]).
  - reflexivity.
  - repeat constructor.
  - reflexivity.
  - discriminate.
Defined.

Lemma malformed_listing_is_skipped_witness :
  let st := start cache3 [] ["bob"] [] [] in
  exists st',
    accept_one (listing "<html>") loads "main/repo" ["bob"] ("tok-a", "alice")
      (mkAcceptCounts 0 0 0) st = Normal (mkAcceptCounts 0 0 0) st' /\
    trace st' = trace st ++ [EvApi (list_call "tok-a") (ok "<html>");
                             EvPrint LvlError " ❌ Gagal parse JSON";
                             EvSleep 1] /\
    invited_file st' = invited_file st /\
    accepted_file st' = accepted_file st /\
    forked_file st' = forked_file st /\
    for_each (accept_one (listing "<html>") loads "main/repo" ["bob"])
      [("tok-a", "alice"); ("tok-b", "bob")] (mkAcceptCounts 0 0 0) st =
    for_each (accept_one (listing "<html>") loads "main/repo" ["bob"])
      [("tok-b", "bob")] (mkAcceptCounts 0 0 0) st'.
Proof.
  intros st.
  apply (malformed_listing_is_skipped (listing "<html>") loads st "main/repo" ["bob"]
           "tok-a" "alice" (mkAcceptCounts 0 0 0) [("tok-b", "bob")]).
  - simpl; intros [H|[]]; discriminate.
  - reflexivity.
  - reflexivity.
Defined.

Lemma main_account_never_targeted_witness :
  let st := start cache3 [] [] [] ["2"; "y"] in
  (exists st' seg,
      final_state (invoke_auto_invite always_ok st) = Some st' /\
      trace st' = trace st ++ seg /\
      forall call r, In (EvApi call r) seg -> ~ targets_main config (cache_of st) call) /\
  (exists st' seg,
      final_state (invoke_auto_create_or_sync_fork always_ok st) = Some st' /\
      trace st' = trace st ++ seg /\
      forall call r, In (EvApi call r) seg -> ~ targets_main config (cache_of st) call).
Proof.
  intros st.
  apply (main_account_never_targeted always_ok st config).
  - reflexivity.
  - simpl; repeat constructor; simpl; intuition discriminate.
Defined.

(** C9, at an input on which the exclusion fails. The token cache lists
    the main account under its credential with the name "Main", the
    configuration names it "main". The filter compares the two names
    exactly, so the account counts as a collaborator: the invite flow
    invites it to its own repository with its own credential, and the fork
    orchestrator in the confirmed destructive mode deletes "Main/repo",
    which is the main repository, and then asks for a fork of it with the
    main credential. *)
Lemma main_account_targeted_under_other_case :
  let cache := [("tok-main", "Main")] in
  let st := start cache [] [] [] ["2"; "y"] in
  main_token config = "tok-main" /\
  (exists st',
      invoke_auto_invite always_ok st = Normal (Some (mkInviteCounts 1 0)) st' /\
      api_calls (trace st') = [invite_call config "main/repo" "Main"] /\
      aims_at_main config cache (invite_call config "main/repo" "Main")) /\
  (exists st',
      invoke_auto_create_or_sync_fork always_ok st = Normal (Some (mkForkCounts 1 0)) st' /\
      In (EvApi (delete_call "Main/repo" "tok-main") (ok "main/repo")) (trace st') /\
      aims_at_main config cache (delete_call "Main/repo" "tok-main") /\
      In (EvApi (create_call "main/repo" "tok-main") (ok "main/repo")) (trace st') /\
      aims_at_main config cache (create_call "main/repo" "tok-main")).
Proof.
  intros cache st; split; [reflexivity|]; split.
  - eexists; split; [vm_compute; reflexivity|].
    split; [vm_compute; reflexivity | reflexivity].
  - eexists; split; [vm_compute; reflexivity|].
    split; [vm_compute; auto 12|].
    split; [reflexivity|].
    split; [vm_compute; auto 12|].
    exists "Main"; split; [left; reflexivity | reflexivity].
Qed.

Lemma accept_flow_skips_accepted_witness :
  let st := start cache3 [] ["bob"] [] [] in
  accept_one always_ok loads "main/repo" ["bob"] ("tok-b", "bob") (mkAcceptCounts 0 0 0) st =
  Normal (mkAcceptCounts 0 1 0) st.
Proof.
  intros st.
  destruct (accept_flow_skips_accepted always_ok loads st) as (Hstep & _).
  exact (Hstep "main/repo" ["bob"] "tok-b" "bob" (mkAcceptCounts 0 0 0) (or_introl eq_refl)).
Defined.

End Runs.

(** ** The further properties on concrete runs *)

Module Instances.

Import Scenario.

(** Sync & Keep over valid forks: the report 2 + 0 covers both accounts. *)
Lemma fork_report_adds_up_witness :
  let st := start cache3 [] [] [] ["1"] in
  exists st',
    invoke_auto_create_or_sync_fork always_ok st = Normal (Some (mkForkCounts 2 0)) st' /\
    (2 + 0)%nat = List.length (processed st).
Proof.
  intros st.
  assert (E : exists st',
             invoke_auto_create_or_sync_fork always_ok st =
             Normal (Some (mkForkCounts 2 0)) st')
    by (eexists; vm_compute; reflexivity).
  destruct E as [st' E].
  exists st'; split; [exact E|].
  exact (fork_report_adds_up always_ok st st' (mkForkCounts 2 0) E).
Defined.

(** Two cached credentials of one account: the later one is used. *)
Lemma users_to_process_last_token_witness :
  "alice" <> "main" /\
  ~ In "alice" (map snd [("tok-b", "bob")]) /\
  let users := users_to_process_of "main"
                 ([("tok-old", "alice")] ++ ("tok-new", "alice") :: [("tok-b", "bob")]) in
  In ("alice", "tok-new") users /\
  forall token', In ("alice", token') users -> token' = "tok-new".
Proof.
  assert (H1 : "alice" <> "main") by discriminate.
  assert (H2 : ~ In "alice" (map snd [("tok-b", "bob")]))
    by (simpl; intros [H|[]]; discriminate H).
  split; [exact H1|]; split; [exact H2|].
  exact (users_to_process_last_token "main" [("tok-old", "alice")]
           [("tok-b", "bob")] "tok-new" "alice" H1 H2).
Defined.

(** An invitation for another repository is stepped over. *)
Lemma find_invitation_first_match_witness :
  let other := JObj [("id", JNum 3);
                     ("repository", JObj [("full_name", JStr "Other/Repo")])] in
  let wanted := JObj [("id", JNum 7);
                      ("repository", JObj [("full_name", JStr "Main/Repo")])] in
  Forall (skipped_by "main/repo") [other] /\
  find_invitation "main/repo" [other] = inr None /\
  find_invitation "main/repo" ([other] ++ wanted :: [other]) = inr (Some (JNum 7)).
Proof.
  intros other wanted.
  assert (H : Forall (skipped_by "main/repo") [other]).
  { constructor; [|constructor].
    exists "Other/Repo"; split; [reflexivity | discriminate]. }
  destruct (find_invitation_first_match "main/repo" [other] H) as (Hnone & Hfirst & _).
  split; [exact H|]; split; [exact Hnone|].
  apply Hfirst.
  exists [("id", JNum 7); ("repository", JObj [("full_name", JStr "Main/Repo")])],
         "Main/Repo".
  repeat split.
Defined.

(** The calls of a creation in a world where every call succeeds. *)
Lemma create_new_fork_calls_witness :
  has_slash "main" = false /\ has_slash "repo" = false /\
  exists b st' seg,
    create_new_fork always_ok "alice" "tok-a" "main/repo" fresh = Normal b st' /\
    trace st' = trace fresh ++ seg /\
    forall call r,
      In (EvApi call r) seg ->
      call = create_call "main/repo" "tok-a" \/
      call = exists_call "alice/repo" "tok-a" \/
      call = disable_call "alice/repo" "tok-a".
Proof.
  split; [reflexivity|]; split; [reflexivity|].
  exact (create_new_fork_calls always_ok fresh "alice" "tok-a" "main" "repo" eq_refl eq_refl).
Defined.

(** A round of the destructive mode whose deletion is refused. *)
Lemma round_pacing_witness :
  ("2" = "1" \/ "2" = "2") /\
  exists c' st' seg,
    process_account undeletable "2" "main/repo" "repo" ("alice", "tok-a")
      (mkForkCounts 0 0) fresh = Normal c' st' /\
    trace st' = trace fresh ++ seg /\
    existsb is_sleep seg = false /\
    In (EvApi (delete_call "alice/repo" "tok-a") (failure "HTTP 403")) seg /\
    c' = mkForkCounts 0 1.
Proof.
  split; [right; reflexivity|].
  exact (round_pacing undeletable fresh "2" "main" "repo" "alice" "tok-a"
           (mkForkCounts 0 0) (or_intror eq_refl)).
Defined.

(** An empty token cache. *)
Lemma flows_abort_without_configuration_witness :
  let st := start [] ["carol"] ["dave"] ["alice"] ["1"] in
  (config_file st = None \/ cache_of st = []) /\
  exists msg_invite msg_accept msg_fork,
    invoke_auto_invite always_ok st =
      Normal None (emitted st (EvPrint LvlError msg_invite)) /\
    invoke_auto_accept always_ok loads st =
      Normal None (emitted st (EvPrint LvlError msg_accept)) /\
    invoke_auto_create_or_sync_fork always_ok st =
      Normal None (emitted st (EvPrint LvlError msg_fork)).
Proof.
  intros st; split; [right; reflexivity|].
  exact (flows_abort_without_configuration always_ok loads st (or_intror eq_refl)).
Defined.

(** Two invalid answers and then nothing. *)
Lemma exhausted_input_raises_eof_witness :
  let st := start cache3 [] [] ["alice"] ["x"; "3"] in
  processed st <> [] /\
  Forall invalid_mode (stdin st) /\
  exists st' seg,
    invoke_auto_create_or_sync_fork always_ok st = Raised EOFError st' /\
    trace st' = trace st ++ seg /\
    Forall (fun e => exists lvl msg, e = EvPrint lvl msg) seg /\
    remote st' = remote st /\
    invited_file st' = invited_file st /\
    accepted_file st' = accepted_file st /\
    forked_file st' = forked_file st.
Proof.
  intros st.
  assert (H1 : processed st <> []) by (vm_compute; discriminate).
  assert (H2 : Forall invalid_mode (stdin st)) by (repeat constructor).
  split; [exact H1|]; split; [exact H2|].
  exact (exhausted_input_raises_eof always_ok st H1 (or_introl H2)).
Defined.

(** Mode 1 after one invalid answer. *)
Lemma modes_are_exclusive_witness :
  let st := start cache3 [] [] ["alice"] ["x"; " 1 "] in
  stdin st = ["x"] ++ " 1 " :: [] /\
  Forall invalid_mode ["x"] /\
  exists r st' seg,
    invoke_auto_create_or_sync_fork always_ok st = Normal r st' /\
    trace st' = trace st ++ seg /\
    existsb is_delete_call seg = false.
Proof.
  intros st.
  assert (H : Forall invalid_mode ["x"]) by (repeat constructor).
  split; [reflexivity|]; split; [exact H|].
  exact (proj1 (modes_are_exclusive always_ok st ["x"] " 1 " [] eq_refl H) eq_refl).
Defined.

(** Both accounts are invited, in cache order. *)
Lemma invite_flow_calls_in_order_witness :
  exists st' seg,
    invoke_auto_invite always_ok fresh = Normal (Some (mkInviteCounts 2 0)) st' /\
    trace st' = trace fresh ++ seg /\
    api_calls seg = [invite_call config "main/repo" "alice";
                     invite_call config "main/repo" "bob"].
Proof.
  assert (E : exists st',
             invoke_auto_invite always_ok fresh = Normal (Some (mkInviteCounts 2 0)) st')
    by (eexists; vm_compute; reflexivity).
  destruct E as [st' E].
  destruct (invite_flow_calls_in_order always_ok fresh st' config
              (Some (mkInviteCounts 2 0)) eq_refl E) as (seg & T & C & _).
  exists st', seg; split; [exact E|]; split; [exact T | exact C].
Defined.

(** The invitation of the second account fails without an error text. *)
Lemma invite_flow_stops_at_missing_error_text_witness :
  exists st',
    invoke_auto_invite fails_silently_after_first fresh = Raised KeyError st' /\
    exists seg done u rest r,
      users_to_invite_of "main" (invited_file fresh) (cache_of fresh) = done ++ u :: rest /\
      trace st' = trace fresh ++ seg ++ [EvApi (invite_call config "main/repo" u) r] /\
      api_calls seg = map (invite_call config "main/repo") done /\
      success r = false /\ error r = None.
Proof.
  assert (E : exists st',
             invoke_auto_invite fails_silently_after_first fresh = Raised KeyError st')
    by (eexists; vm_compute; reflexivity).
  destruct E as [st' E].
  exists st'; split; [exact E|].
  exact (invite_flow_stops_at_missing_error_text fails_silently_after_first fresh st'
           config KeyError eq_refl E).
Defined.

(** One pending invitation, accepted. *)
Lemma accept_round_on_invitation_witness :
  exists st',
    accept_one (listing "[{..}]") loads "main/repo" [] ("tok-a", "alice")
      (mkAcceptCounts 0 0 0) fresh = Normal (mkAcceptCounts 1 0 0) st' /\
    accepted_file st' = ["alice"].
Proof.
  destruct (accept_round_on_invitation (listing "[{..}]") loads fresh "main/repo" []
              "tok-a" "alice" (mkAcceptCounts 0 0 0)
              (JArr [JObj [("id", JNum 7);
                           ("repository", JObj [("full_name", JStr "Main/Repo")])]])
              [JObj [("id", JNum 7);
                     ("repository", JObj [("full_name", JStr "Main/Repo")])]]
              (JNum 7)
              (fun H => H) eq_refl eq_refl eq_refl eq_refl eq_refl)
    as (c' & st' & tail & E & _ & _ & _ & Hc & _ & Ha).
  exists st'; split; [rewrite E, Hc; reflexivity | exact Ha].
Defined.

(** A listing that decodes to an object: the loop ends at the first
    account. *)
Lemma accept_batch_stops_on_unexpected_payload_witness :
  for_each (accept_one (listing "{..}") loads "main/repo" [])
    [("tok-a", "alice"); ("tok-b", "bob")] (mkAcceptCounts 0 0 0) fresh =
  Raised AttributeError (answered (listing "{..}") fresh (list_call "tok-a")).
Proof.
  exact (accept_batch_stops_on_unexpected_payload (listing "{..}") loads fresh "main/repo" []
           "tok-a" "alice" (mkAcceptCounts 0 0 0)
           (JObj [("message", JStr "Bad credentials")]) [("tok-b", "bob")]
           (fun H => H) eq_refl eq_refl
           (or_intror (ex_intro _ [JStr "message"] (conj eq_refl eq_refl)))).
Defined.

(** A decoder that raises ValueError: the loop ends at the first account. *)
Lemma accept_round_on_decoder_exception_witness :
  for_each (accept_one (listing "[]") (loads_raising ValueError) "main/repo" [])
    [("tok-a", "alice"); ("tok-b", "bob")] (mkAcceptCounts 0 0 0) fresh =
  Raised ValueError (answered (listing "[]") fresh (list_call "tok-a")).
Proof.
  apply (accept_round_on_decoder_exception (listing "[]") (loads_raising ValueError) fresh
           "main/repo" [] "tok-a" "alice" (mkAcceptCounts 0 0 0) ValueError [("tok-b", "bob")]
           (fun H => H) eq_refl eq_refl); discriminate.
Defined.

(** One account already accepted, two accepting now. *)
Lemma accept_report_witness :
  let st := start cache3 [] ["bob"] [] [] in
  exists st' seg,
    invoke_auto_accept (listing "[{..}]") loads st = Normal (Some (mkAcceptCounts 2 1 0)) st' /\
    trace st' = trace st ++ seg /\
    filter is_list_call (api_calls seg) = [list_call "tok-main"; list_call "tok-a"] /\
    List.length (filter is_file_change seg) = 2%nat.
Proof.
  intros st.
  assert (E : exists st',
             invoke_auto_accept (listing "[{..}]") loads st =
             Normal (Some (mkAcceptCounts 2 1 0)) st')
    by (eexists; vm_compute; reflexivity).
  destruct E as [st' E].
  destruct (accept_report (listing "[{..}]") loads st st' (mkAcceptCounts 2 1 0) E)
    as (seg & T & L & _ & A & _).
  exists st', seg; split; [exact E|]; split; [exact T|]; split; [exact L|].
  symmetry; exact A.
Defined.

(** Sync & Keep: one parentage probe per account. *)
Lemma every_account_is_probed_once_witness :
  let st := start cache3 [] [] [] ["1"] in
  exists st' seg,
    invoke_auto_create_or_sync_fork always_ok st = Normal (Some (mkForkCounts 2 0)) st' /\
    trace st' = trace st ++ seg /\
    filter is_parent_call (api_calls seg) =
      [parent_call "alice/repo" "tok-a"; parent_call "bob/repo" "tok-b"].
Proof.
  intros st.
  assert (E : exists st',
             invoke_auto_create_or_sync_fork always_ok st =
             Normal (Some (mkForkCounts 2 0)) st')
    by (eexists; vm_compute; reflexivity).
  destruct E as [st' E].
  destruct (every_account_is_probed_once always_ok st st' config (mkForkCounts 2 0) eq_refl E)
    as (seg & T & P).
  exists st', seg; split; [exact E|]; split; [exact T | exact P].
Defined.

End Instances.
